(** * Quota aggregation and trend selection of the web console

    A shallow embedding of the client-side state engine of the console:
    the shared data store ([src/public/js/data-store.js]) and the dashboard
    component ([src/public/js/components/dashboard.js]).

    Conventions of the embedding.
    - JavaScript objects used as dictionaries whose iteration order is
      irrelevant ([modelConfig], [limits], [selectedModels], [modelTree])
      are [gmap string _]; objects iterated with [Object.entries] where the
      order is observable (the history feed, the [usage] table of
      [autoSelectTopN]) are association lists in iteration order.
    - Numbers that the code treats as counts, percentages or epoch
      milliseconds are [Z]: they are integers far below 2^53, on which
      double arithmetic is exact.  [remainingFraction] is a rational [Q],
      the exact value of the IEEE double of the feed; a product or a
      quotient that need not be an integer is rounded to the nearest double
      ([JS.mul], [JS.div]) as the code's arithmetic rounds it.
    - [null]/[undefined] are [None]; where the code can throw inside the
      modelled part, the result says so ([None] of an [option] result, or
      a [Completion]).
    - Strings are byte strings; [toLowerCase] acts on ASCII letters. *)

From Stdlib Require Import ZArith QArith Qround Lqa String Ascii List Lia Bool.
From Stdlib Require Import Permutation Sorted OrdersEx.
From stdpp Require Import gmap strings list fin_maps.

Local Open Scope string_scope.
Local Open Scope list_scope.
Local Open Scope Z_scope.

(** ** The JavaScript runtime the code relies on *)

Module JS.

Definition lower_char (c : ascii) : ascii :=
  let n := N_of_ascii c in
  if ((65 <=? n) && (n <=? 90))%N then ascii_of_N (n + 32) else c.

(** [String.prototype.toLowerCase] on ASCII letters. *)
Fixpoint toLowerCase (s : string) : string :=
  match s with
  | EmptyString => EmptyString
  | String c s' => String (lower_char c) (toLowerCase s')
  end.

(** [s.includes(sub)]: [sub] occurs in [s] as a contiguous substring. *)
Fixpoint includes (s sub : string) : bool :=
  String.prefix sub s ||
  match s with
  | EmptyString => false
  | String _ s' => includes s' sub
  end.

(** [s.split(sep)] for a one-character separator; never returns []. *)
Fixpoint split (sep : ascii) (s : string) : list string :=
  match s with
  | EmptyString => [EmptyString]
  | String c s' =>
      if Ascii.eqb c sep then EmptyString :: split sep s'
      else match split sep s' with
           | [] => [String c EmptyString]
           | h :: t => String c h :: t
           end
  end.

(** Truthiness of a string: only the empty string is falsy. *)
Definition truthy_string (s : string) : bool := negb (String.eqb s EmptyString).

(** [Math.round] rounds to the nearest integer, halves towards +infinity. *)
Definition Math_round (q : Q) : Z := Qfloor (q + (1 # 2)).

(** IEEE 754 binary64, the number type of the language.  A double is a
    rational [m * 2^u] with [|m| < 2^53] and [-1074 <= u]; the result of an
    arithmetic operation is the exact result rounded to the nearest double,
    ties to the even significand.  Magnitudes from 2^1024 on, where a
    double overflows to [Infinity], are outside this model. *)
Definition pow2 (e : Z) : Q :=
  if 0 <? e then inject_Z (2 ^ e) else / inject_Z (2 ^ (- e)).

(** The binary exponent of [q > 0]: the [e] with [2^e <= q < 2^(e+1)]. *)
Definition ilog2 (q : Q) : Z :=
  let k := Z.log2 (Qnum q) - Z.log2 (Zpos (Qden q)) in
  if Qle_bool (pow2 k) q then k else k - 1.

(** The nearest integer, ties to even. *)
Definition round_even (q : Q) : Z :=
  let f := Qfloor q in
  match (q - inject_Z f ?= 1 # 2)%Q with
  | Lt => f
  | Gt => f + 1
  | Eq => if Z.even f then f else f + 1
  end.

(** The double nearest to [q > 0]: 53 significant bits above the
    subnormal range, whose spacing is 2^-1074. *)
Definition nearest (q : Q) : Q :=
  let u := Z.max (ilog2 q - 52) (-1074) in
  (inject_Z (round_even (q / pow2 u)) * pow2 u)%Q.

(** The double nearest to [q], in lowest terms: what a numeric literal
    or a number of a JSON text denotes, and what an operation with the
    exact result [q] returns. *)
Definition to_double (q : Q) : Q :=
  Qred match Qnum q with
       | Z0 => 0
       | Zpos _ => nearest q
       | Zneg _ => - nearest (- q)
       end%Q.

(** [a * b] and [a / b] on doubles. *)
Definition mul (a b : Q) : Q := to_double (a * b).

Definition div (a b : Q) : Q := to_double (a / b).

(** [Array.prototype.sort] with a comparator.  The language standard
    makes it a stable sort and leaves the algorithm to the engine; a stable
    insertion sort stands for it.  [cmp a b <= 0] keeps [a] before [b]. *)
Fixpoint insert_by {A} (cmp : A -> A -> Z) (x : A) (l : list A) : list A :=
  match l with
  | [] => [x]
  | y :: l' => if cmp x y <=? 0 then x :: y :: l' else y :: insert_by cmp x l'
  end.

Definition Array_sort {A} (cmp : A -> A -> Z) (l : list A) : list A :=
  fold_right (insert_by cmp) [] l.

(** The default comparator of [sort()] on strings: code-unit order. *)
Definition compare_strings (a b : string) : Z :=
  match String.compare a b with
  | Lt => -1
  | Eq => 0
  | Gt => 1
  end.

(** [arr.slice(0, n)] for a count [n]. *)
Definition slice0 {A} (n : nat) (l : list A) : list A := firstn n l.

End JS.

(** ** The collaborators outside the sources *)

(** [window.utils.formatTimeUntil] lives in [utils.js], which is not among
    the sources; the store only stores its result. *)
Class Utils := { formatTimeUntil : Z -> string }.

(** ** The data store: [data-store.js] *)

Module DataStore.

(** [Limit]: [remainingFraction] is a number or [null]; [resetTime] an
    instant (epoch milliseconds of the ISO string) or [null]. *)
Record Limit := {
  remainingFraction : option Q;
  resetTime : option Z
}.

(** [limits] maps a model id to a [Limit] or to [null] ([Some None]). *)
Record Account := {
  email : string;
  enabled : option bool;
  status : string;
  limits : gmap string (option Limit)
}.

Record ModelConfig := {
  cfg_hidden : option bool;
  cfg_pinned : option bool
}.

Record Filters := {
  f_account : string;
  f_family : string;
  f_search : string
}.

(** [Alpine.store('settings')], read through [?.] and [??]. *)
Record Settings := {
  showExhausted : option bool;
  showHiddenModels : option bool
}.

Record QuotaInfo := {
  qi_email : string;
  fullEmail : string;
  pct : Z;
  qi_resetTime : option Z
}.

Record QuotaRow := {
  modelId : string;
  displayName : string;
  family : string;
  minQuota : Z;
  avgQuota : Z;
  minResetTime : option Z;
  resetIn : string;
  quotaInfo : list QuotaInfo;
  pinned : bool;
  hidden : bool
}.

(** The row shape of [getUnfilteredQuotaData]: the [quotaInfo] entries
    are [{ pct }]. *)
Record UnfilteredRow := {
  u_modelId : string;
  u_family : string;
  u_quotaInfo : list Z
}.

Record Store := {
  accounts : list Account;
  models : list string;
  modelConfig : gmap string ModelConfig;
  filters : Filters
}.

(** The store after the user changed the filters. *)
Definition with_filters (fl : Filters) (st : Store) : Store :=
  {| accounts := accounts st; models := models st;
     modelConfig := modelConfig st; filters := fl |}.

Definition getModelFamily (modelId : string) : string :=
  let lower := JS.toLowerCase modelId in
  if JS.includes lower "claude" then "claude"
  else if JS.includes lower "gemini" then "gemini"
  else "other".

(** [this.modelConfig[modelId] || {}] *)
Definition config_of (st : Store) (modelId : string) : ModelConfig :=
  default {| cfg_hidden := None; cfg_pinned := None |} (modelConfig st !! modelId).

(** [let isHidden = config.hidden; if (isHidden === undefined) ...] *)
Definition isHidden (config : ModelConfig) (family : string) : bool :=
  match cfg_hidden config with
  | Some h => h
  | None => String.eqb family "other" || String.eqb family "unknown"
  end.

(** [limit.remainingFraction !== null ? Math.round(rf * 100) : 0] *)
Definition pct_of (limit : Limit) : Z :=
  match remainingFraction limit with
  | Some rf => JS.Math_round (JS.mul rf 100)
  | None => 0
  end.

(** [acc.limits?.[modelId]] followed by [if (!limit) return]. *)
Definition limit_of (acc : Account) (modelId : string) : option Limit :=
  mjoin (limits acc !! modelId).

(** The local variables of the data-collection loop. *)
Record Collect := {
  c_quotaInfo : list QuotaInfo;
  c_minQuota : Z;
  c_totalQuotaSum : Z;
  c_validAccountCount : Z;
  c_minResetTime : option Z
}.

Definition collect_init : Collect :=
  {| c_quotaInfo := []; c_minQuota := 100; c_totalQuotaSum := 0;
     c_validAccountCount := 0; c_minResetTime := None |}.

(** [limit.resetTime && (!minResetTime || new Date(limit.resetTime) <
    new Date(minResetTime))] *)
Definition earlier_reset (limit : Limit) (cur : option Z) : option Z :=
  match resetTime limit, cur with
  | Some t, None => Some t
  | Some t, Some m => if t <? m then Some t else Some m
  | None, _ => cur
  end.

Definition passes_account_filter (fl : Filters) (acc : Account) : bool :=
  negb (negb (String.eqb (f_account fl) "all") &&
        negb (String.eqb (email acc) (f_account fl))).

(** The body of [this.accounts.forEach(acc => ...)] in [computeQuotaRows]. *)
Definition collect_step (fl : Filters) (mid : string) (c : Collect) (acc : Account)
  : Collect :=
  if negb (passes_account_filter fl acc) then c
  else match limit_of acc mid with
       | None => c
       | Some limit =>
           let p := pct_of limit in
           {| c_quotaInfo :=
                c_quotaInfo c ++
                [ {| qi_email := hd EmptyString (JS.split "@" (email acc));
                     fullEmail := email acc;
                     pct := p;
                     qi_resetTime := resetTime limit |} ];
              c_minQuota := Z.min (c_minQuota c) p;
              c_totalQuotaSum := c_totalQuotaSum c + p;
              c_validAccountCount := c_validAccountCount c + 1;
              c_minResetTime := earlier_reset limit (c_minResetTime c) |}
       end.

Definition collect (st : Store) (mid : string) : Collect :=
  fold_left (collect_step (filters st) mid) (accounts st) collect_init.

(** The filters on family and search text. *)
Definition passes_model_filters (fl : Filters) (mid fam : string) : bool :=
  negb (negb (String.eqb (f_family fl) "all") && negb (String.eqb (f_family fl) fam))
  && (if JS.truthy_string (f_search fl)
      then JS.includes (JS.toLowerCase mid) (JS.toLowerCase (f_search fl))
      else true).

(** [validAccountCount > 0 ? Math.round(totalQuotaSum / validAccountCount) : 0] *)
Definition average (c : Collect) : Z :=
  if 0 <? c_validAccountCount c
  then JS.Math_round (JS.div (inject_Z (c_totalQuotaSum c))
                             (inject_Z (c_validAccountCount c)))
  else 0.

(** The body of [models.forEach(modelId => ...)]: [None] stands for the
    early [return]s, [Some row] for [rows.push(row)]. *)
Definition row_of `{Utils} (st : Store) (showExh : bool) (mid : string)
  : option QuotaRow :=
  let config := config_of st mid in
  let fam := getModelFamily mid in
  let hid := isHidden config fam in
  if hid then None
  else if negb (passes_model_filters (filters st) mid fam) then None
  else
    let c := collect st mid in
    if (length (c_quotaInfo c) =? 0)%nat then None
    else
      let avg := average c in
      if negb showExh && (c_minQuota c =? 0) then None
      else Some {| modelId := mid;
                   displayName := mid;
                   family := fam;
                   minQuota := c_minQuota c;
                   avgQuota := avg;
                   minResetTime := c_minResetTime c;
                   resetIn := match c_minResetTime c with
                              | Some t => formatTimeUntil t
                              | None => "-"
                              end;
                   quotaInfo := c_quotaInfo c;
                   pinned := default false (cfg_pinned config);
                   hidden := hid |}.

(** The comparator of the final sort. *)
Definition compareRows (a b : QuotaRow) : Z :=
  if negb (Bool.eqb (pinned a) (pinned b))
  then (if pinned a then -1 else 1)
  else avgQuota b - avgQuota a.

Definition push_row `{Utils} (st : Store) (showExh : bool)
  (rows : list QuotaRow) (mid : string) : list QuotaRow :=
  match row_of st showExh mid with
  | Some r => rows ++ [r]
  | None => rows
  end.

(** [computeQuotaRows()]; the result is the new [quotaRows]. *)
Definition computeQuotaRows `{Utils} (st : Store) (settings : option Settings)
  : list QuotaRow :=
  let showExh := default true (settings ≫= showExhausted) in
  let rows := fold_left (push_row st showExh) (models st) [] in
  JS.Array_sort compareRows rows.

(** The inner loop of [getUnfilteredQuotaData]. *)
Definition unfiltered_step (mid : string) (qi : list Z) (acc : Account) : list Z :=
  match limit_of acc mid with
  | None => qi
  | Some limit => qi ++ [pct_of limit]
  end.

Definition unfiltered_row_of (st : Store) (showHidden : bool) (mid : string)
  : option UnfilteredRow :=
  let config := config_of st mid in
  let fam := getModelFamily mid in
  let hid := isHidden config fam in
  if hid && negb showHidden then None
  else
    let qi := fold_left (unfiltered_step mid) (accounts st) [] in
    if (length qi =? 0)%nat then None
    else Some {| u_modelId := mid; u_family := fam; u_quotaInfo := qi |}.

Definition push_unfiltered (st : Store) (showHidden : bool)
  (rows : list UnfilteredRow) (mid : string) : list UnfilteredRow :=
  match unfiltered_row_of st showHidden mid with
  | Some r => rows ++ [r]
  | None => rows
  end.

(** [getUnfilteredQuotaData()] *)
Definition getUnfilteredQuotaData (st : Store) (settings : option Settings)
  : list UnfilteredRow :=
  let showHidden := default false (settings ≫= showHiddenModels) in
  fold_left (push_unfiltered st showHidden) (models st) [].

End DataStore.

(** ** The dashboard component: [components/dashboard.js] *)

Module Dashboard.
Import DataStore.

(** A value stored under a key of an hour bucket: absent ([undefined]),
    [null], a count, or a family object mapping model names (and
    [_subtotal]) to counts. *)
Inductive Value :=
| VUndefined
| VNull
| VNum (n : Z)
| VObj (counts : list (string * Z)).

(** An object in [Object.entries] order. *)
Definition Obj (V : Type) := list (string * V).

Fixpoint field {V} (o : Obj V) (k : string) : option V :=
  match o with
  | [] => None
  | (k', v) :: o' => if String.eqb k' k then Some v else field o' k
  end.

Definition Bucket := Obj Value.

(** The history feed: one bucket per ISO hour, keyed here by the epoch
    milliseconds [new Date(iso).getTime()] of its key. *)
Definition History := list (Z * Bucket).

Definition prop (hourData : Bucket) (k : string) : Value :=
  default VUndefined (field hourData k).

Definition truthy (v : Value) : bool :=
  match v with
  | VUndefined | VNull => false
  | VNum n => negb (n =? 0)
  | VObj _ => true
  end.

(** [a || b] *)
Definition js_or (a b : Value) : Value := if truthy a then a else b.

(** [a ?? b], used only to state what the code does not do. *)
Definition js_nullish (a b : Value) : Value :=
  match a with
  | VUndefined | VNull => b
  | _ => a
  end.

(** [const hourTotal = hourData._total || hourData.total || 0] *)
Definition hourTotal (hourData : Bucket) : Value :=
  js_or (js_or (prop hourData "_total") (prop hourData "total")) (VNum 0).

(** [acc += v] on a running total: [None] once the total is no longer a
    number (adding an object turns it into a string). *)
Definition js_add (acc : option Z) (v : Value) : option Z :=
  match acc, v with
  | Some a, VNum n => Some (a + n)
  | _, _ => None
  end.

(** The instants read from the clock: [Date.now()], the start of the
    local day and the floor of the local hour. *)
Record Clock := {
  now : Z;
  todayStart : Z;
  currentHour : Z
}.

Record Stats := {
  total : Z;
  active : Z;
  limited : Z;
  overallHealth : Z;
  hasTrendData : bool
}.

Record UsageStats := {
  us_total : option Z;
  us_today : option Z;
  us_thisHour : Value
}.

(** The JSON blob kept under ['dashboard_chart_prefs']. *)
Record Prefs := {
  p_displayMode : string;
  p_selectedFamilies : list string;
  p_selectedModels : gmap string (list string)
}.

Inductive StoredItem :=
| Unparsable
| Parsed (p : Prefs).

(** The component's data, with the parts of its environment it writes:
    the stored preferences, the shared password and the console. *)
Record State := {
  stats : Stats;
  usageStats : UsageStats;
  historyData : History;
  modelTree : gmap string (list string);
  families : list string;
  displayMode : string;
  selectedFamilies : list string;
  selectedModels : gmap string (list string);
  localStorage : option StoredItem;
  storageWritable : bool;
  webuiPassword : string;
  console : list string
}.

Definition init_state : State :=
  {| stats := {| total := 0; active := 0; limited := 0; overallHealth := 0;
                 hasTrendData := false |};
     usageStats := {| us_total := Some 0; us_today := Some 0; us_thisHour := VNum 0 |};
     historyData := [];
     modelTree := ∅;
     families := [];
     displayMode := "model";
     selectedFamilies := [];
     selectedModels := ∅;
     localStorage := None;
     storageWritable := true;
     webuiPassword := EmptyString;
     console := [] |}.

Definition set_stats (f : Stats -> Stats) (s : State) : State :=
  {| stats := f (stats s); usageStats := usageStats s; historyData := historyData s;
     modelTree := modelTree s; families := families s; displayMode := displayMode s;
     selectedFamilies := selectedFamilies s; selectedModels := selectedModels s;
     localStorage := localStorage s; storageWritable := storageWritable s;
     webuiPassword := webuiPassword s; console := console s |}.

Definition set_hasTrendData (b : bool) : State -> State :=
  set_stats (fun st => {| total := total st; active := active st; limited := limited st;
                          overallHealth := overallHealth st; hasTrendData := b |}).

Definition set_selection (fams : list string) (mods : gmap string (list string))
  (s : State) : State :=
  {| stats := stats s; usageStats := usageStats s; historyData := historyData s;
     modelTree := modelTree s; families := families s; displayMode := displayMode s;
     selectedFamilies := fams; selectedModels := mods;
     localStorage := localStorage s; storageWritable := storageWritable s;
     webuiPassword := webuiPassword s; console := console s |}.

Definition set_displayMode_field (mode : string) (s : State) : State :=
  {| stats := stats s; usageStats := usageStats s; historyData := historyData s;
     modelTree := modelTree s; families := families s; displayMode := mode;
     selectedFamilies := selectedFamilies s; selectedModels := selectedModels s;
     localStorage := localStorage s; storageWritable := storageWritable s;
     webuiPassword := webuiPassword s; console := console s |}.

Definition set_history (h : History) (s : State) : State :=
  {| stats := stats s; usageStats := usageStats s; historyData := h;
     modelTree := modelTree s; families := families s; displayMode := displayMode s;
     selectedFamilies := selectedFamilies s; selectedModels := selectedModels s;
     localStorage := localStorage s; storageWritable := storageWritable s;
     webuiPassword := webuiPassword s; console := console s |}.

Definition set_processed (u : UsageStats) (tree : gmap string (list string))
  (fams : list string) (s : State) : State :=
  {| stats := stats s; usageStats := u; historyData := historyData s;
     modelTree := tree; families := fams; displayMode := displayMode s;
     selectedFamilies := selectedFamilies s; selectedModels := selectedModels s;
     localStorage := localStorage s; storageWritable := storageWritable s;
     webuiPassword := webuiPassword s; console := console s |}.

Definition set_localStorage (item : option StoredItem) (s : State) : State :=
  {| stats := stats s; usageStats := usageStats s; historyData := historyData s;
     modelTree := modelTree s; families := families s; displayMode := displayMode s;
     selectedFamilies := selectedFamilies s; selectedModels := selectedModels s;
     localStorage := item; storageWritable := storageWritable s;
     webuiPassword := webuiPassword s; console := console s |}.

Definition set_webuiPassword (p : string) (s : State) : State :=
  {| stats := stats s; usageStats := usageStats s; historyData := historyData s;
     modelTree := modelTree s; families := families s; displayMode := displayMode s;
     selectedFamilies := selectedFamilies s; selectedModels := selectedModels s;
     localStorage := localStorage s; storageWritable := storageWritable s;
     webuiPassword := p; console := console s |}.

(** [console.error(msg, ...)] *)
Definition console_error (msg : string) (s : State) : State :=
  {| stats := stats s; usageStats := usageStats s; historyData := historyData s;
     modelTree := modelTree s; families := families s; displayMode := displayMode s;
     selectedFamilies := selectedFamilies s; selectedModels := selectedModels s;
     localStorage := localStorage s; storageWritable := storageWritable s;
     webuiPassword := webuiPassword s; console := console s ++ [msg] |}.

(** [loadPreferences()] *)
Definition loadPreferences (s : State) : State :=
  match localStorage s with
  | None => s
  | Some Unparsable => console_error "Failed to load dashboard preferences:" s
  | Some (Parsed prefs) =>
      set_selection (p_selectedFamilies prefs) (p_selectedModels prefs)
        (set_displayMode_field
           (if JS.truthy_string (p_displayMode prefs) then p_displayMode prefs else "model")
           s)
  end.

(** [savePreferences()]: [setItem] throws when the storage refuses the
    write, and the failure is logged. *)
Definition savePreferences (s : State) : State :=
  if storageWritable s
  then set_localStorage
         (Some (Parsed {| p_displayMode := displayMode s;
                          p_selectedFamilies := selectedFamilies s;
                          p_selectedModels := selectedModels s |})) s
  else console_error "Failed to save dashboard preferences:" s.

(** [arr.includes(x)] on an array of strings. *)
Definition Array_includes (l : list string) (x : string) : bool :=
  existsb (String.eqb x) l.

(** [set.add(x)] on a [Set] kept in insertion order. *)
Definition Set_add (x : string) (s : list string) : list string :=
  if Array_includes s x then s else s ++ [x].

(** The body of [Object.entries(hourData).forEach(([key, value]) => ...)]
    in [processHistory]. *)
Definition tree_step (tree : gmap string (list string)) (kv : string * Value)
  : gmap string (list string) :=
  let '(key, value) := kv in
  if String.eqb key "_total" || String.eqb key "total" then tree
  else match value with
       | VObj counts =>
           let tree1 := match tree !! key with
                        | Some _ => tree
                        | None => <[key := []]> tree
                        end in
           fold_left (fun t modelName =>
                        if negb (String.eqb modelName "_subtotal")
                        then alter (Set_add modelName) key t
                        else t)
                     (map fst counts) tree1
       | _ => tree
       end.

Record Totals := {
  t_tree : gmap string (list string);
  t_total : option Z;
  t_today : option Z;
  t_thisHour : Value
}.

(** The body of [Object.entries(history).forEach(([iso, hourData]) => ...)]. *)
Definition history_step (clock : Clock) (acc : Totals) (e : Z * Bucket) : Totals :=
  let '(timestamp, hourData) := e in
  let tree := fold_left tree_step hourData (t_tree acc) in
  let hourTotal := hourTotal hourData in
  {| t_tree := tree;
     t_total := js_add (t_total acc) hourTotal;
     t_today := if todayStart clock <=? timestamp
                then js_add (t_today acc) hourTotal else t_today acc;
     t_thisHour := if timestamp =? currentHour clock
                   then hourTotal else t_thisHour acc |}.

Definition totals_init : Totals :=
  {| t_tree := ∅; t_total := Some 0; t_today := Some 0; t_thisHour := VNum 0 |}.

(** [autoSelectNew()]: the loop over a family's models. *)
Definition extend_models (family : string) (tree : gmap string (list string))
  (mods : gmap string (list string)) : gmap string (list string) :=
  fold_left (fun m model =>
               if negb (Array_includes (default [] (m !! family)) model)
               then alter (fun l => l ++ [model]) family m
               else m)
            (default [] (tree !! family)) mods.

(** The body of the second [this.families.forEach(family => ...)]. *)
Definition extend_family (tree : gmap string (list string))
  (sel : list string * gmap string (list string)) (family : string)
  : list string * gmap string (list string) :=
  let '(fams, mods) := sel in
  let fams1 := if negb (Array_includes fams family) then fams ++ [family] else fams in
  let mods1 := match mods !! family with
               | Some _ => mods
               | None => <[family := []]> mods
               end in
  (fams1, extend_models family tree mods1).

(** The loop shared by the first branch of [autoSelectNew] and by
    [selectAll]: [this.selectedModels[family] = [...(modelTree[family] || [])]]. *)
Definition select_all_models (fams : list string) (tree : gmap string (list string))
  (mods : gmap string (list string)) : gmap string (list string) :=
  fold_left (fun m family => <[family := default [] (tree !! family)]> m) fams mods.

Definition autoSelectNew (s : State) : State :=
  if (length (selectedFamilies s) =? 0)%nat && (size (selectedModels s) =? 0)%nat
  then savePreferences
         (set_selection (families s)
            (select_all_models (families s) (modelTree s) (selectedModels s)) s)
  else
    let '(fams, mods) :=
      fold_left (extend_family (modelTree s)) (families s)
                (selectedFamilies s, selectedModels s) in
    set_selection fams mods s.

(** [processHistory(history)]; the final [updateTrendChart()] only draws. *)
Definition processHistory (clock : Clock) (history : History) (s : State) : State :=
  let t := fold_left (history_step clock) history totals_init in
  let tree := (JS.Array_sort JS.compare_strings) <$> t_tree t in
  let fams := JS.Array_sort JS.compare_strings (map fst (map_to_list tree)) in
  autoSelectNew
    (set_processed {| us_total := t_total t; us_today := t_today t;
                      us_thisHour := t_thisHour t |} tree fams s).

(** What [await window.utils.request(...)] and [await response.json()]
    can do: the request rejects, or a response arrives with its [ok] flag
    and a body that parses to a history ([None]: [json()] rejects). *)
Inductive FetchOutcome :=
| RequestRejects
| Response (newPassword : option string) (ok : bool) (body : option History).

(** [fetchHistory()] *)
Definition fetchHistory (clock : Clock) (o : FetchOutcome) (s : State) : State :=
  let on_catch s' :=
    set_hasTrendData true (console_error "Failed to fetch usage history:" s') in
  match o with
  | RequestRejects => on_catch s
  | Response newPassword ok body =>
      let s1 := match newPassword with
                | Some p => if JS.truthy_string p then set_webuiPassword p s else s
                | None => s
                end in
      if ok then
        match body with
        | None => on_catch s1
        | Some history =>
            set_hasTrendData true (processHistory clock history (set_history history s1))
        end
      else s1
  end.

(** [setDisplayMode], [toggleFamily], [toggleModel], [selectAll],
    [deselectAll]; each ends with [updateTrendChart()], which only draws. *)
Definition setDisplayMode (mode : string) (s : State) : State :=
  savePreferences (set_displayMode_field mode s).

(** [arr.splice(arr.indexOf(x), 1)] when [x] occurs. *)
Fixpoint remove_first (x : string) (l : list string) : list string :=
  match l with
  | [] => []
  | y :: l' => if String.eqb y x then l' else y :: remove_first x l'
  end.

Definition toggle (x : string) (l : list string) : list string :=
  if Array_includes l x then remove_first x l else l ++ [x].

Definition toggleFamily (family : string) (s : State) : State :=
  savePreferences (set_selection (toggle family (selectedFamilies s)) (selectedModels s) s).

Definition toggleModel (family model : string) (s : State) : State :=
  let mods1 := match selectedModels s !! family with
               | Some _ => selectedModels s
               | None => <[family := []]> (selectedModels s)
               end in
  savePreferences (set_selection (selectedFamilies s) (alter (toggle model) family mods1) s).

Definition isFamilySelected (s : State) (family : string) : bool :=
  Array_includes (selectedFamilies s) family.

Definition isModelSelected (s : State) (family model : string) : bool :=
  match selectedModels s !! family with
  | Some l => Array_includes l model
  | None => false
  end.

Definition selectAll (s : State) : State :=
  savePreferences
    (set_selection (families s)
       (select_all_models (families s) (modelTree s) (selectedModels s)) s).

Definition deselectAll (s : State) : State :=
  savePreferences (set_selection [] ∅ s).

(** [autoSelectTopN]: the [usage] object, keyed by ["family:model"], in
    insertion order. *)
Definition Usage := list (string * Z).

(** [usage[key] = (usage[key] || 0) + count] *)
Fixpoint usage_add (key : string) (count : Z) (usage : Usage) : Usage :=
  match usage with
  | [] => [(key, 0 + count)]
  | (k, v) :: u' =>
      if String.eqb k key then (k, v + count) :: u'
      else (k, v) :: usage_add key count u'
  end.

Definition usage_family (family : string) (usage : Usage) (counts : list (string * Z))
  : Usage :=
  fold_left (fun u '(model, count) =>
               if negb (String.eqb model "_subtotal")
               then usage_add (family ++ ":" ++ model)%string count u
               else u)
            counts usage.

(** [typeof v === 'object'] *)
Definition typeof_object (v : Value) : bool :=
  match v with
  | VNull | VObj _ => true
  | _ => false
  end.

(** The body of [Object.entries(hourData).forEach(([family, familyData])
    => ...)]; [Object.entries(null)] throws. *)
Definition usage_entry (usage : option Usage) (kv : string * Value) : option Usage :=
  let '(family, familyData) := kv in
  u ← usage;
  if typeof_object familyData && negb (String.eqb family "_total")
  then match familyData with
       | VObj counts => Some (usage_family family u counts)
       | _ => None
       end
  else Some u.

Definition usage_bucket (dayAgo : Z) (usage : option Usage) (e : Z * Bucket)
  : option Usage :=
  let '(timestamp, hourData) := e in
  if timestamp <? dayAgo then usage
  else fold_left usage_entry hourData usage.

Definition usage_of (dayAgo : Z) (history : History) : option Usage :=
  fold_left (usage_bucket dayAgo) history (Some []).

(** [Object.entries(usage).sort((a, b) => b[1] - a[1]).slice(0, n)] *)
Definition top_entries (n : nat) (usage : Usage) : Usage :=
  JS.slice0 n (JS.Array_sort (fun a b => snd b - snd a) usage).

(** The body of [sorted.forEach(([key]) => ...)]; a key always holds a
    [":"], so the split has at least two parts. *)
Definition select_key (sel : list string * gmap string (list string)) (key : string)
  : list string * gmap string (list string) :=
  let '(fams, mods) := sel in
  match JS.split ":" key with
  | family :: model :: _ =>
      let fams1 := if negb (Array_includes fams family) then fams ++ [family] else fams in
      let mods1 := match mods !! family with
                   | Some _ => mods
                   | None => <[family := []]> mods
                   end in
      (fams1, alter (fun l => l ++ [model]) family mods1)
  | _ => sel
  end.

(** How a call ends: it returns, or an exception leaves it; either way
    with the state the component holds by then. *)
Inductive Completion :=
| Returns (s : State)
| Throws (s : State).

Definition final_state (c : Completion) : State :=
  match c with
  | Returns s => s
  | Throws s => s
  end.

(** [autoSelectTopN(n = 5)].  The usage loop throws on a [null] family
    entry, before anything is assigned.  Otherwise the selection is
    replaced and saved, and the call ends in its last statement,
    [this.refreshChart()]: the component defines no [refreshChart], so the
    call of the missing method throws a [TypeError]. *)
Definition autoSelectTopN (n : option nat) (clock : Clock) (s : State) : Completion :=
  let dayAgo := now clock - 24 * 60 * 60 * 1000 in
  match usage_of dayAgo (historyData s) with
  | None => Throws s
  | Some usage =>
      let sorted := top_entries (default 5%nat n) usage in
      let '(fams, mods) := fold_left select_key (map fst sorted) ([], ∅) in
      Throws (savePreferences (set_selection fams mods s))
  end.

(** [updateStats()] *)
Definition isCore (id : string) : bool :=
  let lower := JS.toLowerCase id in
  JS.includes lower "sonnet" || JS.includes lower "opus" ||
  JS.includes lower "pro" || JS.includes lower "flash".

(** [l && l.remainingFraction > 0.05]; the literal is the double
    nearest to 5/100. *)
Definition above_threshold (l : option Limit) : bool :=
  match l with
  | Some l' => match remainingFraction l' with
               | Some rf => negb (Qle_bool rf (JS.to_double (5 # 100)))
               | None => false
               end
  | None => false
  end.

Definition is_enabled (acc : Account) : bool :=
  match enabled acc with
  | Some false => false
  | _ => true
  end.

Definition hasActiveCore (acc : Account) : bool :=
  let limits := map_to_list (limits acc) in
  let hasActiveCore := existsb (fun '(id, l) => above_threshold l && isCore id) limits in
  if negb hasActiveCore then
    let hasAnyCore := existsb (fun '(id, _) => isCore id) limits in
    if negb hasAnyCore then existsb (fun '(_, l) => above_threshold l) limits
    else hasActiveCore
  else hasActiveCore.

(** The body of [enabledAccounts.forEach(acc => ...)] on the counters
    [(active, limited)]. *)
Definition count_step (c : Z * Z) (acc : Account) : Z * Z :=
  let '(active, limited) := c in
  if String.eqb (status acc) "ok" then
    if hasActiveCore acc then (active + 1, limited) else (active, limited + 1)
  else (active, limited + 1).

Definition updateStats (accounts : list Account) (s : State) : State :=
  let enabledAccounts := List.filter is_enabled accounts in
  let '(active, limited) := fold_left count_step enabledAccounts (0, 0) in
  set_stats (fun st => {| total := Z.of_nat (length enabledAccounts);
                          active := active;
                          limited := limited;
                          overallHealth := overallHealth st;
                          hasTrendData := hasTrendData st |}) s.

End Dashboard.

(** ** Vocabulary of the specification *)

Module Spec.
Import DataStore Dashboard.

(** [a] may stand before [b] in an array sorted with [cmp]. *)
Definition precedes {A} (cmp : A -> A -> Z) (a b : A) : Prop := cmp a b <= 0.

(** The data model's [Limit]: [remainingFraction] is [null] or lies in
    the interval from 0 to 1. *)
Definition limit_in_range (l : Limit) : bool :=
  match remainingFraction l with
  | Some rf => Qle_bool 0 rf && Qle_bool rf 1
  | None => true
  end.

Definition account_in_range (acc : Account) : bool :=
  forallb (fun kv => match snd kv with
                     | Some l => limit_in_range l
                     | None => true
                     end)
          (map_to_list (limits acc)).

Definition accounts_in_range (accs : list Account) : bool :=
  forallb account_in_range accs.

(** An account contributes to the row of [mid]: it passes the account
    filter and has a [Limit] for the model. *)
Definition contributes (fl : Filters) (mid : string) (acc : Account) : bool :=
  passes_account_filter fl acc &&
  match limit_of acc mid with
  | Some _ => true
  | None => false
  end.

(** The percentage a contributing account brings in. *)
Definition percentage (mid : string) (acc : Account) : Z :=
  match limit_of acc mid with
  | Some l => match remainingFraction l with
              | Some rf => JS.Math_round (JS.mul rf 100)
              | None => 0
              end
  | None => 0
  end.

(** The account with its [enabled] flag replaced. *)
Definition set_enabled (e : option bool) (acc : Account) : Account :=
  {| email := email acc; enabled := e; status := status acc; limits := limits acc |}.

Definition set_accounts (accs : list Account) (st : Store) : Store :=
  {| accounts := accs; models := models st;
     modelConfig := modelConfig st; filters := filters st |}.

(** An enabled account counts as active: its status is ["ok"] and the
    core-model heuristic of [updateStats] accepts it. *)
Definition counts_active (acc : Account) : bool :=
  String.eqb (status acc) "ok" && hasActiveCore acc.

Definition count_of (f : Account -> bool) (accs : list Account) : Z :=
  Z.of_nat (length (List.filter f accs)).

(** A selection (families, models per family) and a later one that only
    appended to it. *)
Definition Selection : Type := list string * gmap string (list string).

Definition sel_extends (sel sel' : Selection) : Prop :=
  (exists e, fst sel' = fst sel ++ e) /\
  (forall g l, snd sel !! g = Some l -> exists e, snd sel' !! g = Some (l ++ e)).

(** The selection holds the family [f] and all its models of the tree. *)
Definition sel_covers (tree : gmap string (list string)) (f : string)
  (sel : Selection) : Prop :=
  In f (fst sel) /\
  exists l, snd sel !! f = Some l /\
            forall m, In m (default [] (tree !! f)) -> In m l.

Definition sum_list (l : list Z) : Z := fold_right Z.add 0 l.

(** One usage count of the feed: family, model, count. *)
Definition Count : Type := string * string * Z.

Definition c_family (t : Count) : string := fst (fst t).
Definition c_model (t : Count) : string := snd (fst t).
Definition c_count (t : Count) : Z := snd t.

(** The counts under one key of a bucket: those of a family object,
    [_subtotal] left out. *)
Definition entry_counts (kv : string * Value) : list Count :=
  match snd kv with
  | VObj counts =>
      if String.eqb (fst kv) "_total" then []
      else map (fun mc => (fst kv, fst mc, snd mc))
               (List.filter (fun mc => negb (String.eqb (fst mc) "_subtotal")) counts)
  | _ => []
  end.

(** The counts of the buckets whose timestamp is on or after [dayAgo], in
    iteration order. *)
Definition window_counts (dayAgo : Z) (history : History) : list Count :=
  flat_map (fun e => if fst e <? dayAgo then [] else flat_map entry_counts (snd e))
           history.

(** No bucket of the window holds [null] under a family key. *)
Definition no_null_family (dayAgo : Z) (history : History) : bool :=
  forallb (fun e => (fst e <? dayAgo) ||
                    forallb (fun kv => match snd kv with
                                       | VNull => String.eqb (fst kv) "_total"
                                       | _ => true
                                       end) (snd e))
          history.

(** Total usage per (family, model) pair, pairs in order of first
    occurrence. *)
Fixpoint pair_add (f m : string) (c : Z) (tot : list Count) : list Count :=
  match tot with
  | [] => [(f, m, c)]
  | t :: tot' =>
      if String.eqb (c_family t) f && String.eqb (c_model t) m
      then (f, m, c_count t + c) :: tot'
      else t :: pair_add f m c tot'
  end.

Definition pair_totals (ts : list Count) : list Count :=
  fold_left (fun tot t => pair_add (c_family t) (c_model t) (c_count t) tot) ts [].

(** The usage of the pair ([f], [m]) summed over the counts [ts]. *)
Definition same_pair (f m : string) (t : Count) : bool :=
  String.eqb (c_family t) f && String.eqb (c_model t) m.

Definition pair_usage (f m : string) (ts : list Count) : Z :=
  sum_list (map c_count (List.filter (same_pair f m) ts)).

Fixpoint total_of (f m : string) (tot : list Count) : option Z :=
  match tot with
  | [] => None
  | t :: tot' => if same_pair f m t then Some (c_count t) else total_of f m tot'
  end.

(** The first [n] pairs by total usage, descending, ties in order of
    first occurrence. *)
Definition top_pairs (n : nat) (ts : list Count) : list Count :=
  firstn n (JS.Array_sort (fun a b => c_count b - c_count a) (pair_totals ts)).

Fixpoint no_colon (s : string) : bool :=
  match s with
  | EmptyString => true
  | String c s' => negb (Ascii.eqb c ":") && no_colon s'
  end.

Definition names_without_colon (ts : list Count) : bool :=
  forallb (fun t => no_colon (c_family t) && no_colon (c_model t)) ts.

(** The key of a pair in the [usage] object. *)
Definition pair_key (t : Count) : string * Z :=
  ((c_family t ++ ":" ++ c_model t)%string, c_count t).

(** One count entered into the [usage] object. *)
Definition add_count (u : Usage) (t : Count) : Usage :=
  usage_add (fst (pair_key t)) (c_count t) u.

(** [select_key] on a pair that needs no unpacking. *)
Definition select_pair (sel : Selection) (p : string * string) : Selection :=
  let fams1 := if negb (Array_includes (fst sel) (fst p))
               then fst sel ++ [fst p] else fst sel in
  let mods1 := match snd sel !! fst p with
               | Some _ => snd sel
               | None => <[fst p := []]> (snd sel)
               end in
  (fams1, alter (fun l => l ++ [snd p]) (fst p) mods1).

(** The models of family [f] among ranked pairs, in rank order. *)
Definition models_of (f : string) (ps : list (string * string)) : list string :=
  map snd (List.filter (fun p => String.eqb (fst p) f) ps).

(** The amount of a bucket as the specification words it:
    [bucket._total ?? bucket.total ?? 0]. *)
Definition hourTotal_nullish (hourData : Bucket) : Value :=
  js_nullish (js_nullish (prop hourData "_total") (prop hourData "total")) (VNum 0).

(** A field that holds a count other than 0. *)
Definition nonzero_count (v : Value) : option Z :=
  match v with
  | VNum n => if n =? 0 then None else Some n
  | _ => None
  end.

(** [_total] when it is a non-zero count, otherwise [total] when it is a
    non-zero count, otherwise 0. *)
Definition amount_added (hourData : Bucket) : Z :=
  match nonzero_count (prop hourData "_total") with
  | Some n => n
  | None => match nonzero_count (prop hourData "total") with
            | Some m => m
            | None => 0
            end
  end.

(** The feed's [_total] and [total] are counts, [null] or absent. *)
Definition count_or_missing (v : Value) : bool :=
  match v with
  | VObj _ => false
  | _ => true
  end.

Definition totals_are_counts (history : History) : bool :=
  forallb (fun e => count_or_missing (prop (snd e) "_total") &&
                    count_or_missing (prop (snd e) "total")) history.







End Spec.

(** ** Concrete feeds used below *)

Module Examples.
Import DataStore Dashboard.

Definition utils : Utils := {| formatTimeUntil := fun _ => "soon" |}.

(** The [Limit] whose remaining fraction the feed writes as [rf]: the
    parser gives the nearest double. *)
Definition limit (rf : Q) : option Limit :=
  Some {| remainingFraction := Some (JS.to_double rf); resetTime := None |}.

Definition no_filters : Filters :=
  {| f_account := "all"; f_family := "all"; f_search := EmptyString |}.

(** A disabled account with an exhausted quota next to an enabled one
    with a full quota. *)
Definition disabled_account : Account :=
  {| email := "off@x.com"; enabled := Some false; status := "ok";
     limits := {[ "claude-sonnet" := limit 0 ]} |}.

Definition enabled_account : Account :=
  {| email := "on@x.com"; enabled := Some true; status := "ok";
     limits := {[ "claude-sonnet" := limit 1 ]} |}.

Definition store_disabled : Store :=
  {| accounts := [disabled_account; enabled_account];
     models := ["claude-sonnet"];
     modelConfig := ∅;
     filters := no_filters |}.

(** Two accounts, three models: one pinned, one of family [other]. *)
Definition account_a : Account :=
  {| email := "a@x.com"; enabled := Some true; status := "ok";
     limits := {[ "claude-sonnet" := limit (1 # 2) ]} |}.

Definition account_b : Account :=
  {| email := "b@x.com"; enabled := Some true; status := "ok";
     limits := {[ "claude-sonnet" := limit (1 # 4);
                  "gemini-pro" := limit (285 # 1000);
                  "foo" := limit 1 ]} |}.

Definition store_two : Store :=
  {| accounts := [account_a; account_b];
     models := ["foo"; "claude-sonnet"; "gemini-pro"];
     modelConfig := {[ "gemini-pro" := {| cfg_hidden := None; cfg_pinned := Some true |} ]};
     filters := no_filters |}.

Definition row_gemini : QuotaRow :=
  {| modelId := "gemini-pro"; displayName := "gemini-pro"; family := "gemini";
     minQuota := 28; avgQuota := 28; minResetTime := None; resetIn := "-";
     quotaInfo := [ {| qi_email := "b"; fullEmail := "b@x.com"; pct := 28;
                       qi_resetTime := None |} ];
     pinned := true; hidden := false |}.

Definition row_claude : QuotaRow :=
  {| modelId := "claude-sonnet"; displayName := "claude-sonnet"; family := "claude";
     minQuota := 25; avgQuota := 38; minResetTime := None; resetIn := "-";
     quotaInfo := [ {| qi_email := "a"; fullEmail := "a@x.com"; pct := 50;
                       qi_resetTime := None |};
                    {| qi_email := "b"; fullEmail := "b@x.com"; pct := 25;
                       qi_resetTime := None |} ];
     pinned := false; hidden := false |}.

Definition show_hidden : option Settings :=
  Some {| showExhausted := None; showHiddenModels := Some true |}.





(** The clock: 14:30 on a day that started at 0; buckets are hourly. *)
Definition hour : Z := 3600000.

Definition clock : Clock :=
  {| now := 14 * hour + 1800000; todayStart := 0; currentHour := 14 * hour |}.

(** A bucket whose [_total] is an explicit 0 next to a legacy [total]. *)
Definition bucket_zero_total : Bucket :=
  [("_total", VNum 0); ("total", VNum 5)].

Definition bucket_plain : Bucket :=
  [("claude", VObj [("opus", 30); ("sonnet", 10); ("_subtotal", 40)]);
   ("gemini", VObj [("flash", 5); ("_subtotal", 5)]);
   ("_total", VNum 45)].

Definition history_two : History := [(13 * hour, bucket_plain)].

(** A refresh: the history fetch that answers with [history_two]. *)
Definition refresh : State -> State :=
  fetchHistory clock (Response None true (Some history_two)).

(** First refresh, then the user deselects [claude/opus], then the next
    refresh of the same feed. *)
Definition after_first : State := refresh init_state.

Definition after_deselect : State := toggleModel "claude" "opus" after_first.

Definition after_refresh : State := refresh after_deselect.

(** The same with a whole family, and with [deselectAll]. *)
Definition after_family_off : State := toggleFamily "gemini" after_first.

Definition after_family_refresh : State := refresh after_family_off.

Definition after_deselectAll_refresh : State := refresh (deselectAll after_first).

(** A feed with a model name that holds a colon. *)
Definition history_colon : History :=
  [(14 * hour, [("gemini", VObj [("2.5:pro", 3); ("_subtotal", 3)]);
                ("_total", VNum 3)])].

Definition state_colon : State := set_history history_colon init_state.

End Examples.

(** ** Further vocabulary and feeds *)

Module Cover.
Import DataStore Dashboard Spec.

(** The reset times of the accounts that contribute to the row of [mid],
    in account order. *)
Definition reset_times (fl : Filters) (mid : string) (accs : list Account) : list Z :=
  omap (fun acc => limit_of acc mid ≫= resetTime)
       (List.filter (contributes fl mid) accs).

(** One step of the search for the earliest reset time. *)
Definition earlier (cur : option Z) (t : Z) : option Z :=
  Some (match cur with
        | None => t
        | Some m => if t <? m then t else m
        end).

(** What a table row and a row of the global aggregate have in common. *)
Definition row_view (r : QuotaRow) : string * string * list Z :=
  (modelId r, family r, map pct (quotaInfo r)).

Definition unfiltered_view (u : UnfilteredRow) : string * string * list Z :=
  (u_modelId u, u_family u, u_quotaInfo u).

(** A table row with its [pinned] flag cleared: everything of the row
    but the flag. *)
Definition unpinned (r : QuotaRow) : QuotaRow :=
  {| modelId := modelId r; displayName := displayName r; family := family r;
     minQuota := minQuota r; avgQuota := avgQuota r;
     minResetTime := minResetTime r; resetIn := resetIn r;
     quotaInfo := quotaInfo r; pinned := false; hidden := hidden r |}.

Definition settings_of (showExh showHid : option bool) : option Settings :=
  Some {| showExhausted := showExh; showHiddenModels := showHid |}.

(** [store_two] with [claude-sonnet] hidden by configuration. *)
Definition store_hidden : Store :=
  {| accounts := accounts Examples.store_two;
     models := models Examples.store_two;
     modelConfig := {[ "claude-sonnet" := {| cfg_hidden := Some true; cfg_pinned := None |} ]};
     filters := filters Examples.store_two |}.

(** Accounts with reset times, and a store filtered on one account, one
    family and a search text. *)
Definition account_r1 : Account :=
  {| email := "r1@x.com"; enabled := Some true; status := "ok";
     limits := {[ "claude-opus" :=
                    Some {| remainingFraction := Some (1 # 2); resetTime := Some 9000 |} ]} |}.

Definition account_r2 : Account :=
  {| email := "r2@x.com"; enabled := Some true; status := "ok";
     limits := {[ "claude-opus" :=
                    Some {| remainingFraction := None; resetTime := Some 4000 |};
                  "gemini-flash" :=
                    Some {| remainingFraction := Some 1%Q; resetTime := None |} ]} |}.

Definition store_reset : Store :=
  {| accounts := [account_r1; account_r2];
     models := ["claude-opus"; "gemini-flash"];
     modelConfig := ∅;
     filters := Examples.no_filters |}.

Definition row_opus : QuotaRow :=
  {| modelId := "claude-opus"; displayName := "claude-opus"; family := "claude";
     minQuota := 0; avgQuota := 25; minResetTime := Some 4000; resetIn := "soon";
     quotaInfo := [ {| qi_email := "r1"; fullEmail := "r1@x.com"; pct := 50;
                       qi_resetTime := Some 9000 |};
                    {| qi_email := "r2"; fullEmail := "r2@x.com"; pct := 0;
                       qi_resetTime := Some 4000 |} ];
     pinned := false; hidden := false |}.

Definition filters_narrow : Filters :=
  {| f_account := "r1@x.com"; f_family := "claude"; f_search := "OPUS" |}.

Definition row_opus_r1 : QuotaRow :=
  {| modelId := "claude-opus"; displayName := "claude-opus"; family := "claude";
     minQuota := 50; avgQuota := 50; minResetTime := Some 9000; resetIn := "soon";
     quotaInfo := [ {| qi_email := "r1"; fullEmail := "r1@x.com"; pct := 50;
                       qi_resetTime := Some 9000 |} ];
     pinned := false; hidden := false |}.

End Cover.

(** ** The store's state and the calls that change it: [fetchData] of
    [data-store.js] and [updateModelConfig] of the models component *)

(** [Alpine.store('global').t], the translation of a message key; the
    global store is not among the sources. *)
Class Translator := { translate : string -> string }.

Module StoreOps.
Import DataStore.

(** The parsed body of [/account-limits]; [None] is a missing (or falsy)
    property. *)
Record Payload := {
  data_accounts : option (list Account);
  data_models : option (list string);
  data_modelConfig : option (gmap string ModelConfig)
}.

(** What [await window.utils.request('/account-limits', ...)] and
    [await response.json()] can do. *)
Inductive LimitsAnswer :=
| LimitsRejects
| LimitsResponse (newPassword : option string) (ok : bool) (body : option Payload).

(** What the request of [updateModelConfig] can do; a rejection carries
    the message of its error. *)
Inductive ConfigAnswer :=
| ConfigRejects (message : string)
| ConfigResponse (newPassword : option string) (ok : bool).

(** The data store with the parts of the global store it writes: the
    shared password, the toasts shown (message, type) and the console. *)
Record App := {
  store : Store;
  quotaRows : list QuotaRow;
  loading : bool;
  connectionStatus : string;
  lastUpdated : string;
  app_password : string;
  toasts : list (string * string);
  app_console : list string
}.

Definition init_app : App :=
  {| store := {| accounts := []; models := []; modelConfig := ∅;
                 filters := {| f_account := "all"; f_family := "all";
                               f_search := EmptyString |} |};
     quotaRows := [];
     loading := false;
     connectionStatus := "connecting";
     lastUpdated := "-";
     app_password := EmptyString;
     toasts := [];
     app_console := [] |}.

(** [if (newPassword) Alpine.store('global').webuiPassword = newPassword] *)
Definition take_password (newPassword : option string) (a : App) : App :=
  match newPassword with
  | Some p =>
      if JS.truthy_string p
      then {| store := store a; quotaRows := quotaRows a; loading := loading a;
              connectionStatus := connectionStatus a; lastUpdated := lastUpdated a;
              app_password := p; toasts := toasts a; app_console := app_console a |}
      else a
  | None => a
  end.

(** [store.showToast(message, type)] *)
Definition showToast (message type : string) (a : App) : App :=
  {| store := store a; quotaRows := quotaRows a; loading := loading a;
     connectionStatus := connectionStatus a; lastUpdated := lastUpdated a;
     app_password := app_password a; toasts := toasts a ++ [(message, type)];
     app_console := app_console a |}.

(** The [catch] block of [fetchData]. *)
Definition fetch_failed `{Translator} (a : App) : App :=
  showToast (translate "connectionLost") "error"
    {| store := store a; quotaRows := quotaRows a; loading := loading a;
       connectionStatus := "disconnected"; lastUpdated := lastUpdated a;
       app_password := app_password a; toasts := toasts a;
       app_console := app_console a ++ ["Fetch error:"] |}.

(** The assignments of the [try] block after [response.json()]. *)
Definition take_data `{Utils} (settings : option Settings) (timeString : string)
  (data : Payload) (a : App) : App :=
  let st1 :=
    {| accounts := default [] (data_accounts data);
       models := match data_models data with
                 | Some (m :: ms) => m :: ms
                 | _ => models (store a)
                 end;
       modelConfig := default ∅ (data_modelConfig data);
       filters := filters (store a) |} in
  {| store := st1; quotaRows := computeQuotaRows st1 settings; loading := loading a;
     connectionStatus := "connected"; lastUpdated := timeString;
     app_password := app_password a; toasts := toasts a;
     app_console := app_console a |}.

(** The [finally] block. *)
Definition stop_loading (a : App) : App :=
  {| store := store a; quotaRows := quotaRows a; loading := false;
     connectionStatus := connectionStatus a; lastUpdated := lastUpdated a;
     app_password := app_password a; toasts := toasts a;
     app_console := app_console a |}.

(** [fetchData()], from its call to its end; [timeString] is
    [new Date().toLocaleTimeString()]. *)
Definition fetchData `{Utils} `{Translator} (settings : option Settings)
  (timeString : string) (o : LimitsAnswer) (a : App) : App :=
  stop_loading
    match o with
    | LimitsRejects => fetch_failed a
    | LimitsResponse newPassword ok body =>
        let a1 := take_password newPassword a in
        if negb ok then fetch_failed a1
        else match body with
             | None => fetch_failed a1
             | Some data => take_data settings timeString data a1
             end
    end.

(** [{ ...old, ...configUpdates }]: a key of the update wins, a key it
    lacks ([None]) keeps the old value. *)
Definition merge_config (old : option ModelConfig) (configUpdates : ModelConfig)
  : ModelConfig :=
  {| cfg_hidden := match cfg_hidden configUpdates with
                   | Some h => Some h
                   | None => old ≫= cfg_hidden
                   end;
     cfg_pinned := match cfg_pinned configUpdates with
                   | Some p => Some p
                   | None => old ≫= cfg_pinned
                   end |}.

(** The optimistic update and the recomputation of the rows. *)
Definition apply_config `{Utils} (settings : option Settings) (mid : string)
  (configUpdates : ModelConfig) (a : App) : App :=
  let st := store a in
  let st1 :=
    {| accounts := accounts st; models := models st;
       modelConfig := <[mid := merge_config (modelConfig st !! mid) configUpdates]>
                        (modelConfig st);
       filters := filters st |} in
  {| store := st1; quotaRows := computeQuotaRows st1 settings; loading := loading a;
     connectionStatus := connectionStatus a; lastUpdated := lastUpdated a;
     app_password := app_password a; toasts := toasts a;
     app_console := app_console a |}.

(** [updateModelConfig(modelId, configUpdates)] *)
Definition updateModelConfig `{Utils} (settings : option Settings) (mid : string)
  (configUpdates : ModelConfig) (o : ConfigAnswer) (a : App) : App :=
  match o with
  | ConfigRejects message => showToast ("Failed to update: " ++ message)%string "error" a
  | ConfigResponse newPassword ok =>
      let a1 := take_password newPassword a in
      if negb ok
      then showToast ("Failed to update: " ++ "Failed to update model config")%string
                     "error" a1
      else apply_config settings mid configUpdates a1
  end.

End StoreOps.

Module CoverOps.
Import DataStore StoreOps.

Definition translator : Translator := {| translate := fun key => key |}.

(** The answers of [/account-limits] that end in the [catch] block. *)
Definition limits_failed (o : LimitsAnswer) : bool :=
  match o with
  | LimitsRejects => true
  | LimitsResponse _ ok body =>
      negb ok || match body with
                 | None => true
                 | Some _ => false
                 end
  end.

(** The answers of the configuration request that end in the [catch]
    block. *)
Definition config_failed (o : ConfigAnswer) : bool :=
  match o with
  | ConfigRejects _ => true
  | ConfigResponse _ ok => negb ok
  end.

(** A store filled by a first fetch. *)
Definition payload_two : Payload :=
  {| data_accounts := Some (accounts Examples.store_two);
     data_models := Some (models Examples.store_two);
     data_modelConfig := Some (modelConfig Examples.store_two) |}.

Definition app_two : App :=
  fetchData (H := Examples.utils) (H0 := translator) None "10:00"
    (LimitsResponse None true (Some payload_two)) init_app.

Definition hide : ModelConfig := {| cfg_hidden := Some true; cfg_pinned := None |}.

Definition pin : ModelConfig := {| cfg_hidden := None; cfg_pinned := Some true |}.

End CoverOps.

Module CoverDash.
Import DataStore Dashboard Spec.

(** The state a reload starts from: the initial component state with the
    stored item of [s]. *)
Definition reloaded (s : State) : State := set_localStorage (localStorage s) init_state.

(** The stored blob of a state. *)
Definition prefs_of (s : State) : Prefs :=
  {| p_displayMode := displayMode s;
     p_selectedFamilies := selectedFamilies s;
     p_selectedModels := selectedModels s |}.

(** A family object of some bucket is stored under [f]. *)
Definition family_seen (history : History) (f : string) : Prop :=
  exists ts hourData counts,
    In (ts, hourData) history /\ In (f, VObj counts) hourData /\
    f <> "_total" /\ f <> "total".

(** Some bucket counts the model [m] under the family [f]. *)
Definition discovered (history : History) (f m : string) : Prop :=
  exists ts hourData counts,
    In (ts, hourData) history /\ In (f, VObj counts) hourData /\
    f <> "_total" /\ f <> "total" /\
    In m (map fst counts) /\ m <> "_subtotal".

(** What the tree holds after the entries [es] have been read. *)
Definition tree_reflects (tree : gmap string (list string))
  (es : list (string * Value)) : Prop :=
  (forall g, is_Some (tree !! g) <->
             exists counts, In (g, VObj counts) es /\ g <> "_total" /\ g <> "total") /\
  (forall g m, In m (default [] (tree !! g)) <->
               exists counts, In (g, VObj counts) es /\ g <> "_total" /\ g <> "total" /\
                              In m (map fst counts) /\ m <> "_subtotal") /\
  (forall g l, tree !! g = Some l -> NoDup l).

(** The sum of the amounts of the buckets whose timestamp satisfies [P]. *)
Definition amounts_where (P : Z -> bool) (history : History) : Z :=
  sum_list (map (fun e => amount_added (snd e))
                (List.filter (fun e => P (fst e)) history)).

(** The amount of the last bucket whose timestamp satisfies [P], 0 when
    there is none. *)
Definition last_amount (P : Z -> bool) (history : History) : Z :=
  List.last (map (fun e => amount_added (snd e))
            (List.filter (fun e => P (fst e)) history)) 0.

(** Accounts for the core-model rule of [updateStats]. *)
Definition account_core_low : Account :=
  {| email := "low@x.com"; enabled := Some true; status := "ok";
     limits := {[ "claude-opus" :=
                    Some {| remainingFraction := Some (JS.to_double (1 # 100));
                            resetTime := None |};
                  "tiny-model" :=
                    Some {| remainingFraction := Some (JS.to_double (9 # 10));
                            resetTime := None |} ]} |}.

Definition account_no_core : Account :=
  {| email := "nc@x.com"; enabled := Some true; status := "ok";
     limits := {[ "tiny-model" :=
                    Some {| remainingFraction := Some (JS.to_double (9 # 10));
                            resetTime := None |} ]} |}.

(** A core model at the double written 0.05, and one just above it, its
    id in capitals. *)
Definition account_at_threshold : Account :=
  {| email := "at@x.com"; enabled := Some true; status := "ok";
     limits := {[ "claude-opus" :=
                    Some {| remainingFraction := Some (JS.to_double (5 # 100));
                            resetTime := None |} ]} |}.

Definition account_above : Account :=
  {| email := "above@x.com"; enabled := Some true; status := "ok";
     limits := {[ "GEMINI-PRO" :=
                    Some {| remainingFraction := Some (JS.to_double (6 # 100));
                            resetTime := None |} ]} |}.

(** The core words of [updateStats]. *)
Definition core_word (w : string) : Prop :=
  w = "sonnet" \/ w = "opus" \/ w = "pro" \/ w = "flash".

(** The id names a core model: it holds one of the core words, in any
    letter case. *)
Definition names_core (id : string) : Prop :=
  exists pre w post,
    id = (pre ++ w ++ post)%string /\ core_word (JS.toLowerCase w).

(** The limit has more than 5% left: its remaining fraction is a number
    above the double written 0.05, which is 3602879701896397 / 2^56. *)
Definition has_left (l : option Limit) : Prop :=
  exists l' rf,
    l = Some l' /\ remainingFraction l' = Some rf /\
    (3602879701896397 # 72057594037927936 < rf)%Q.

(** The rule for an active account: its status is ["ok"], and some core
    model of it has more than 5% left, or it has no core model at all and
    some model of it has more than 5% left. *)
Definition active_by_rule (acc : Account) : Prop :=
  status acc = "ok" /\
  ((exists id l, limits acc !! id = Some l /\ names_core id /\ has_left l) \/
   ((forall id l, limits acc !! id = Some l -> ~ names_core id) /\
    exists id l, limits acc !! id = Some l /\ has_left l)).

End CoverDash.

Module CoverTop.
Import DataStore Dashboard Spec.

(** A feed with [null] under a family key, inside the window. *)
Definition history_null : History :=
  [(13 * Examples.hour, Examples.bucket_plain);
   (14 * Examples.hour, [("gemini", VNull); ("_total", VNum 0)])].

Definition state_null : State := set_history history_null Examples.after_first.

End CoverTop.

(** ** What the charts draw: the series of [updateTrendChart] and the
    health figure of [updateCharts] *)

Module Charts.
Import DataStore Dashboard.

(** [familyData?._subtotal || 0] with [familyData = hourData[family]] *)
Definition family_count (hourData : Bucket) (family : string) : Z :=
  match prop hourData family with
  | VObj counts => default 0 (field counts "_subtotal")
  | _ => 0
  end.

(** [familyData[model] || 0] with [familyData = hourData[family] || {}] *)
Definition model_count (hourData : Bucket) (family model : string) : Z :=
  match prop hourData family with
  | VObj counts => default 0 (field counts model)
  | _ => 0
  end.

(** [data[key] = []] *)
Definition init_series (data : gmap string (list Z)) (key : string)
  : gmap string (list Z) :=
  <[key := []]> data.

(** [data[key].push(count)]: the array stored under [key] grows, and
    every later read of the key sees the longer array. *)
Definition push_point (data : gmap string (list Z)) (key : string) (count : Z)
  : gmap string (list Z) :=
  alter (fun l => l ++ [count]) key data.

(** One bucket of the family loop. *)
Definition family_bucket (selected : list string) (data : gmap string (list Z))
  (e : Z * Bucket) : gmap string (list Z) :=
  fold_left (fun d family => push_point d family (family_count (snd e) family))
            selected data.

(** [dataByFamily] after the loop over the history. *)
Definition dataByFamily (s : State) : gmap string (list Z) :=
  fold_left (family_bucket (selectedFamilies s)) (historyData s)
            (fold_left init_series (selectedFamilies s) ∅).

(** [`${family}:${model}`] *)
Definition series_key (family model : string) : string :=
  (family ++ ":" ++ model)%string.

(** [this.selectedModels[family] || []] *)
Definition selected_of (s : State) (family : string) : list string :=
  default [] (selectedModels s !! family).

(** One bucket of the model loop. *)
Definition model_bucket (s : State) (data : gmap string (list Z)) (e : Z * Bucket)
  : gmap string (list Z) :=
  fold_left
    (fun d family =>
       fold_left (fun d model =>
                    push_point d (series_key family model)
                               (model_count (snd e) family model))
                 (selected_of s family) d)
    (families s) data.

(** [dataByModel] after the loop over the history. *)
Definition dataByModel (s : State) : gmap string (list Z) :=
  fold_left (model_bucket s) (historyData s)
    (fold_left
       (fun d family =>
          fold_left (fun d model => init_series d (series_key family model))
                    (selected_of s family) d)
       (families s) ∅).

(** The instants of [labels]: one per bucket, each shown as its local
    time of day. *)
Definition trend_labels (s : State) : list Z := map fst (historyData s).

(** The [data] arrays of [datasets], in the order of the datasets. *)
Definition trend_data (s : State) : list (list Z) :=
  if String.eqb (displayMode s) "family" then
    fold_left (fun datasets family =>
                 datasets ++ [default [] (dataByFamily s !! family)])
              (selectedFamilies s) []
  else
    fold_left
      (fun datasets family =>
         fold_left (fun datasets model =>
                      datasets ++
                      [default [] (dataByModel s !! series_key family model)])
                   (selected_of s family) datasets)
      (families s) [].

(** The pairs drawn in model mode, in the order of the datasets. *)
Definition chart_pairs (s : State) : list (string * string) :=
  flat_map (fun family => map (fun model => (family, model)) (selected_of s family))
           (families s).

(** An entry of [familyStats]. *)
Record FamilyStat := {
  fs_used : Z;
  fs_total : Z
}.

(** [if (!familyStats[row.family]) familyStats[row.family] = { used: 0, total: 0 }] *)
Definition ensure_family (familyStats : Obj FamilyStat) (fam : string)
  : Obj FamilyStat :=
  match field familyStats fam with
  | Some _ => familyStats
  | None => familyStats ++ [(fam, {| fs_used := 0; fs_total := 0 |})]
  end.

(** [familyStats[fam].used += pct; familyStats[fam].total += 100] *)
Fixpoint add_info (fam : string) (pct : Z) (familyStats : Obj FamilyStat)
  : Obj FamilyStat :=
  match familyStats with
  | [] => []
  | (k, st) :: rest =>
      if String.eqb k fam
      then (k, {| fs_used := fs_used st + pct; fs_total := fs_total st + 100 |}) :: rest
      else (k, st) :: add_info fam pct rest
  end.

Definition stats_row (familyStats : Obj FamilyStat) (row : UnfilteredRow)
  : Obj FamilyStat :=
  fold_left (fun fs pct => add_info (u_family row) pct fs) (u_quotaInfo row)
            (ensure_family familyStats (u_family row)).

Definition familyStats_of (rows : list UnfilteredRow) : Obj FamilyStat :=
  fold_left stats_row rows [].

(** [Object.values(familyStats).reduce((sum, f) => sum + f.total, 0)] *)
Definition globalTotal (familyStats : Obj FamilyStat) : Z :=
  fold_left (fun sum f => sum + fs_total (snd f)) familyStats 0.

Definition globalUsed (familyStats : Obj FamilyStat) : Z :=
  fold_left (fun sum f => sum + fs_used (snd f)) familyStats 0.

(** [globalTotal > 0 ? Math.round((globalUsed / globalTotal) * 100) : 0] *)
Definition health_of (familyStats : Obj FamilyStat) : Z :=
  if globalTotal familyStats >? 0
  then JS.Math_round (JS.mul (JS.div (inject_Z (globalUsed familyStats))
                                     (inject_Z (globalTotal familyStats))) 100)
  else 0.

(** [updateCharts()], as far as it changes the component: without the
    canvas or the chart library it returns at once; otherwise it stores
    the health figure before it draws. *)
Definition updateCharts (canDraw : bool) (st : Store) (settings : option Settings)
  (s : State) : State :=
  if negb canDraw then s
  else
    let rows := getUnfilteredQuotaData st settings in
    let health := health_of (familyStats_of rows) in
    set_stats (fun x => {| total := total x; active := active x; limited := limited x;
                           overallHealth := health; hasTrendData := hasTrendData x |}) s.

End Charts.

Module CoverCharts.
Import DataStore Dashboard Charts.

(** The state after the first refresh, switched to family mode. *)
Definition family_mode : State := setDisplayMode "family" Examples.after_first.

(** A stored selection that names a family twice. *)
Definition twice : State :=
  set_selection ["claude"; "claude"] ∅ family_mode.

(** The count a bucket of the feed gives a model under its family: the
    number stored under the model's name in the object stored under the
    family's name, and 0 where the bucket stores no object under the family
    or the object nothing under the model. *)
Definition count_in (hourData : Bucket) (family model : string) : Z :=
  match field hourData family with
  | Some (VObj counts) =>
      match field counts model with
      | Some n => n
      | None => 0
      end
  | _ => 0
  end.

End CoverCharts.

(** * Properties *)

Import DataStore Dashboard Spec.

(** ** Facts about the runtime functions *)

(** Rounding to the nearest double keeps a number within integer bounds:
    an integer of magnitude up to 2^52 is a double, and rounding is
    monotone. *)
Lemma pow2_pos (e : Z) : (0 < JS.pow2 e)%Q.
Proof.
  unfold JS.pow2. destruct (Z.ltb_spec 0 e).
  - change 0%Q with (inject_Z 0). rewrite <- Zlt_Qlt. apply Z.pow_pos_nonneg; lia.
  - apply Qinv_lt_0_compat. change 0%Q with (inject_Z 0). rewrite <- Zlt_Qlt.
    apply Z.pow_pos_nonneg; lia.
Qed.

Lemma pow2_nonpos (e : Z) :
  e <= 0 -> JS.pow2 e = (/ inject_Z (2 ^ (- e)))%Q.
Proof.
  intros He. unfold JS.pow2. destruct (Z.ltb_spec 0 e); [lia | reflexivity].
Qed.

Lemma round_even_le (y : Q) (N : Z) :
  (y <= inject_Z N)%Q -> JS.round_even y <= N.
Proof.
  intros Hy. unfold JS.round_even.
  assert (Hf : Qfloor y <= N).
  { rewrite <- (Qfloor_Z N). now apply Qfloor_resp_le. }
  assert (Hstep : (1 # 2 <= y - inject_Z (Qfloor y))%Q -> Qfloor y + 1 <= N).
  { intros Hh. destruct (Z.eq_dec (Qfloor y) N) as [He|Hne]; [|lia].
    rewrite He in Hh. exfalso. lra. }
  destruct (y - inject_Z (Qfloor y) ?= 1 # 2)%Q eqn:Hc.
  - apply Qeq_alt in Hc. destruct (Z.even (Qfloor y)); [exact Hf|].
    apply Hstep. rewrite Hc. apply Qle_refl.
  - exact Hf.
  - apply Qgt_alt in Hc. apply Hstep. now apply Qlt_le_weak.
Qed.

Lemma round_even_ge (y : Q) (N : Z) :
  (inject_Z N <= y)%Q -> N <= JS.round_even y.
Proof.
  intros Hy. unfold JS.round_even.
  assert (Hf : N <= Qfloor y).
  { rewrite <- (Qfloor_Z N). now apply Qfloor_resp_le. }
  destruct (_ ?= _)%Q; [destruct (Z.even _)| |]; lia.
Qed.

Lemma ilog2_le (q : Q) (b : Z) :
  0 <= b -> (0 < q)%Q -> (q <= inject_Z (2 ^ b))%Q -> JS.ilog2 q <= b.
Proof.
  intros Hb Hpos Hle. unfold JS.ilog2.
  assert (Hk : Z.log2 (Qnum q) - Z.log2 (Z.pos (Qden q)) <= b).
  { destruct q as [n d]. unfold Qlt, Qle, inject_Z in Hpos, Hle.
    cbn [Qnum Qden] in *. rewrite Z.mul_1_r in Hpos, Hle.
    assert (Hn : Z.log2 n <= Z.log2 (Z.pos d * 2 ^ b)).
    { apply Z.log2_le_mono. lia. }
    rewrite Z.log2_mul_pow2 in Hn by lia. lia. }
  destruct (Qle_bool _ _); lia.
Qed.

Lemma nearest_bounds (q : Q) (lo hi : Z) :
  (0 < q)%Q -> (inject_Z lo <= q)%Q -> (q <= inject_Z hi)%Q -> hi <= 2 ^ 52 ->
  (inject_Z lo <= JS.nearest q)%Q /\ (JS.nearest q <= inject_Z hi)%Q.
Proof.
  intros Hpos Hlo Hhi Hc. unfold JS.nearest.
  set (u := Z.max (JS.ilog2 q - 52) (-1074)).
  assert (Hu : u <= 0).
  { assert (JS.ilog2 q <= 52); [|unfold u; lia].
    apply ilog2_le; [lia | exact Hpos |].
    eapply Qle_trans; [exact Hhi|]. now rewrite <- Zle_Qle. }
  set (P := 2 ^ (- u)).
  assert (HP : 0 < P) by (apply Z.pow_pos_nonneg; lia).
  assert (HPq : (0 < inject_Z P)%Q).
  { change 0%Q with (inject_Z 0). now rewrite <- Zlt_Qlt. }
  rewrite (pow2_nonpos u Hu). fold P.
  assert (Hscale : forall c, (q / / inject_Z P <= inject_Z (c * P))%Q <->
                             (q * inject_Z P <= inject_Z c * inject_Z P)%Q).
  { intros c. rewrite inject_Z_mult. unfold Qdiv. now rewrite Qinv_involutive. }
  split.
  - assert (Hm : lo * P <= JS.round_even (q / / inject_Z P)).
    { apply round_even_ge. rewrite inject_Z_mult.
      unfold Qdiv. rewrite Qinv_involutive.
      apply Qmult_le_compat_r; [exact Hlo | now apply Qlt_le_weak]. }
    rewrite Zle_Qle, inject_Z_mult in Hm.
    apply Qle_shift_div_l in Hm; [|exact HPq].
    eapply Qle_trans; [exact Hm|]. apply Qle_refl.
  - assert (Hm : JS.round_even (q / / inject_Z P) <= hi * P).
    { apply round_even_le. rewrite inject_Z_mult.
      unfold Qdiv. rewrite Qinv_involutive.
      apply Qmult_le_compat_r; [exact Hhi | now apply Qlt_le_weak]. }
    rewrite Zle_Qle, inject_Z_mult in Hm.
    apply Qle_shift_div_r in Hm; [|exact HPq].
    eapply Qle_trans; [|exact Hm]. apply Qle_refl.
Qed.

Lemma to_double_bounds (q : Q) (lo hi : Z) :
  0 <= lo -> hi <= 2 ^ 52 ->
  (inject_Z lo <= q)%Q -> (q <= inject_Z hi)%Q ->
  (inject_Z lo <= JS.to_double q)%Q /\ (JS.to_double q <= inject_Z hi)%Q.
Proof.
  intros H0 Hc Hlo Hhi. unfold JS.to_double. rewrite Qred_correct.
  assert (Hq : (0 <= q)%Q).
  { eapply Qle_trans; [|exact Hlo]. change 0%Q with (inject_Z 0).
    now rewrite <- Zle_Qle. }
  destruct q as [[|p|p] d]; cbn [Qnum].
  - split.
    + eapply Qle_trans; [exact Hlo|]. unfold Qle. simpl. lia.
    + eapply Qle_trans; [|exact Hhi]. unfold Qle. simpl. lia.
  - apply nearest_bounds; [reflexivity | exact Hlo | exact Hhi | exact Hc].
  - exfalso. unfold Qle in Hq. simpl in Hq. lia.
Qed.

Lemma Math_round_bounds (q : Q) (lo hi : Z) :
  (inject_Z lo <= q)%Q -> (q <= inject_Z hi)%Q ->
  lo <= JS.Math_round q <= hi.
Proof.
  intros Hlo Hhi. unfold JS.Math_round. split.
  - rewrite <- (Qfloor_Z lo). apply Qfloor_resp_le.
    apply Qle_trans with (q + 0)%Q; [now rewrite Qplus_0_r|].
    apply Qplus_le_r. discriminate.
  - apply Z.lt_succ_r. rewrite Zlt_Qlt.
    eapply Qle_lt_trans; [apply Qfloor_le|].
    unfold Z.succ. rewrite inject_Z_plus.
    apply Qle_lt_trans with (inject_Z hi + (1 # 2))%Q;
      [now apply Qplus_le_l|].
    apply Qplus_lt_r. reflexivity.
Qed.

(** [Math.round(a * b)] and [Math.round(a / b)] stay within integer
    bounds of the exact result. *)
Lemma round_mul_bounds (a b : Q) (lo hi : Z) :
  0 <= lo -> hi <= 2 ^ 52 ->
  (inject_Z lo <= a * b)%Q -> (a * b <= inject_Z hi)%Q ->
  lo <= JS.Math_round (JS.mul a b) <= hi.
Proof.
  intros H0 Hc Hlo Hhi. apply Math_round_bounds;
    apply (to_double_bounds (a * b) lo hi H0 Hc Hlo Hhi).
Qed.

Lemma round_div_bounds (a b : Q) (lo hi : Z) :
  0 <= lo -> hi <= 2 ^ 52 ->
  (inject_Z lo <= a / b)%Q -> (a / b <= inject_Z hi)%Q ->
  lo <= JS.Math_round (JS.div a b) <= hi.
Proof.
  intros H0 Hc Hlo Hhi. apply Math_round_bounds;
    apply (to_double_bounds (a / b) lo hi H0 Hc Hlo Hhi).
Qed.

(** The numbers of the scenarios: the text 0.285 denotes a double just
    below 285/1000, whose percentage is 28; the double written 0.015 has
    the percentage 2, though 100 times its exact value rounds to 1; and
    [(29 / 200) * 100] rounds to 14. *)
Example doubles_round_as_the_engine_does :
  JS.Math_round (JS.mul (JS.to_double (285 # 1000)) 100) = 28 /\
  JS.Math_round (JS.mul (JS.to_double (15 # 1000)) 100) = 2 /\
  JS.Math_round (JS.to_double (15 # 1000) * 100) = 1 /\
  JS.Math_round (JS.mul (JS.div 29 200) 100) = 14 /\
  JS.to_double (5 # 100) = 3602879701896397 # 72057594037927936.
Proof. repeat split; vm_compute; reflexivity. Qed.

Section SortFacts.
Context {A : Type} (cmp : A -> A -> Z).

Lemma insert_by_Permutation (x : A) (l : list A) :
  Permutation (JS.insert_by cmp x l) (x :: l).
Proof.
  induction l as [|y l IH]; simpl.
  - apply Permutation_refl.
  - destruct (cmp x y <=? 0).
    + apply Permutation_refl.
    + eapply perm_trans; [apply perm_skip, IH | apply perm_swap].
Qed.

Lemma Array_sort_Permutation (l : list A) :
  Permutation (JS.Array_sort cmp l) l.
Proof.
  induction l as [|x l IH]; simpl.
  - apply perm_nil.
  - eapply perm_trans; [apply insert_by_Permutation | apply perm_skip, IH].
Qed.

Lemma Array_sort_In (l : list A) (x : A) :
  In x (JS.Array_sort cmp l) <-> In x l.
Proof.
  split; apply Permutation_in.
  - apply Array_sort_Permutation.
  - apply Permutation_sym, Array_sort_Permutation.
Qed.

Hypothesis cmp_total : forall a b, 0 < cmp a b -> cmp b a <= 0.
Hypothesis cmp_trans : forall a b c, cmp a b <= 0 -> cmp b c <= 0 -> cmp a c <= 0.

Lemma insert_by_sorted (x : A) (l : list A) :
  StronglySorted (precedes cmp) l ->
  StronglySorted (precedes cmp) (JS.insert_by cmp x l).
Proof.
  induction 1 as [|y l Hs IH Hall]; simpl.
  - constructor; [constructor | constructor].
  - destruct (Z.leb_spec (cmp x y) 0) as [Hle|Hgt].
    + constructor.
      * constructor; assumption.
      * constructor; [exact Hle|].
        eapply Forall_impl; [exact Hall|].
        intros z Hz. eapply cmp_trans; [exact Hle | exact Hz].
    + constructor; [exact IH|].
      apply (Permutation_Forall (x := x :: l)).
      * apply Permutation_sym, insert_by_Permutation.
      * constructor; [apply cmp_total, Hgt | exact Hall].
Qed.

Lemma Array_sort_sorted (l : list A) :
  StronglySorted (precedes cmp) (JS.Array_sort cmp l).
Proof.
  induction l as [|x l IH]; simpl.
  - constructor.
  - apply insert_by_sorted, IH.
Qed.

End SortFacts.

(** Stability: a sort by descending key keeps the elements of equal key
    in their original order. *)
Section SortStable.
Context {A : Type} (key : A -> Z).

Lemma insert_by_filter (k : Z) (x : A) (l : list A) :
  List.filter (fun a => key a =? k) (JS.insert_by (fun a b => key b - key a) x l)
  = List.filter (fun a => key a =? k) (x :: l).
Proof.
  induction l as [|y l IH]; [reflexivity|].
  cbn [JS.insert_by]. destruct (Z.leb_spec (key y - key x) 0) as [Hle|Hgt];
    [reflexivity|].
  cbn [List.filter] in *. rewrite IH.
  destruct (Z.eqb_spec (key x) k) as [Hx|Hx];
    destruct (Z.eqb_spec (key y) k) as [Hy|Hy]; try reflexivity.
  lia.
Qed.

Lemma Array_sort_stable (k : Z) (l : list A) :
  List.filter (fun a => key a =? k) (JS.Array_sort (fun a b => key b - key a) l)
  = List.filter (fun a => key a =? k) l.
Proof.
  induction l as [|x l IH]; [reflexivity|].
  cbn [JS.Array_sort fold_right]. rewrite insert_by_filter.
  cbn [List.filter]. fold (JS.Array_sort (fun a b => key b - key a) l).
  now rewrite IH.
Qed.

End SortStable.

Lemma StronglySorted_lookup {A} (R : A -> A -> Prop) (l : list A) :
  StronglySorted R l ->
  forall (i j : nat) (a b : A),
    (i < j)%nat -> l !! i = Some a -> l !! j = Some b -> R a b.
Proof.
  induction 1 as [|x l Hs IH Hall]; intros i j a b Hij Hi Hj.
  - destruct i; discriminate.
  - destruct j as [|j]; [lia|].
    destruct i as [|i]; simpl in Hi, Hj.
    + injection Hi as <-.
      rewrite Forall_forall in Hall. apply Hall.
      eapply list_elem_of_lookup_2. exact Hj.
    + apply (IH i j); [lia | assumption | assumption].
Qed.

(** [forEach] with a conditional [push] collects the defined results. *)
Lemma fold_left_push {A B} (f : A -> option B) (l : list A) (acc : list B) :
  fold_left (fun rows x => match f x with
                           | Some r => rows ++ [r]
                           | None => rows
                           end) l acc
  = acc ++ omap f l.
Proof.
  revert acc. induction l as [|x l IH]; intros acc; simpl.
  - now rewrite app_nil_r.
  - rewrite IH. destruct (f x); simpl; [|reflexivity].
    now rewrite <- app_assoc.
Qed.

Lemma In_omap {A B} (f : A -> option B) (l : list A) (y : B) :
  In y (omap f l) <-> exists x, In x l /\ f x = Some y.
Proof.
  rewrite <- list_elem_of_In, list_elem_of_omap.
  split; intros (x & Hx & Hf); exists x; split; try assumption;
    now apply list_elem_of_In.
Qed.

(** ** Facts about the data-collection loop *)

Lemma fold_min_le (ps : list Z) :
  forall m, fold_left Z.min ps m <= m /\
            Forall (fun p => fold_left Z.min ps m <= p) ps.
Proof.
  induction ps as [|p ps IH]; intros m; simpl.
  - split; [lia | constructor].
  - destruct (IH (Z.min m p)) as [Hle Hall]. split; [lia|].
    constructor; [lia | exact Hall].
Qed.

Lemma fold_min_In (ps : list Z) :
  forall m, fold_left Z.min ps m = m \/ In (fold_left Z.min ps m) ps.
Proof.
  induction ps as [|p ps IH]; intros m; simpl.
  - now left.
  - destruct (IH (Z.min m p)) as [Heq|Hin].
    + rewrite Heq. destruct (Z.min_spec m p) as [[_ ->]|[_ ->]]; auto.
    + auto.
Qed.

Lemma fold_min_attained (ps : list Z) (m : Z) :
  ps <> [] -> Forall (fun p => p <= m) ps -> In (fold_left Z.min ps m) ps.
Proof.
  intros Hne Hall.
  destruct (fold_min_In ps m) as [Heq|Hin]; [|exact Hin].
  destruct ps as [|p ps]; [congruence|].
  destruct (fold_min_le (p :: ps) m) as [_ Hlow].
  rewrite Heq in *. inversion Hall; subst. inversion Hlow; subst.
  left. lia.
Qed.

Lemma sum_list_bounds (lo hi : Z) (ps : list Z) :
  Forall (fun p => lo <= p <= hi) ps ->
  lo * Z.of_nat (length ps) <= sum_list ps <= hi * Z.of_nat (length ps).
Proof.
  induction 1 as [|p ps Hp Hall IH]; simpl length; simpl sum_list; lia.
Qed.

Lemma percentage_pct_of (mid : string) (acc : Account) (l : Limit) :
  limit_of acc mid = Some l -> percentage mid acc = pct_of l.
Proof. intros Hl. unfold percentage, pct_of. now rewrite Hl. Qed.

(** What the loop over the accounts leaves in its local variables. *)
Lemma collect_fold (fl : Filters) (mid : string) (accs : list Account) :
  forall c,
    let c' := fold_left (collect_step fl mid) accs c in
    let cs := List.filter (contributes fl mid) accs in
    let ps := map (percentage mid) cs in
    map fullEmail (c_quotaInfo c') = map fullEmail (c_quotaInfo c) ++ map email cs /\
    map pct (c_quotaInfo c') = map pct (c_quotaInfo c) ++ ps /\
    c_minQuota c' = fold_left Z.min ps (c_minQuota c) /\
    c_totalQuotaSum c' = c_totalQuotaSum c + sum_list ps /\
    c_validAccountCount c' = c_validAccountCount c + Z.of_nat (length ps).
Proof.
  induction accs as [|acc accs IH]; intros c; simpl.
  - rewrite !app_nil_r. repeat split; lia.
  - specialize (IH (collect_step fl mid c acc)). simpl in IH.
    destruct IH as (He & Hp & Hm & Hs & Hn).
    unfold contributes, collect_step in *.
    destruct (passes_account_filter fl acc); simpl in *;
      [|repeat split; assumption].
    destruct (limit_of acc mid) as [l|] eqn:Hl; simpl in *;
      [|repeat split; assumption].
    rewrite (percentage_pct_of _ _ _ Hl).
    rewrite He, Hp, Hm, Hs, Hn. rewrite !map_app. simpl.
    rewrite <- !app_assoc. simpl.
    repeat split; try reflexivity; lia.
Qed.

Lemma collect_spec (st : Store) (mid : string) :
  let c := collect st mid in
  let cs := List.filter (contributes (filters st) mid) (accounts st) in
  let ps := map (percentage mid) cs in
  map fullEmail (c_quotaInfo c) = map email cs /\
  map pct (c_quotaInfo c) = ps /\
  c_minQuota c = fold_left Z.min ps 100 /\
  c_totalQuotaSum c = sum_list ps /\
  c_validAccountCount c = Z.of_nat (length ps).
Proof.
  unfold collect.
  destruct (collect_fold (filters st) mid (accounts st) collect_init)
    as (He & Hp & Hm & Hs & Hn).
  simpl in *. repeat split; assumption.
Qed.

Lemma pct_of_range (l : Limit) :
  limit_in_range l = true -> 0 <= pct_of l <= 100.
Proof.
  unfold limit_in_range, pct_of.
  destruct (remainingFraction l) as [rf|]; [|lia].
  rewrite andb_true_iff, !Qle_bool_iff. intros [H0 H1].
  apply round_mul_bounds; [lia | discriminate | |]; unfold inject_Z; lra.
Qed.

Lemma limit_of_in_range (acc : Account) (mid : string) (l : Limit) :
  account_in_range acc = true -> limit_of acc mid = Some l ->
  limit_in_range l = true.
Proof.
  unfold account_in_range, limit_of. intros Hall Hl.
  destruct (limits acc !! mid) as [[l'|]|] eqn:Hlook; simpl in Hl; try discriminate.
  injection Hl as ->.
  rewrite forallb_forall in Hall.
  apply (Hall (mid, Some l)).
  apply list_elem_of_In, elem_of_map_to_list. exact Hlook.
Qed.

Lemma percentage_range (fl : Filters) (mid : string) (accs : list Account) :
  accounts_in_range accs = true ->
  Forall (fun p => 0 <= p <= 100)
         (map (percentage mid) (List.filter (contributes fl mid) accs)).
Proof.
  unfold accounts_in_range. rewrite forallb_forall. intros Hall.
  apply List.Forall_forall. intros p Hp.
  apply in_map_iff in Hp. destruct Hp as (acc & <- & Hacc).
  apply filter_In in Hacc. destruct Hacc as [Hin _].
  unfold percentage. destruct (limit_of acc mid) as [l|] eqn:Hl; [|lia].
  apply (pct_of_range l).
  eapply limit_of_in_range; [apply Hall, Hin | exact Hl].
Qed.

(** ** Facts about the rows *)

Section RowFacts.
Context `{Utils}.

Lemma In_computeQuotaRows (st : Store) (settings : option Settings) (r : QuotaRow) :
  In r (computeQuotaRows st settings) <->
  exists mid, In mid (models st) /\
              row_of st (default true (settings ≫= showExhausted)) mid = Some r.
Proof.
  unfold computeQuotaRows. rewrite Array_sort_In.
  unfold push_row. rewrite fold_left_push. simpl. apply In_omap.
Qed.

Lemma row_of_Some (st : Store) (showExh : bool) (mid : string) (r : QuotaRow) :
  row_of st showExh mid = Some r ->
  modelId r = mid /\
  isHidden (config_of st mid) (getModelFamily mid) = false /\
  quotaInfo r = c_quotaInfo (collect st mid) /\
  quotaInfo r <> [] /\
  minQuota r = c_minQuota (collect st mid) /\
  avgQuota r = average (collect st mid) /\
  pinned r = default false (cfg_pinned (config_of st mid)).
Proof.
  unfold row_of.
  destruct (isHidden (config_of st mid) (getModelFamily mid)); [discriminate|].
  destruct (negb (passes_model_filters _ _ _)); [discriminate|].
  destruct (length (c_quotaInfo (collect st mid)) =? 0)%nat eqn:Hlen; [discriminate|].
  destruct (negb showExh && _); [discriminate|].
  intros [= <-]; simpl. repeat split; try reflexivity.
  intros Hnil. rewrite Hnil in Hlen. discriminate.
Qed.

End RowFacts.

Lemma compareRows_total (a b : QuotaRow) :
  0 < compareRows a b -> compareRows b a <= 0.
Proof. unfold compareRows. destruct (pinned a), (pinned b); simpl; lia. Qed.

Lemma compareRows_trans (a b c : QuotaRow) :
  compareRows a b <= 0 -> compareRows b c <= 0 -> compareRows a c <= 0.
Proof.
  unfold compareRows. destruct (pinned a), (pinned b), (pinned c); simpl; lia.
Qed.

Lemma unfiltered_fold (mid : string) (accs : list Account) :
  forall qi,
    fold_left (unfiltered_step mid) accs qi
    = qi ++ omap (fun acc => pct_of <$> limit_of acc mid) accs.
Proof.
  induction accs as [|acc accs IH]; intros qi; simpl.
  - now rewrite app_nil_r.
  - rewrite IH. unfold unfiltered_step.
    destruct (limit_of acc mid); simpl; [|reflexivity].
    now rewrite <- app_assoc.
Qed.

Lemma In_getUnfilteredQuotaData (st : Store) (settings : option Settings)
  (r : UnfilteredRow) :
  In r (getUnfilteredQuotaData st settings) <->
  exists mid, In mid (models st) /\
              unfiltered_row_of st (default false (settings ≫= showHiddenModels)) mid
              = Some r.
Proof.
  unfold getUnfilteredQuotaData, push_unfiltered.
  rewrite fold_left_push. simpl. apply In_omap.
Qed.

(** The two aggregations of the store never read [enabled]. *)
Lemma collect_ignores_enabled (e : option bool) (fl : Filters) (mid : string)
  (accs : list Account) :
  forall c,
    fold_left (collect_step fl mid) (map (set_enabled e) accs) c
    = fold_left (collect_step fl mid) accs c.
Proof.
  induction accs as [|acc accs IH]; intros c; simpl; [reflexivity|].
  rewrite IH. reflexivity.
Qed.

Lemma computeQuotaRows_ignores_enabled `{Utils} (e : option bool) (st : Store)
  (settings : option Settings) :
  computeQuotaRows (set_accounts (map (set_enabled e) (accounts st)) st) settings
  = computeQuotaRows st settings.
Proof.
  unfold computeQuotaRows. f_equal. simpl.
  generalize (@nil QuotaRow) as rows.
  induction (models st) as [|mid mids IH]; intros rows; simpl; [reflexivity|].
  rewrite <- IH. f_equal.
  unfold push_row, row_of, collect. simpl.
  now rewrite collect_ignores_enabled.
Qed.

Lemma unfiltered_ignores_enabled (e : option bool) (mid : string)
  (accs : list Account) :
  forall qi,
    fold_left (unfiltered_step mid) (map (set_enabled e) accs) qi
    = fold_left (unfiltered_step mid) accs qi.
Proof.
  induction accs as [|acc accs IH]; intros qi; simpl; [reflexivity|].
  rewrite IH. reflexivity.
Qed.

Lemma getUnfilteredQuotaData_ignores_enabled (e : option bool) (st : Store)
  (settings : option Settings) :
  getUnfilteredQuotaData (set_accounts (map (set_enabled e) (accounts st)) st) settings
  = getUnfilteredQuotaData st settings.
Proof.
  unfold getUnfilteredQuotaData. simpl.
  generalize (@nil UnfilteredRow) as rows.
  induction (models st) as [|mid mids IH]; intros rows; simpl; [reflexivity|].
  rewrite <- IH. f_equal.
  unfold push_unfiltered, unfiltered_row_of. simpl.
  now rewrite unfiltered_ignores_enabled.
Qed.

(** ** Properties of the data store *)

(** C1 (the code departs from it): accounts with [enabled = false] are
    meant to be left out of every aggregate.  On a feed with a disabled
    account at 0% and an enabled one at 100%, [updateStats] counts only the
    enabled account, but [computeQuotaRows] lists the disabled account in
    [quotaInfo] and lets it set [minQuota] to 0 and [avgQuota] to 50, and
    [getUnfilteredQuotaData] emits its [pct] entry 0. *)
Theorem C1_disabled_account_is_aggregated :
  is_enabled Examples.disabled_account = false /\
  computeQuotaRows (H := Examples.utils) Examples.store_disabled None
  = [ {| modelId := "claude-sonnet"; displayName := "claude-sonnet";
         family := "claude"; minQuota := 0; avgQuota := 50;
         minResetTime := None; resetIn := "-";
         quotaInfo := [ {| qi_email := "off"; fullEmail := "off@x.com"; pct := 0;
                           qi_resetTime := None |};
                        {| qi_email := "on"; fullEmail := "on@x.com"; pct := 100;
                           qi_resetTime := None |} ];
         pinned := false; hidden := false |} ] /\
  getUnfilteredQuotaData Examples.store_disabled None
  = [ {| u_modelId := "claude-sonnet"; u_family := "claude";
         u_quotaInfo := [0; 100] |} ] /\
  total (stats (updateStats (accounts Examples.store_disabled) init_state)) = 1.
Proof. repeat split; vm_compute; reflexivity. Qed.







(** Without the filter the same row lists both accounts. *)
Example both_accounts_without_filter :
  map (fun r => (modelId r, map fullEmail (quotaInfo r), map pct (quotaInfo r),
                 minQuota r, avgQuota r))
      (computeQuotaRows (H := Examples.utils) Examples.store_two None)
  = [("gemini-pro", ["b@x.com"], [28], 28, 28);
     ("claude-sonnet", ["a@x.com"; "b@x.com"], [50; 25], 25, 38)].
Proof. vm_compute. reflexivity. Qed.

(** C6: in the output of [computeQuotaRows], a pinned row stands before
    every unpinned row, and among rows of equal pinned status [avgQuota]
    never increases along the output. *)
Theorem C6_rows_sorted `{Utils} (st : Store) (settings : option Settings)
  (i j : nat) (a b : QuotaRow) :
  computeQuotaRows st settings !! i = Some a ->
  computeQuotaRows st settings !! j = Some b ->
  (pinned a = true -> pinned b = false -> (i < j)%nat) /\
  ((i < j)%nat -> pinned a = pinned b -> avgQuota b <= avgQuota a).
Proof.
  intros Hi Hj.
  pose proof (Array_sort_sorted compareRows compareRows_total compareRows_trans
                (fold_left (push_row st (default true (settings ≫= showExhausted)))
                           (models st) [])) as Hs.
  fold (computeQuotaRows st settings) in Hs.
  pose proof (StronglySorted_lookup _ _ Hs) as Hord.
  split.
  - intros Ha Hb.
    destruct (lt_eq_lt_dec i j) as [[Hlt|Heq]|Hgt]; [exact Hlt| |].
    + subst j. rewrite Hi in Hj. injection Hj as <-. congruence.
    + specialize (Hord j i b a Hgt Hj Hi).
      unfold precedes, compareRows in Hord. rewrite Ha, Hb in Hord.
      simpl in Hord. lia.
  - intros Hlt Heq.
    specialize (Hord i j a b Hlt Hi Hj).
    unfold precedes, compareRows in Hord. rewrite Heq in Hord.
    rewrite Bool.eqb_reflx in Hord. simpl in Hord. lia.
Qed.

Lemma C6_rows_sorted_witness :
  computeQuotaRows (H := Examples.utils) Examples.store_two None !! 0%nat
  = Some Examples.row_gemini /\
  computeQuotaRows (H := Examples.utils) Examples.store_two None !! 1%nat
  = Some Examples.row_claude /\
  (0 < 1)%nat.
Proof.
  assert (H0 : computeQuotaRows (H := Examples.utils) Examples.store_two None !! 0%nat
               = Some Examples.row_gemini) by (vm_compute; reflexivity).
  assert (H1 : computeQuotaRows (H := Examples.utils) Examples.store_two None !! 1%nat
               = Some Examples.row_claude) by (vm_compute; reflexivity).
  split; [exact H0|]. split; [exact H1|].
  exact (proj1 (C6_rows_sorted (H := Examples.utils) Examples.store_two None
                  0 1 Examples.row_gemini Examples.row_claude H0 H1)
               eq_refl eq_refl).
Defined.

(** C7: a model id of family [other] whose configuration does not set
    [hidden] never appears in the output of [computeQuotaRows], whatever
    the filters and settings; it does appear in the output of
    [getUnfilteredQuotaData] when [showHiddenModels] is true, the id is
    among the models and some account has a [Limit] for it. *)
Theorem C7_other_family_hidden_by_default `{Utils} (st : Store) (mid : string) :
  getModelFamily mid = "other" ->
  cfg_hidden (config_of st mid) = None ->
  (forall fl settings r,
      In r (computeQuotaRows (with_filters fl st) settings) -> modelId r <> mid) /\
  (forall settings,
      settings ≫= showHiddenModels = Some true ->
      In mid (models st) ->
      (exists acc l, In acc (accounts st) /\ limit_of acc mid = Some l) ->
      exists r, In r (getUnfilteredQuotaData st settings) /\ u_modelId r = mid).
Proof.
  intros Hfam Hcfg. split.
  - intros fl settings r Hin Hid.
    apply In_computeQuotaRows in Hin. destruct Hin as (mid' & _ & Hrow).
    apply row_of_Some in Hrow. destruct Hrow as (Hid' & Hhid & _).
    rewrite Hid in Hid'. subst mid'.
    change (config_of (with_filters fl st) mid) with (config_of st mid) in Hhid.
    unfold isHidden in Hhid. rewrite Hcfg, Hfam in Hhid. discriminate.
  - intros settings Hshow Hmid (acc & l & Hacc & Hl).
    assert (Hne : fold_left (unfiltered_step mid) (accounts st) [] <> []).
    { rewrite unfiltered_fold. simpl. intros Hnil.
      assert (Hp : In (pct_of l) (omap (fun a => pct_of <$> limit_of a mid) (accounts st))).
      { apply In_omap. exists acc. split; [exact Hacc|]. now rewrite Hl. }
      rewrite Hnil in Hp. exact Hp. }
    destruct (fold_left (unfiltered_step mid) (accounts st) []) as [|z qi] eqn:Hf;
      [congruence|].
    exists {| u_modelId := mid; u_family := getModelFamily mid;
              u_quotaInfo := z :: qi |}.
    split; [|reflexivity].
    apply In_getUnfilteredQuotaData. exists mid. split; [exact Hmid|].
    rewrite Hshow. simpl. unfold unfiltered_row_of.
    rewrite andb_false_r, Hf. reflexivity.
Qed.

Lemma C7_other_family_hidden_by_default_witness :
  getModelFamily "foo" = "other" /\
  cfg_hidden (config_of Examples.store_two "foo") = None /\
  (forall r, In r (computeQuotaRows (H := Examples.utils)
                     (with_filters Examples.no_filters Examples.store_two) None) ->
             modelId r <> "foo") /\
  (exists r, In r (getUnfilteredQuotaData Examples.store_two Examples.show_hidden) /\
             u_modelId r = "foo").
Proof.
  assert (Hf : getModelFamily "foo" = "other") by reflexivity.
  assert (Hc : cfg_hidden (config_of Examples.store_two "foo") = None)
    by (vm_compute; reflexivity).
  split; [exact Hf|]. split; [exact Hc|].
  destruct (C7_other_family_hidden_by_default (H := Examples.utils)
              Examples.store_two "foo" Hf Hc) as [Habsent Hpresent].
  split.
  - exact (Habsent Examples.no_filters None).
  - apply Hpresent.
    + reflexivity.
    + simpl. left. reflexivity.
    + exists Examples.account_b.
      exists {| remainingFraction := Some 1%Q; resetTime := None |}.
      split; [simpl; right; left; reflexivity | vm_compute; reflexivity].
Defined.

(** C10: on a feed whose every [remainingFraction] is [null] or lies
    between 0 and 1, every row emitted by [computeQuotaRows] satisfies
    0 <= minQuota <= avgQuota <= 100. *)
Theorem C10_quota_bounds `{Utils} (st : Store) (settings : option Settings)
  (r : QuotaRow) :
  accounts_in_range (accounts st) = true ->
  In r (computeQuotaRows st settings) ->
  0 <= minQuota r /\ minQuota r <= avgQuota r /\ avgQuota r <= 100.
Proof.
  intros Hrange Hin. apply In_computeQuotaRows in Hin.
  destruct Hin as (mid & _ & Hrow).
  apply row_of_Some in Hrow.
  destruct Hrow as (_ & _ & Hqi & Hne & Hmin & Havg & _).
  destruct (collect_spec st mid) as (_ & Hp & Hm & Hs & Hn).
  pose proof (percentage_range (filters st) mid (accounts st) Hrange) as Hps.
  set (ps := map (percentage mid) (List.filter (contributes (filters st) mid) (accounts st))) in *.
  assert (Hlen : (0 < length ps)%nat).
  { destruct ps; simpl; [|lia]. exfalso. apply Hne. rewrite Hqi.
    destruct (c_quotaInfo (collect st mid)); [reflexivity | discriminate]. }
  destruct (fold_min_le ps 100) as [Hle100 Hlow].
  assert (Hmin0 : 0 <= fold_left Z.min ps 100).
  { destruct (fold_min_In ps 100) as [->|Hmem]; [lia|].
    rewrite List.Forall_forall in Hps. apply (Hps _ Hmem). }
  assert (Hboth : Forall (fun p => fold_left Z.min ps 100 <= p <= 100) ps).
  { rewrite List.Forall_forall in *. intros p Hp'. split; [apply Hlow, Hp'|].
    apply (Hps _ Hp'). }
  apply sum_list_bounds in Hboth.
  rewrite Hmin, Havg, Hm. unfold average. rewrite Hs, Hn.
  assert (Hpos : 0 < Z.of_nat (length ps)) by lia.
  apply Z.ltb_lt in Hpos as Hposb. rewrite Hposb.
  assert (Hposq : (0 < inject_Z (Z.of_nat (length ps)))%Q).
  { change 0%Q with (inject_Z 0). now rewrite <- Zlt_Qlt. }
  split; [exact Hmin0|].
  apply (round_div_bounds _ _ (fold_left Z.min ps 100) 100 Hmin0);
    [discriminate | |].
  - apply Qle_shift_div_l; [exact Hposq|].
    rewrite <- inject_Z_mult, <- Zle_Qle. lia.
  - apply Qle_shift_div_r; [exact Hposq|].
    rewrite <- inject_Z_mult, <- Zle_Qle. lia.
Qed.

Lemma C10_quota_bounds_witness :
  accounts_in_range (accounts Examples.store_two) = true /\
  In Examples.row_claude (computeQuotaRows (H := Examples.utils) Examples.store_two None) /\
  0 <= minQuota Examples.row_claude /\
  minQuota Examples.row_claude <= avgQuota Examples.row_claude /\
  avgQuota Examples.row_claude <= 100.
Proof.
  assert (Hr : accounts_in_range (accounts Examples.store_two) = true)
    by (vm_compute; reflexivity).
  assert (Hi : In Examples.row_claude
                  (computeQuotaRows (H := Examples.utils) Examples.store_two None))
    by (vm_compute; right; left; reflexivity).
  split; [exact Hr|]. split; [exact Hi|].
  exact (C10_quota_bounds (H := Examples.utils)
           Examples.store_two None Examples.row_claude Hr Hi).
Defined.

(** ** Properties of the dashboard counters *)

Lemma count_fold (accs : list Account) :
  forall a l,
    fold_left count_step accs (a, l)
    = (a + count_of counts_active accs,
       l + count_of (fun acc => negb (counts_active acc)) accs).
Proof.
  unfold count_of.
  induction accs as [|acc accs IH]; intros a l.
  - simpl. f_equal; lia.
  - cbn [fold_left List.filter].
    destruct (count_step (a, l) acc) as [a' l'] eqn:Hstep. rewrite IH.
    unfold count_step in Hstep. unfold counts_active.
    destruct (String.eqb (status acc) "ok");
      [destruct (hasActiveCore acc)|];
      injection Hstep as <- <-; simpl; f_equal; lia.
Qed.

Lemma filter_filter_andb {A} (f g : A -> bool) (l : list A) :
  List.filter g (List.filter f l) = List.filter (fun x => f x && g x) l.
Proof.
  induction l as [|x l IH]; simpl; [reflexivity|].
  destruct (f x); simpl; [destruct (g x)|]; now rewrite IH.
Qed.

Lemma is_enabled_not_false (acc : Account) :
  is_enabled acc = bool_decide (enabled acc <> Some false).
Proof. unfold is_enabled. now destruct (enabled acc) as [[|]|]. Qed.

Lemma filter_drops {A} (f : A -> bool) (before after : list A) (x : A) :
  f x = false ->
  List.filter f (before ++ x :: after) = List.filter f (before ++ after).
Proof.
  intros Hx. rewrite !List.filter_app. cbn [List.filter]. now rewrite Hx.
Qed.

(** C9: after [updateStats], [total = active + limited]; [total] is the
    number of accounts whose [enabled] is not [false], [active] the number
    of those that count as active and [limited] the number of the others;
    an account whose [enabled] is [false] is counted in neither: taking it
    out of the snapshot changes no counter. *)
Theorem C9_total_is_active_plus_limited (accs : list Account) (s : State) :
  let st := stats (updateStats accs s) in
  total st = active st + limited st /\
  total st = count_of (fun acc => bool_decide (enabled acc <> Some false)) accs /\
  active st = count_of (fun acc => bool_decide (enabled acc <> Some false)
                                   && counts_active acc) accs /\
  limited st = count_of (fun acc => bool_decide (enabled acc <> Some false)
                                    && negb (counts_active acc)) accs /\
  (forall before acc after,
      accs = before ++ acc :: after -> enabled acc = Some false ->
      stats (updateStats (before ++ after) s) = st).
Proof.
  assert (Hext : forall l, List.filter is_enabled l
                 = List.filter (fun acc => bool_decide (enabled acc <> Some false)) l).
  { intros l. apply filter_ext. exact is_enabled_not_false. }
  cbv zeta. split; [|split; [|split; [|split]]].
  - unfold updateStats. rewrite count_fold. simpl. unfold count_of.
    rewrite !filter_filter_andb.
    induction accs as [|acc accs IH]; simpl; [reflexivity|].
    destruct (is_enabled acc); simpl; [|exact IH].
    destruct (counts_active acc); simpl; lia.
  - unfold updateStats. rewrite count_fold. simpl. unfold count_of.
    now rewrite Hext.
  - unfold updateStats. rewrite count_fold. simpl. unfold count_of.
    now rewrite Hext, filter_filter_andb.
  - unfold updateStats. rewrite count_fold. simpl. unfold count_of.
    now rewrite Hext, filter_filter_andb.
  - intros before acc after -> Hoff. unfold updateStats.
    rewrite (filter_drops is_enabled before after acc); [reflexivity|].
    unfold is_enabled. now rewrite Hoff.
Qed.

(** On the snapshot with the disabled account: one account is counted,
    as active, and the counters are those of the snapshot without the
    disabled account. *)
Lemma C9_total_is_active_plus_limited_witness :
  enabled Examples.disabled_account = Some false /\
  (let st := stats (updateStats [Examples.disabled_account; Examples.enabled_account]
                      init_state) in
   total st = 1 /\ active st = 1 /\ limited st = 0) /\
  stats (updateStats [Examples.enabled_account] init_state)
  = stats (updateStats [Examples.disabled_account; Examples.enabled_account] init_state).
Proof.
  split; [reflexivity|].
  destruct (C9_total_is_active_plus_limited
              [Examples.disabled_account; Examples.enabled_account] init_state)
    as (_ & Ht & Ha & Hl & Hout).
  split.
  - cbv zeta. rewrite Ht, Ha, Hl. repeat split; vm_compute; reflexivity.
  - exact (Hout [] Examples.disabled_account [Examples.enabled_account]
             eq_refl eq_refl).
Defined.

(** ** Properties of the history feed *)

Lemma usageStats_savePreferences (s : State) :
  usageStats (savePreferences s) = usageStats s.
Proof. unfold savePreferences. now destruct (storageWritable s). Qed.

Lemma usageStats_autoSelectNew (s : State) :
  usageStats (autoSelectNew s) = usageStats s.
Proof.
  unfold autoSelectNew.
  destruct (_ && _).
  - now rewrite usageStats_savePreferences.
  - now destruct (fold_left _ _ _).
Qed.

Lemma hourTotal_amount (hourData : Bucket) :
  count_or_missing (prop hourData "_total") = true ->
  count_or_missing (prop hourData "total") = true ->
  hourTotal hourData = VNum (amount_added hourData).
Proof.
  unfold hourTotal, amount_added, js_or, nonzero_count, truthy.
  destruct (prop hourData "_total") as [| |n|o]; try discriminate; intros _;
    destruct (prop hourData "total") as [| |m|o']; try discriminate; intros _;
    repeat match goal with
           | |- context [?x =? 0] => destruct (x =? 0) eqn:?; simpl
           end;
    reflexivity || congruence.
Qed.

Lemma total_fold (clock : Clock) (history : History) :
  totals_are_counts history = true ->
  forall acc a,
    t_total acc = Some a ->
    t_total (fold_left (history_step clock) history acc)
    = Some (a + sum_list (map (fun e => amount_added (snd e)) history)).
Proof.
  unfold totals_are_counts.
  induction history as [|[ts hd] history IH]; simpl; intros Hall acc a Ha.
  - rewrite Ha. f_equal. lia.
  - apply andb_true_iff in Hall. destruct Hall as [Hhd Hall].
    apply andb_true_iff in Hhd. destruct Hhd as [H1 H2].
    rewrite (IH Hall _ (a + amount_added hd)).
    + f_equal. lia.
    + simpl. rewrite (hourTotal_amount hd H1 H2), Ha. reflexivity.
Qed.

(** C4 as the specification states it fails: with an explicit [_total] of
    0 next to a [total] of 5, the amount is 5, not the 0 of
    [_total ?? total ?? 0], and the running total of [processHistory]
    becomes 5. *)
Lemma C4_zero_total_falls_through :
  prop Examples.bucket_zero_total "_total" = VNum 0 /\
  hourTotal_nullish Examples.bucket_zero_total = VNum 0 /\
  hourTotal Examples.bucket_zero_total = VNum 5 /\
  hourTotal Examples.bucket_zero_total <> hourTotal_nullish Examples.bucket_zero_total /\
  us_total (usageStats (processHistory Examples.clock
                          [(13 * Examples.hour, Examples.bucket_zero_total)]
                          init_state)) = Some 5.
Proof. repeat split; try (vm_compute; reflexivity). discriminate. Qed.

(** C4, amended: for every bucket of a feed whose [_total] and [total]
    are counts, [null] or absent, the amount added to the running usage
    total is [_total] if it is a non-zero count, otherwise [total] if it is
    a non-zero count, otherwise 0; the total of [processHistory] is the sum
    of these amounts. *)
Theorem C4_amount_added_is_first_truthy_total (clock : Clock) (history : History)
  (s : State) :
  totals_are_counts history = true ->
  (forall ts hourData, In (ts, hourData) history ->
     hourTotal hourData = VNum (amount_added hourData)) /\
  us_total (usageStats (processHistory clock history s))
  = Some (sum_list (map (fun e => amount_added (snd e)) history)).
Proof.
  intros Hall. split.
  - intros ts hd Hin. unfold totals_are_counts in Hall.
    rewrite forallb_forall in Hall. specialize (Hall _ Hin). simpl in Hall.
    apply andb_true_iff in Hall. destruct Hall as [H1 H2].
    now apply hourTotal_amount.
  - unfold processHistory. rewrite usageStats_autoSelectNew. simpl.
    rewrite (total_fold clock history Hall totals_init 0 eq_refl). reflexivity.
Qed.

Lemma C4_amount_added_is_first_truthy_total_witness :
  totals_are_counts [(13 * Examples.hour, Examples.bucket_zero_total);
                     (14 * Examples.hour, Examples.bucket_plain)] = true /\
  hourTotal Examples.bucket_zero_total = VNum 5 /\
  us_total (usageStats (processHistory Examples.clock
                          [(13 * Examples.hour, Examples.bucket_zero_total);
                           (14 * Examples.hour, Examples.bucket_plain)]
                          init_state)) = Some 50.
Proof.
  assert (Hc : totals_are_counts [(13 * Examples.hour, Examples.bucket_zero_total);
                                  (14 * Examples.hour, Examples.bucket_plain)] = true)
    by reflexivity.
  split; [exact Hc|].
  destruct (C4_amount_added_is_first_truthy_total Examples.clock _ init_state Hc)
    as [Hamount Htotal].
  split.
  - apply (Hamount (13 * Examples.hour)). simpl. left. reflexivity.
  - exact Htotal.
Defined.

(** What [fetchHistory] does when the request rejects or the body does
    not parse: the failure is logged and the flag is set. *)
Lemma fetchHistory_rejects (clock : Clock) (s : State) :
  let s' := fetchHistory clock RequestRejects s in
  hasTrendData (stats s') = true /\
  console s' = console s ++ ["Failed to fetch usage history:"].
Proof. split; reflexivity. Qed.

Lemma fetchHistory_ok (clock : Clock) (newPassword : option string)
  (history : History) (s : State) :
  hasTrendData (stats (fetchHistory clock (Response newPassword true (Some history)) s))
  = true.
Proof. reflexivity. Qed.

(** C5 (the code departs from it): a failed history fetch is meant to be
    logged and to leave [hasTrendData] true.  That happens when the
    request rejects; when a response arrives that is not [ok], the code
    logs nothing and leaves the flag as it was, so that from the initial
    state the flag stays false. *)
Theorem C5_not_ok_response_sets_nothing (clock : Clock)
  (newPassword : option string) (body : option History) (s : State) :
  let s' := fetchHistory clock (Response newPassword false body) s in
  hasTrendData (stats s') = hasTrendData (stats s) /\
  console s' = console s /\
  hasTrendData (stats (fetchHistory clock (Response None false None) init_state))
  = false.
Proof.
  simpl. destruct newPassword as [p|]; [destruct (JS.truthy_string p)|];
    repeat split; reflexivity.
Qed.

(** ** Facts about the extension of the selection *)

Lemma Array_includes_In (l : list string) (x : string) :
  Array_includes l x = true <-> In x l.
Proof.
  unfold Array_includes. rewrite existsb_exists. split.
  - intros (y & Hy & Heq). apply String.eqb_eq in Heq. now subst.
  - intros Hin. exists x. split; [exact Hin | apply String.eqb_refl].
Qed.

Lemma extend_models_spec (family : string) (tree mods : gmap string (list string))
  (l : list string) :
  mods !! family = Some l ->
  exists e,
    extend_models family tree mods !! family = Some (l ++ e) /\
    (forall m, In m (default [] (tree !! family)) -> In m (l ++ e)) /\
    (forall g, g <> family -> extend_models family tree mods !! g = mods !! g).
Proof.
  unfold extend_models. generalize (default [] (tree !! family)) as ms.
  intros ms. revert mods l.
  induction ms as [|a ms IH]; intros mods l Hl; simpl.
  - exists []. rewrite app_nil_r. split; [exact Hl|].
    split; [intros m []|reflexivity].
  - rewrite Hl. simpl. destruct (Array_includes l a) eqn:Hinc; simpl.
    + destruct (IH mods l Hl) as (e & He & Hin & Hne).
      exists e. split; [exact He|]. split; [|exact Hne].
      intros m [<-|Hm]; [|apply Hin, Hm].
      apply in_or_app. left. apply Array_includes_In, Hinc.
    + destruct (IH (alter (fun l0 => l0 ++ [a]) family mods) (l ++ [a]))
        as (e & He & Hin & Hne).
      { rewrite lookup_alter_eq, Hl. reflexivity. }
      exists ([a] ++ e). rewrite app_assoc. split; [exact He|]. split.
      * intros m [<-|Hm]; [|apply Hin, Hm].
        apply in_or_app. left. apply in_or_app. right. now left.
      * intros g Hg. rewrite (Hne g Hg). apply lookup_alter_ne. congruence.
Qed.

Lemma sel_extends_refl (sel : Selection) : sel_extends sel sel.
Proof.
  split.
  - exists []. now rewrite app_nil_r.
  - intros g l Hl. exists []. now rewrite app_nil_r.
Qed.

Lemma sel_extends_trans (a b c : Selection) :
  sel_extends a b -> sel_extends b c -> sel_extends a c.
Proof.
  intros [[e1 H1] M1] [[e2 H2] M2]. split.
  - exists (e1 ++ e2). now rewrite H2, H1, app_assoc.
  - intros g l Hl. destruct (M1 g l Hl) as [x Hx].
    destruct (M2 g _ Hx) as [y Hy]. exists (x ++ y). now rewrite Hy, app_assoc.
Qed.

Lemma sel_covers_extends (tree : gmap string (list string)) (f : string)
  (a b : Selection) :
  sel_covers tree f a -> sel_extends a b -> sel_covers tree f b.
Proof.
  intros [Hf (l & Hl & Hall)] [[e He] Hm]. split.
  - rewrite He. apply in_or_app. now left.
  - destruct (Hm f l Hl) as [x Hx]. exists (l ++ x). split; [exact Hx|].
    intros m Hin. apply in_or_app. left. apply Hall, Hin.
Qed.

Lemma extend_family_spec (tree : gmap string (list string)) (sel : Selection)
  (f : string) :
  sel_extends sel (extend_family tree sel f) /\
  sel_covers tree f (extend_family tree sel f).
Proof.
  destruct sel as [fams mods]. unfold extend_family.
  set (mods1 := match mods !! f with
                | Some _ => mods
                | None => <[f := []]> mods
                end).
  assert (Hmods1 : exists l, mods1 !! f = Some l /\
                             (forall l0, mods !! f = Some l0 -> l0 = l)).
  { subst mods1. destruct (mods !! f) as [l|] eqn:Hl.
    - exists l. split; [exact Hl|]. now intros l0 [= ->].
    - exists []. split; [apply lookup_insert_eq | discriminate]. }
  assert (Hother : forall g, g <> f -> mods1 !! g = mods !! g).
  { intros g Hg. subst mods1. destruct (mods !! f); [reflexivity|].
    apply lookup_insert_ne. congruence. }
  destruct Hmods1 as (l & Hl & Hsame).
  destruct (extend_models_spec f tree mods1 l Hl) as (e & He & Hin & Hne).
  split; [split|split]; simpl.
  - destruct (Array_includes fams f); simpl; [exists [] | exists [f]];
      [now rewrite app_nil_r | reflexivity].
  - intros g l0 Hl0. destruct (decide (g = f)) as [->|Hg].
    + rewrite (Hsame _ Hl0). exists e. exact He.
    + exists []. rewrite app_nil_r, (Hne g Hg), (Hother g Hg). exact Hl0.
  - destruct (Array_includes fams f) eqn:Hinc; simpl.
    + apply Array_includes_In, Hinc.
    + apply in_or_app. right. now left.
  - exists (l ++ e). split; [exact He | exact Hin].
Qed.

Lemma fold_extend_family (tree : gmap string (list string)) (fs : list string) :
  forall sel : Selection,
    sel_extends sel (fold_left (extend_family tree) fs sel) /\
    (forall f, In f fs ->
               sel_covers tree f (fold_left (extend_family tree) fs sel)).
Proof.
  induction fs as [|f fs IH]; intros sel; simpl.
  - split; [apply sel_extends_refl | intros f []].
  - destruct (extend_family_spec tree sel f) as [Hext Hcov].
    destruct (IH (extend_family tree sel f)) as [Hext' Hcov'].
    split; [eapply sel_extends_trans; eassumption|].
    intros g [<-|Hg]; [|apply Hcov', Hg].
    eapply sel_covers_extends; eassumption.
Qed.

(** A refresh with a non-empty selection only appends to the selection,
    and afterwards every family of the feed and every model of its tree is
    selected, whether it is new or was deselected before. *)
Lemma autoSelectNew_extension (s : State) :
  (length (selectedFamilies s) =? 0)%nat && (size (selectedModels s) =? 0)%nat = false ->
  let s' := autoSelectNew s in
  sel_extends (selectedFamilies s, selectedModels s)
              (selectedFamilies s', selectedModels s') /\
  (forall f, In f (families s) -> isFamilySelected s' f = true) /\
  (forall f m, In f (families s) -> In m (default [] (modelTree s !! f)) ->
               isModelSelected s' f m = true).
Proof.
  intros Hne. unfold autoSelectNew. rewrite Hne.
  destruct (fold_extend_family (modelTree s) (families s)
              (selectedFamilies s, selectedModels s)) as [Hext Hcov].
  destruct (fold_left _ _ _) as [fams mods]. simpl.
  split; [exact Hext|]. split.
  - intros f Hf. destruct (Hcov f Hf) as [Hin _].
    apply Array_includes_In. exact Hin.
  - intros f m Hf Hm. destruct (Hcov f Hf) as [_ (l & Hl & Hall)].
    unfold isModelSelected. simpl in *. rewrite Hl.
    apply Array_includes_In, Hall, Hm.
Qed.

(** ** Facts about the top-N selection on names without a colon *)

Lemma split_no_colon (m : string) :
  no_colon m = true -> JS.split ":" m = [m].
Proof.
  induction m as [|c m IH]; simpl; [reflexivity|].
  intros Hc. apply andb_true_iff in Hc. destruct Hc as [Hc Hm].
  destruct (Ascii.eqb c ":"); [discriminate|].
  now rewrite (IH Hm).
Qed.

Lemma split_pair (f m : string) :
  no_colon f = true -> no_colon m = true ->
  JS.split ":" (f ++ ":" ++ m)%string = [f; m].
Proof.
  intros Hf Hm. induction f as [|c f IH].
  - change (JS.split ":" (EmptyString ++ ":" ++ m)%string)
      with (EmptyString :: JS.split ":" m).
    now rewrite (split_no_colon m Hm).
  - simpl in Hf. apply andb_true_iff in Hf. destruct Hf as [Hc Hf].
    change (JS.split ":" (String c f ++ ":" ++ m)%string)
      with (if Ascii.eqb c ":" then EmptyString :: JS.split ":" (f ++ ":" ++ m)%string
            else match JS.split ":" (f ++ ":" ++ m)%string with
                 | [] => [String c EmptyString]
                 | h :: t => String c h :: t
                 end).
    destruct (Ascii.eqb c ":"); [discriminate|].
    now rewrite (IH Hf).
Qed.

Lemma pair_key_inj (f m f' m' : string) :
  no_colon f = true -> no_colon m = true ->
  no_colon f' = true -> no_colon m' = true ->
  (f ++ ":" ++ m)%string = (f' ++ ":" ++ m')%string -> f = f' /\ m = m'.
Proof.
  intros Hf Hm Hf' Hm' Heq.
  assert (Hs : JS.split ":" (f ++ ":" ++ m)%string
               = JS.split ":" (f' ++ ":" ++ m')%string) by now rewrite Heq.
  rewrite (split_pair f m Hf Hm), (split_pair f' m' Hf' Hm') in Hs.
  now injection Hs.
Qed.

Lemma pair_add_no_colon (f m : string) (c : Z) (tot : list Count) :
  no_colon f = true -> no_colon m = true ->
  names_without_colon tot = true ->
  names_without_colon (pair_add f m c tot) = true.
Proof.
  intros Hf Hm. unfold names_without_colon.
  induction tot as [|t tot IH]; simpl; intros Hall.
  - unfold c_family, c_model. simpl. now rewrite Hf, Hm.
  - apply andb_true_iff in Hall. destruct Hall as [Ht Hall].
    destruct (String.eqb (c_family t) f && String.eqb (c_model t) m); simpl.
    + unfold c_family, c_model. simpl. now rewrite Hf, Hm.
    + now rewrite Ht, (IH Hall).
Qed.

Lemma usage_add_pair (t : Count) (tot : list Count) :
  no_colon (c_family t) = true -> no_colon (c_model t) = true ->
  names_without_colon tot = true ->
  add_count (map pair_key tot) t
  = map pair_key (pair_add (c_family t) (c_model t) (c_count t) tot).
Proof.
  intros Hf Hm. unfold add_count, names_without_colon.
  induction tot as [|t' tot IH]; simpl; intros Hall.
  - reflexivity.
  - apply andb_true_iff in Hall. destruct Hall as [Ht' Hall].
    apply andb_true_iff in Ht'. destruct Ht' as [Hf' Hm'].
    specialize (IH Hall). simpl in IH.
    destruct (String.eqb_spec (c_family t' ++ ":" ++ c_model t')%string
                              (c_family t ++ ":" ++ c_model t)%string) as [Heq|Hne].
    + destruct (pair_key_inj _ _ _ _ Hf' Hm' Hf Hm Heq) as [Ef Em].
      rewrite Ef, Em, !String.eqb_refl. simpl. reflexivity.
    + destruct (String.eqb_spec (c_family t') (c_family t)) as [Ef|Ef];
        [destruct (String.eqb_spec (c_model t') (c_model t)) as [Em|Em]|]; simpl.
      * exfalso. apply Hne. now rewrite Ef, Em.
      * now rewrite IH.
      * now rewrite IH.
Qed.

Lemma usage_fold (ts : list Count) :
  names_without_colon ts = true ->
  forall tot,
    names_without_colon tot = true ->
    fold_left add_count ts (map pair_key tot)
    = map pair_key
        (fold_left (fun tot t => pair_add (c_family t) (c_model t) (c_count t) tot)
                   ts tot) /\
    names_without_colon
      (fold_left (fun tot t => pair_add (c_family t) (c_model t) (c_count t) tot)
                 ts tot) = true.
Proof.
  induction ts as [|t ts IH]; simpl; intros Hts tot Htot.
  - split; [reflexivity | exact Htot].
  - apply andb_true_iff in Hts. destruct Hts as [Ht Hts].
    apply andb_true_iff in Ht. destruct Ht as [Hf Hm].
    rewrite (usage_add_pair t tot Hf Hm Htot).
    apply (IH Hts). now apply pair_add_no_colon.
Qed.

(** The three nested loops of [autoSelectTopN] enter the counts of the
    window one by one. *)
Lemma usage_family_counts (family : string) (counts : list (string * Z)) :
  forall u,
    usage_family family u counts
    = fold_left add_count
        (map (fun mc => (family, fst mc, snd mc))
             (List.filter (fun mc => negb (String.eqb (fst mc) "_subtotal")) counts))
        u.
Proof.
  unfold usage_family.
  induction counts as [|[model count] counts IH]; intros u; simpl; [reflexivity|].
  destruct (negb (String.eqb model "_subtotal")); simpl; apply IH.
Qed.

Lemma usage_entry_counts (u : Usage) (kv : string * Value) :
  match snd kv with
  | VNull => String.eqb (fst kv) "_total"
  | _ => true
  end = true ->
  usage_entry (Some u) kv = Some (fold_left add_count (entry_counts kv) u).
Proof.
  destruct kv as [family v]. unfold usage_entry, entry_counts. simpl.
  destruct v as [| |n|counts]; simpl; intros Hok; try reflexivity.
  - now rewrite Hok.
  - destruct (String.eqb family "_total"); simpl; [reflexivity|].
    now rewrite usage_family_counts.
Qed.

Lemma usage_entries_counts (hourData : Bucket) :
  forallb (fun kv => match snd kv with
                     | VNull => String.eqb (fst kv) "_total"
                     | _ => true
                     end) hourData = true ->
  forall u,
    fold_left usage_entry hourData (Some u)
    = Some (fold_left add_count (flat_map entry_counts hourData) u).
Proof.
  induction hourData as [|kv hd IH]; simpl; intros Hok u; [reflexivity|].
  apply andb_true_iff in Hok. destruct Hok as [Hkv Hok].
  rewrite (usage_entry_counts u kv Hkv), (IH Hok), fold_left_app. reflexivity.
Qed.

Lemma usage_of_counts (dayAgo : Z) (history : History) :
  no_null_family dayAgo history = true ->
  forall u,
    fold_left (usage_bucket dayAgo) history (Some u)
    = Some (fold_left add_count (window_counts dayAgo history) u).
Proof.
  unfold no_null_family, window_counts.
  induction history as [|[ts hd] history IH]; simpl; intros Hok u; [reflexivity|].
  apply andb_true_iff in Hok. destruct Hok as [Hb Hok].
  rewrite fold_left_app. destruct (ts <? dayAgo); simpl in *.
  - apply (IH Hok).
  - rewrite (usage_entries_counts hd Hb). apply (IH Hok).
Qed.

(** [pair_totals] holds each pair of the counts once, with the sum of its
    counts. *)
Lemma same_pair_eq (f m : string) (t : Count) :
  same_pair f m t = true <-> fst t = (f, m).
Proof.
  destruct t as [[f' m'] c]. unfold same_pair, c_family, c_model. simpl.
  rewrite andb_true_iff, !String.eqb_eq. split.
  - now intros [-> ->].
  - now intros [= -> ->].
Qed.

Lemma existsb_same_pair (f m : string) (tot : list Count) :
  existsb (same_pair f m) tot = true <-> In (f, m) (map fst tot).
Proof.
  rewrite existsb_exists, in_map_iff. split.
  - intros (t & Hin & Hs). exists t. split; [now apply same_pair_eq | exact Hin].
  - intros (t & Hk & Hin). exists t. split; [exact Hin | now apply same_pair_eq].
Qed.

Lemma pair_add_keys (f m : string) (c : Z) (tot : list Count) :
  map fst (pair_add f m c tot)
  = if existsb (same_pair f m) tot then map fst tot else map fst tot ++ [(f, m)].
Proof.
  induction tot as [|t tot IH]; simpl; [reflexivity|].
  fold (same_pair f m t).
  destruct (same_pair f m t) eqn:Hs; simpl.
  - apply same_pair_eq in Hs. now rewrite Hs.
  - rewrite IH. now destruct (existsb (same_pair f m) tot).
Qed.

Lemma pair_add_NoDup (f m : string) (c : Z) (tot : list Count) :
  NoDup (map fst tot) -> NoDup (map fst (pair_add f m c tot)).
Proof.
  intros Hnd. rewrite pair_add_keys.
  destruct (existsb (same_pair f m) tot) eqn:Hex; [exact Hnd|].
  apply NoDup_app. split; [exact Hnd|]. split.
  - intros k Hk Hin. apply list_elem_of_In in Hin. simpl in Hin.
    destruct Hin as [<-|[]].
    apply list_elem_of_In, existsb_same_pair in Hk. congruence.
  - apply NoDup_singleton.
Qed.

Lemma total_of_pair_add (f m : string) (c : Z) (tot : list Count) (f' m' : string) :
  total_of f' m' (pair_add f m c tot)
  = if String.eqb f f' && String.eqb m m'
    then Some (default 0 (total_of f m tot) + c)
    else total_of f' m' tot.
Proof.
  induction tot as [|[[f0 m0] c0] tot IH]; simpl;
    unfold same_pair, c_family, c_model, c_count; simpl.
  - now destruct (String.eqb f f' && String.eqb m m').
  - destruct (String.eqb_spec f0 f); destruct (String.eqb_spec m0 m); simpl;
      unfold same_pair, c_family, c_model, c_count; simpl;
      rewrite ?IH; subst;
      repeat match goal with
             | |- context [String.eqb ?a ?b] =>
                 destruct (String.eqb_spec a b); subst; simpl
             end;
      reflexivity || congruence.
Qed.

Lemma NoDup_total_of (tot : list Count) (t : Count) :
  NoDup (map fst tot) -> In t tot ->
  total_of (c_family t) (c_model t) tot = Some (c_count t).
Proof.
  induction tot as [|t0 tot IH]; simpl; intros Hnd Hin; [destruct Hin|].
  apply NoDup_cons in Hnd. destruct Hnd as [Hnot Hnd].
  destruct Hin as [->|Hin].
  - assert (Hs : same_pair (c_family t) (c_model t) t = true)
      by (apply same_pair_eq; now destruct t as [[? ?] ?]).
    now rewrite Hs.
  - destruct (same_pair (c_family t) (c_model t) t0) eqn:Hs; [|now apply IH].
    exfalso. apply Hnot. apply same_pair_eq in Hs. rewrite Hs.
    apply list_elem_of_In, in_map_iff. exists t.
    split; [now destruct t as [[? ?] ?] | exact Hin].
Qed.

Lemma pair_totals_fold (ts : list Count) :
  forall tot,
    NoDup (map fst tot) ->
    let tot' := fold_left (fun tot t => pair_add (c_family t) (c_model t) (c_count t) tot)
                          ts tot in
    NoDup (map fst tot') /\
    (forall k, In k (map fst tot') <-> In k (map fst tot) \/ In k (map fst ts)) /\
    (forall t, In t tot' ->
               c_count t = default 0 (total_of (c_family t) (c_model t) tot)
                           + pair_usage (c_family t) (c_model t) ts).
Proof.
  induction ts as [|t0 ts IH]; intros tot Hnd; simpl.
  - split; [exact Hnd|]. split; [intros k; tauto|].
    intros t Hin. rewrite (NoDup_total_of tot t Hnd Hin).
    unfold pair_usage. simpl. lia.
  - destruct (IH (pair_add (c_family t0) (c_model t0) (c_count t0) tot)
                (pair_add_NoDup _ _ _ _ Hnd)) as (Hnd' & Hkeys & Hsum).
    split; [exact Hnd'|]. split.
    + intros k. rewrite Hkeys, pair_add_keys.
      destruct (existsb (same_pair (c_family t0) (c_model t0)) tot) eqn:Hex.
      * apply existsb_same_pair in Hex.
        assert (Hk0 : fst t0 = (c_family t0, c_model t0))
          by now destruct t0 as [[? ?] ?].
        rewrite Hk0. split; [tauto|]. intros [H|[<-|H]]; auto.
      * rewrite in_app_iff. simpl.
        assert (Hk0 : fst t0 = (c_family t0, c_model t0))
          by now destruct t0 as [[? ?] ?].
        rewrite Hk0. tauto.
    + intros t Hin. rewrite (Hsum t Hin), total_of_pair_add.
      unfold pair_usage. simpl. unfold same_pair at 2.
      rewrite (String.eqb_sym (c_family t0)), (String.eqb_sym (c_model t0)).
      destruct (String.eqb_spec (c_family t) (c_family t0)) as [Ef|Ef];
        [destruct (String.eqb_spec (c_model t) (c_model t0)) as [Em|Em]|];
        simpl; try lia.
      rewrite Ef, Em. lia.
Qed.

Lemma pair_totals_spec (ts : list Count) :
  NoDup (map fst (pair_totals ts)) /\
  (forall f m, In (f, m) (map fst (pair_totals ts)) <-> In (f, m) (map fst ts)) /\
  (forall t, In t (pair_totals ts) ->
             c_count t = pair_usage (c_family t) (c_model t) ts).
Proof.
  destruct (pair_totals_fold ts [] (NoDup_nil_2 (A := string * string)))
    as (Hnd & Hkeys & Hsum).
  split; [exact Hnd|]. split.
  - intros f m. rewrite (Hkeys (f, m)). simpl. tauto.
  - intros t Hin. rewrite (Hsum t Hin). simpl. lia.
Qed.

Lemma insert_by_map {A B} (g : A -> B) (cmp : A -> A -> Z) (cmp' : B -> B -> Z) :
  (forall a b, cmp' (g a) (g b) = cmp a b) ->
  forall x l, JS.insert_by cmp' (g x) (map g l) = map g (JS.insert_by cmp x l).
Proof.
  intros Hc x l. induction l as [|y l IH]; simpl; [reflexivity|].
  rewrite Hc. destruct (cmp x y <=? 0); simpl; [reflexivity|]. now rewrite IH.
Qed.

Lemma Array_sort_map {A B} (g : A -> B) (cmp : A -> A -> Z) (cmp' : B -> B -> Z) :
  (forall a b, cmp' (g a) (g b) = cmp a b) ->
  forall l, JS.Array_sort cmp' (map g l) = map g (JS.Array_sort cmp l).
Proof.
  intros Hc l. induction l as [|x l IH]; simpl; [reflexivity|].
  rewrite IH. now apply insert_by_map.
Qed.

Lemma top_entries_pairs (n : nat) (tot : list Count) :
  top_entries n (map pair_key tot)
  = map pair_key
      (firstn n (JS.Array_sort (fun a b => c_count b - c_count a) tot)).
Proof.
  unfold top_entries, JS.slice0.
  rewrite (Array_sort_map pair_key (fun a b => c_count b - c_count a)).
  - apply firstn_map.
  - reflexivity.
Qed.

Lemma In_firstn {A} (n : nat) (l : list A) (x : A) :
  In x (firstn n l) -> In x l.
Proof.
  intros Hin. rewrite <- (firstn_skipn n l). apply in_or_app. now left.
Qed.

Lemma select_key_pair (sel : Selection) (t : Count) :
  no_colon (c_family t) = true -> no_colon (c_model t) = true ->
  select_key sel (fst (pair_key t)) = select_pair sel (c_family t, c_model t).
Proof.
  intros Hf Hm. destruct sel as [fams mods].
  unfold select_key, select_pair, pair_key. simpl.
  now rewrite (split_pair _ _ Hf Hm).
Qed.

Lemma fold_select_keys (top : list Count) :
  names_without_colon top = true ->
  forall sel,
    fold_left select_key (map fst (map pair_key top)) sel
    = fold_left select_pair (map (fun t => (c_family t, c_model t)) top) sel.
Proof.
  unfold names_without_colon.
  induction top as [|t top IH]; simpl; intros Hall sel; [reflexivity|].
  apply andb_true_iff in Hall. destruct Hall as [Ht Hall].
  apply andb_true_iff in Ht. destruct Ht as [Hf Hm].
  rewrite <- (IH Hall). f_equal. apply (select_key_pair sel t Hf Hm).
Qed.

(** The selection after the pairs [ps] have been entered. *)
Lemma fold_select_pair (ps : list (string * string)) :
  forall sel : Selection,
    let sel' := fold_left select_pair ps sel in
    (forall f, In f (fst sel') <-> In f (fst sel) \/ In f (map fst ps)) /\
    (forall f, snd sel' !! f
               = match models_of f ps with
                 | [] => snd sel !! f
                 | ms => Some (default [] (snd sel !! f) ++ ms)
                 end).
Proof.
  induction ps as [|[f0 m0] ps IH]; intros sel; simpl.
  - split; [intros f; tauto | reflexivity].
  - destruct (IH (select_pair sel (f0, m0))) as [Hf Hm]. split.
    + intros f. rewrite Hf. unfold select_pair. simpl.
      destruct (Array_includes (fst sel) f0) eqn:Hinc; simpl.
      * apply Array_includes_In in Hinc.
        split; [tauto|]. intros [H|[<-|H]]; auto.
      * rewrite in_app_iff. simpl. tauto.
    + intros f. rewrite Hm. unfold models_of, select_pair. simpl.
      destruct (String.eqb_spec f0 f) as [->|Hne]; simpl.
      * rewrite lookup_alter_eq.
        destruct (snd sel !! f) as [l|] eqn:Hl.
        -- rewrite Hl. simpl.
           destruct (map snd (List.filter _ ps)); simpl; [reflexivity|].
           now rewrite <- app_assoc.
        -- rewrite lookup_insert_eq. simpl.
           destruct (map snd (List.filter _ ps)); reflexivity.
      * rewrite lookup_alter_ne by exact Hne.
        destruct (snd sel !! f0); [reflexivity|].
        now rewrite lookup_insert_ne by exact Hne.
Qed.

Lemma selection_savePreferences (s : State) :
  selectedFamilies (savePreferences s) = selectedFamilies s /\
  selectedModels (savePreferences s) = selectedModels s.
Proof. unfold savePreferences. now destruct (storageWritable s). Qed.

Lemma models_of_In (f m : string) (ps : list (string * string)) :
  In m (models_of f ps) <-> In (f, m) ps.
Proof.
  unfold models_of. rewrite in_map_iff. split.
  - intros ([f' m'] & <- & Hin). apply filter_In in Hin. simpl in Hin.
    destruct Hin as [Hin Heq]. apply String.eqb_eq in Heq. now subst.
  - intros Hin. exists (f, m). split; [reflexivity|].
    apply filter_In. split; [exact Hin | apply String.eqb_refl].
Qed.

Lemma usage_of_pairs (dayAgo : Z) (history : History) :
  no_null_family dayAgo history = true ->
  names_without_colon (window_counts dayAgo history) = true ->
  usage_of dayAgo history
  = Some (map pair_key (pair_totals (window_counts dayAgo history))) /\
  names_without_colon (pair_totals (window_counts dayAgo history)) = true.
Proof.
  intros Hnull Hcolon.
  destruct (usage_fold _ Hcolon [] eq_refl) as [Hu Htot]. simpl in Hu.
  split; [|exact Htot].
  unfold usage_of.
  etransitivity; [exact (usage_of_counts dayAgo history Hnull [])|].
  f_equal. exact Hu.
Qed.

(** On a feed whose family and model names hold no colon (and no [null]
    under a family key), [autoSelectTopN] reaches its last statement, and
    the selection it has assigned by then holds exactly the first [n] pairs
    by total usage of the window and their families, whatever was selected
    before. *)
Theorem autoSelectTopN_selects_top_pairs (n : option nat) (clock : Clock) (s : State) :
  let dayAgo := now clock - 24 * 60 * 60 * 1000 in
  let ts := window_counts dayAgo (historyData s) in
  let top := top_pairs (default 5%nat n) ts in
  no_null_family dayAgo (historyData s) = true ->
  names_without_colon ts = true ->
  exists s',
    autoSelectTopN n clock s = Throws s' /\
    (forall f, isFamilySelected s' f = true <-> exists t, In t top /\ c_family t = f) /\
    (forall f m, isModelSelected s' f m = true <->
                 exists t, In t top /\ c_family t = f /\ c_model t = m) /\
    (forall f, selectedModels s' !! f
               = match models_of f (map (fun t => (c_family t, c_model t)) top) with
                 | [] => None
                 | ms => Some ms
                 end).
Proof.
  intros dayAgo ts top Hnull Hcolon.
  destruct (usage_of_pairs dayAgo (historyData s) Hnull Hcolon) as [Hu Htot].
  fold ts in Hu, Htot.
  unfold autoSelectTopN. cbv zeta. fold dayAgo. rewrite Hu. simpl.
  rewrite top_entries_pairs. fold (top_pairs (default 5%nat n) ts). fold top.
  assert (Htop : names_without_colon top = true).
  { unfold names_without_colon in *. rewrite forallb_forall in *.
    intros t Ht. apply Htot. apply In_firstn in Ht.
    now apply Array_sort_In in Ht. }
  rewrite (fold_select_keys top Htop).
  destruct (fold_select_pair (map (fun t => (c_family t, c_model t)) top) ([], ∅))
    as [Hfam Hmod].
  destruct (fold_left select_pair _ _) as [fams mods]. simpl in Hfam, Hmod.
  eexists. split; [reflexivity|].
  unfold isFamilySelected, isModelSelected.
  destruct (selection_savePreferences (set_selection fams mods s)) as [-> ->].
  simpl.
  assert (Hmods : forall f, mods !! f
            = match models_of f (map (fun t => (c_family t, c_model t)) top) with
              | [] => None
              | ms => Some ms
              end).
  { intros f. rewrite Hmod, lookup_empty. reflexivity. }
  split; [|split].
  - intros f. rewrite Array_includes_In, Hfam, map_map, in_map_iff. simpl.
    split.
    + intros [[]|(t & Hf & Ht)]. exists t. auto.
    + intros (t & Ht & Hf). right. exists t. auto.
  - intros f m. rewrite Hmods.
    assert (Hiff : In m (models_of f (map (fun t => (c_family t, c_model t)) top))
                   <-> exists t, In t top /\ c_family t = f /\ c_model t = m).
    { rewrite models_of_In, in_map_iff. split.
      - intros (t & Heq & Ht). injection Heq as Hf Hm. exists t. auto.
      - intros (t & Ht & Hf & Hm). exists t. split; [congruence | exact Ht]. }
    destruct (models_of f _) as [|m1 ms].
    + split; [discriminate|]. intros Hex. apply Hiff in Hex. destruct Hex.
    + rewrite Array_includes_In. exact Hiff.
  - exact Hmods.
Qed.

(** The scenario of the specification: with [n = 2] and usage
    [claude:sonnet = 10], [claude:opus = 30], [gemini:flash = 5] in the
    window, the selection becomes [claude] with [opus] and [sonnet],
    whatever was selected before. *)
Example autoSelectTopN_scenario :
  (fun s => (selectedFamilies s, map_to_list (selectedModels s)))
    (final_state (autoSelectTopN (Some 2%nat) Examples.clock Examples.after_family_off))
  = (["claude"], [("claude", ["opus"; "sonnet"])]).
Proof. vm_compute. reflexivity. Qed.

(** ** Properties of the selection *)

(** C3 (the code departs from it): the refresh after the first is meant
    to add only what is new and never to revert a deselection.  After the
    first refresh of a feed with [claude/opus], the user deselects that
    model; the next refresh of the same feed runs the extension branch
    (the selection is not empty) and selects [claude/opus] again.  The
    same happens to a deselected family, and after [deselectAll] the
    refresh takes the first-run branch and selects everything. *)
Theorem C3_refresh_reselects_deselected :
  isModelSelected Examples.after_first "claude" "opus" = true /\
  isModelSelected Examples.after_deselect "claude" "opus" = false /\
  selectedFamilies Examples.after_deselect = ["claude"; "gemini"] /\
  isModelSelected Examples.after_refresh "claude" "opus" = true /\
  isFamilySelected Examples.after_family_off "gemini" = false /\
  isFamilySelected Examples.after_family_refresh "gemini" = true /\
  selectedFamilies (deselectAll Examples.after_first) = [] /\
  selectedFamilies Examples.after_deselectAll_refresh = ["claude"; "gemini"] /\
  isModelSelected Examples.after_deselectAll_refresh "claude" "opus" = true.
Proof. repeat split; vm_compute; reflexivity. Qed.

(** C8 (the code departs from it): the selection is meant to hold exactly
    the top pairs.  The pair is packed into the key ["family:model"] and
    unpacked with [split(':')], which keeps only the text before the
    model's first colon: for the single pair [gemini] / [2.5:pro] the
    selection that the call leaves holds the model [2.5], which does not
    exist, and not [2.5:pro]. *)
Theorem C8_colon_in_model_name_is_cut :
  usage_of (now Examples.clock - 24 * 60 * 60 * 1000) Examples.history_colon
  = Some [("gemini:2.5:pro", 3)] /\
  selectedFamilies (final_state (autoSelectTopN None Examples.clock Examples.state_colon))
  = ["gemini"] /\
  selectedModels (final_state (autoSelectTopN None Examples.clock Examples.state_colon))
    !! "gemini"
  = Some ["2.5"] /\
  isModelSelected (final_state (autoSelectTopN None Examples.clock Examples.state_colon))
    "gemini" "2.5:pro"
  = false.
Proof. repeat split; vm_compute; reflexivity. Qed.

(** * Further properties of the data store *)

Import Cover.

(** ** Sorting and filtering commute *)

Section SortFilter.
Context {A : Type} (cmp : A -> A -> Z) (P : A -> bool).
Hypothesis cmp_total : forall a b, 0 < cmp a b -> cmp b a <= 0.
Hypothesis cmp_trans : forall a b c, cmp a b <= 0 -> cmp b c <= 0 -> cmp a c <= 0.

Lemma insert_by_front (x : A) (l : list A) :
  Forall (precedes cmp x) l -> JS.insert_by cmp x l = x :: l.
Proof.
  destruct l as [|y l]; [reflexivity|]. intros Hall.
  apply List.Forall_inv in Hall. unfold precedes in Hall. simpl.
  apply Z.leb_le in Hall. now rewrite Hall.
Qed.

Lemma filter_insert_by (x : A) (l : list A) :
  StronglySorted (precedes cmp) l ->
  List.filter P (JS.insert_by cmp x l)
  = if P x then JS.insert_by cmp x (List.filter P l) else List.filter P l.
Proof.
  induction 1 as [|y l Hs IH Hall]; simpl.
  - now destruct (P x).
  - destruct (Z.leb_spec (cmp x y) 0) as [Hle|Hgt].
    + cbn [List.filter]. destruct (P x); [|reflexivity].
      symmetry. apply insert_by_front.
      apply List.Forall_forall. intros z Hz.
      assert (Hz' : In z (y :: l)).
      { destruct (P y); [|right; now apply filter_In in Hz].
        destruct Hz as [<-|Hz]; [now left|]. right. now apply filter_In in Hz. }
      destruct Hz' as [<-|Hz']; [exact Hle|].
      rewrite List.Forall_forall in Hall.
      eapply cmp_trans; [exact Hle | apply Hall, Hz'].
    + cbn [List.filter]. rewrite IH.
      destruct (P y), (P x); try reflexivity.
      simpl. destruct (Z.leb_spec (cmp x y) 0); [lia | reflexivity].
Qed.

Lemma filter_Array_sort (l : list A) :
  List.filter P (JS.Array_sort cmp l) = JS.Array_sort cmp (List.filter P l).
Proof.
  induction l as [|x l IH]; [reflexivity|].
  cbn [JS.Array_sort fold_right List.filter].
  fold (JS.Array_sort cmp l).
  rewrite filter_insert_by by (apply Array_sort_sorted; assumption).
  rewrite IH. now destruct (P x).
Qed.

End SortFilter.

Lemma omap_filter {A B} (f g : A -> option B) (P : B -> bool) (l : list A) :
  (forall x, g x = match f x with
                   | Some y => if P y then Some y else None
                   | None => None
                   end) ->
  omap g l = List.filter P (omap f l).
Proof.
  intros Hfg. induction l as [|x l IH]; [reflexivity|].
  change (omap g (x :: l))
    with (match g x with Some y => y :: omap g l | None => omap g l end).
  change (omap f (x :: l))
    with (match f x with Some y => y :: omap f l | None => omap f l end).
  rewrite (Hfg x). destruct (f x) as [y|]; [|exact IH].
  cbn [List.filter]. destruct (P y); now rewrite IH.
Qed.

Section MoreRowFacts.
Context `{Utils}.

Lemma computeQuotaRows_omap (st : Store) (settings : option Settings) :
  computeQuotaRows st settings
  = JS.Array_sort compareRows
      (omap (row_of st (default true (settings ≫= showExhausted))) (models st)).
Proof.
  unfold computeQuotaRows, push_row. now rewrite fold_left_push.
Qed.

Lemma row_of_exhausted (st : Store) (mid : string) :
  row_of st false mid
  = match row_of st true mid with
    | Some r => if negb (minQuota r =? 0) then Some r else None
    | None => None
    end.
Proof.
  unfold row_of.
  destruct (isHidden _ _); [reflexivity|].
  destruct (negb (passes_model_filters _ _ _)); [reflexivity|].
  destruct (length _ =? 0)%nat; [reflexivity|].
  simpl. now destruct (c_minQuota (collect st mid) =? 0).
Qed.

Lemma row_of_filters (st : Store) (showExh : bool) (mid : string) (r : QuotaRow) :
  row_of st showExh mid = Some r ->
  passes_model_filters (filters st) mid (getModelFamily mid) = true /\
  family r = getModelFamily mid /\
  hidden r = false /\
  displayName r = mid /\
  minResetTime r = c_minResetTime (collect st mid) /\
  resetIn r = match c_minResetTime (collect st mid) with
              | Some t => formatTimeUntil t
              | None => "-"
              end /\
  (showExh = false -> minQuota r <> 0).
Proof.
  unfold row_of.
  destruct (isHidden (config_of st mid) (getModelFamily mid)) eqn:Hh; [discriminate|].
  destruct (passes_model_filters _ _ _); [|discriminate]. simpl.
  destruct (length _ =? 0)%nat; [discriminate|].
  destruct showExh; simpl.
  - intros [= <-]. simpl. repeat split; try reflexivity. discriminate.
  - destruct (Z.eqb_spec (c_minQuota (collect st mid)) 0); [discriminate|].
    intros [= <-]. simpl. repeat split; try reflexivity. now intros _.
Qed.

End MoreRowFacts.

(** X1: a model whose configuration says [hidden: true] never appears in
    the output of [computeQuotaRows], whatever the filters and settings. *)
Theorem X1_hidden_model_never_listed `{Utils} (st : Store) (mid : string) :
  cfg_hidden (config_of st mid) = Some true ->
  forall fl settings r,
    In r (computeQuotaRows (with_filters fl st) settings) -> modelId r <> mid.
Proof.
  intros Hcfg fl settings r Hin Hid.
  apply In_computeQuotaRows in Hin. destruct Hin as (mid' & _ & Hrow).
  apply row_of_Some in Hrow. destruct Hrow as (Hid' & Hhid & _).
  rewrite Hid in Hid'. subst mid'.
  change (config_of (with_filters fl st) mid) with (config_of st mid) in Hhid.
  unfold isHidden in Hhid. rewrite Hcfg in Hhid. discriminate.
Qed.

Lemma X1_hidden_model_never_listed_witness :
  cfg_hidden (config_of store_hidden "claude-sonnet") = Some true /\
  forall r, In r (computeQuotaRows (H := Examples.utils)
                    (with_filters Examples.no_filters store_hidden) None) ->
            modelId r <> "claude-sonnet".
Proof.
  assert (Hc : cfg_hidden (config_of store_hidden "claude-sonnet") = Some true)
    by (vm_compute; reflexivity).
  split; [exact Hc|].
  exact (X1_hidden_model_never_listed (H := Examples.utils) store_hidden
           "claude-sonnet" Hc Examples.no_filters None).
Defined.

(** X2: with [showExhausted] false, [computeQuotaRows] returns the rows it
    returns with [showExhausted] true (the default) minus exactly those
    whose [minQuota] is 0, in the same order. *)
Theorem X2_showExhausted_drops_exactly_zero_rows `{Utils} (st : Store)
  (showHid showHid' : option bool) :
  computeQuotaRows st (settings_of (Some false) showHid)
  = List.filter (fun r => negb (minQuota r =? 0))
                (computeQuotaRows st (settings_of (Some true) showHid')) /\
  computeQuotaRows st None = computeQuotaRows st (settings_of (Some true) showHid') /\
  computeQuotaRows st (settings_of None showHid)
  = computeQuotaRows st (settings_of (Some true) showHid').
Proof.
  split; [|split; reflexivity].
  rewrite !computeQuotaRows_omap. simpl.
  rewrite (filter_Array_sort compareRows _ compareRows_total compareRows_trans).
  f_equal. apply omap_filter. intros mid. apply row_of_exhausted.
Qed.

(** X3: when the model list holds no id twice, no two rows of
    [computeQuotaRows] have the same [modelId]. *)
Theorem X3_one_row_per_model `{Utils} (st : Store) (settings : option Settings) :
  NoDup (models st) ->
  NoDup (map modelId (computeQuotaRows st settings)).
Proof.
  intros Hnd. rewrite computeQuotaRows_omap.
  apply (proj2 (NoDup_Permutation_proper _ _
                  (Permutation_map modelId (Array_sort_Permutation compareRows _)))).
  generalize (default true (settings ≫= showExhausted)) as e. intros e.
  induction Hnd as [|mid mids Hnot Hnd IH]; simpl; [constructor|].
  destruct (row_of st e mid) as [r|] eqn:Hrow; [|exact IH].
  simpl. constructor; [|exact IH].
  apply row_of_Some in Hrow. destruct Hrow as (-> & _).
  intros Hin. apply Hnot. apply list_elem_of_In.
  apply list_elem_of_In, in_map_iff in Hin. destruct Hin as (r' & Heq & Hin).
    apply In_omap in Hin. destruct Hin as (mid' & Hmid' & Hrow').
    apply row_of_Some in Hrow'. destruct Hrow' as (Hid' & _).
    congruence.
Qed.

Lemma X3_one_row_per_model_witness :
  NoDup (models Examples.store_two) /\
  NoDup (map modelId (computeQuotaRows (H := Examples.utils) Examples.store_two None)).
Proof.
  assert (Hnd : NoDup (models Examples.store_two)).
  { simpl. repeat (constructor; [rewrite list_elem_of_In; simpl; intuition discriminate|]).
    constructor. }
  split; [exact Hnd|].
  exact (X3_one_row_per_model (H := Examples.utils) Examples.store_two None Hnd).
Defined.

(** X4: every row of [computeQuotaRows] carries the family computed from
    its id and is not hidden; under a family filter other than ["all"]
    every row has that family, and under a non-empty search text every
    row's id contains the text, both compared in lower case. *)
Theorem X4_model_filters_hold_on_every_row `{Utils} (st : Store)
  (settings : option Settings) (r : QuotaRow) :
  In r (computeQuotaRows st settings) ->
  family r = getModelFamily (modelId r) /\
  hidden r = false /\
  (f_family (filters st) <> "all" -> family r = f_family (filters st)) /\
  (f_search (filters st) <> EmptyString ->
   JS.includes (JS.toLowerCase (modelId r)) (JS.toLowerCase (f_search (filters st)))
   = true).
Proof.
  intros Hin. apply In_computeQuotaRows in Hin. destruct Hin as (mid & _ & Hrow).
  destruct (row_of_Some _ _ _ _ Hrow) as (Hid & _).
  destruct (row_of_filters _ _ _ _ Hrow) as (Hpass & Hfam & Hhid & _).
  rewrite Hid, Hfam. split; [reflexivity|]. split; [exact Hhid|].
  unfold passes_model_filters in Hpass. apply andb_true_iff in Hpass.
  destruct Hpass as [Hf Hs]. split.
  - intros Hne. apply negb_true_iff, andb_false_iff in Hf.
    destruct Hf as [Hf|Hf]; apply negb_false_iff, String.eqb_eq in Hf; congruence.
  - intros Hne. unfold JS.truthy_string in Hs.
    apply String.eqb_neq in Hne. now rewrite Hne in Hs.
Qed.

Lemma X4_model_filters_hold_on_every_row_witness :
  In row_opus_r1 (computeQuotaRows (H := Examples.utils)
                    (with_filters filters_narrow store_reset) None) /\
  family row_opus_r1 = "claude" /\
  JS.includes (JS.toLowerCase (modelId row_opus_r1)) (JS.toLowerCase "OPUS") = true.
Proof.
  assert (Hi : In row_opus_r1 (computeQuotaRows (H := Examples.utils)
                                 (with_filters filters_narrow store_reset) None))
    by (vm_compute; left; reflexivity).
  split; [exact Hi|].
  destruct (X4_model_filters_hold_on_every_row (H := Examples.utils)
              (with_filters filters_narrow store_reset) None row_opus_r1 Hi)
    as (_ & _ & Hf & Hs).
  split; [apply Hf; discriminate | apply Hs; discriminate].
Defined.

(** X5: under an account filter other than ["all"], every [quotaInfo]
    entry of every row belongs to that account. *)
Theorem X5_account_filter_holds_on_every_entry `{Utils} (st : Store)
  (settings : option Settings) (r : QuotaRow) (q : QuotaInfo) :
  f_account (filters st) <> "all" ->
  In r (computeQuotaRows st settings) ->
  In q (quotaInfo r) ->
  fullEmail q = f_account (filters st).
Proof.
  intros Hne Hin Hq. apply In_computeQuotaRows in Hin.
  destruct Hin as (mid & _ & Hrow).
  destruct (row_of_Some _ _ _ _ Hrow) as (_ & _ & Hqi & _).
  destruct (collect_spec st mid) as (He & _).
  assert (Hmem : In (fullEmail q) (map fullEmail (quotaInfo r)))
    by (apply in_map, Hq).
  rewrite Hqi, He in Hmem. apply in_map_iff in Hmem.
  destruct Hmem as (acc & Heq & Hacc). apply filter_In in Hacc.
  destruct Hacc as [_ Hc]. unfold contributes in Hc.
  apply andb_true_iff in Hc. destruct Hc as [Hp _].
  unfold passes_account_filter in Hp.
  apply negb_true_iff, andb_false_iff in Hp.
  destruct Hp as [Hp|Hp]; apply negb_false_iff, String.eqb_eq in Hp; congruence.
Qed.

Lemma X5_account_filter_holds_on_every_entry_witness :
  f_account filters_narrow <> "all" /\
  In row_opus_r1 (computeQuotaRows (H := Examples.utils)
                    (with_filters filters_narrow store_reset) None) /\
  fullEmail {| qi_email := "r1"; fullEmail := "r1@x.com"; pct := 50;
               qi_resetTime := Some 9000 |} = "r1@x.com".
Proof.
  assert (Hne : f_account (filters (with_filters filters_narrow store_reset)) <> "all")
    by discriminate.
  assert (Hi : In row_opus_r1 (computeQuotaRows (H := Examples.utils)
                                 (with_filters filters_narrow store_reset) None))
    by (vm_compute; left; reflexivity).
  split; [exact Hne|]. split; [exact Hi|].
  apply (X5_account_filter_holds_on_every_entry (H := Examples.utils)
           (with_filters filters_narrow store_reset) None row_opus_r1 _ Hne Hi).
  simpl. left. reflexivity.
Defined.

(** ** The earliest reset time *)

Lemma collect_reset (fl : Filters) (mid : string) (accs : list Account) :
  forall c,
    c_minResetTime (fold_left (collect_step fl mid) accs c)
    = fold_left earlier (reset_times fl mid accs) (c_minResetTime c).
Proof.
  unfold reset_times.
  induction accs as [|acc accs IH]; intros c; [reflexivity|].
  cbn [fold_left List.filter]. rewrite IH.
  unfold collect_step, contributes.
  destruct (passes_account_filter fl acc); simpl; [|reflexivity].
  destruct (limit_of acc mid) as [l|] eqn:Hl; simpl; [|reflexivity].
  rewrite Hl. simpl. unfold earlier_reset.
  destruct (resetTime l) as [t|]; simpl; [|reflexivity].
  destruct (c_minResetTime c) as [m|]; simpl; [|reflexivity].
  change (earlier (Some m) t) with (Some (if t <? m then t else m)).
  destruct (t <? m); reflexivity.
Qed.

Lemma fold_earlier (ts : list Z) :
  forall cur,
    match fold_left earlier ts cur with
    | None => ts = [] /\ cur = None
    | Some t => (In t ts \/ cur = Some t) /\
                Forall (fun t' => t <= t') ts /\
                (forall m, cur = Some m -> t <= m)
    end.
Proof.
  induction ts as [|t0 ts IH]; intros cur; simpl.
  - destruct cur as [m|]; [|now split].
    split; [now right|]. split; [constructor|]. intros m' [= ->]. lia.
  - specialize (IH (earlier cur t0)).
    destruct (fold_left earlier ts (earlier cur t0)) as [t|]; [|now destruct IH].
    destruct IH as (Hin & Hall & Hcur).
    assert (Ht0 : t <= t0 /\ (forall m, cur = Some m -> t <= m)).
    { unfold earlier in Hcur. destruct cur as [m|].
      - destruct (Z.ltb_spec t0 m).
        + specialize (Hcur t0 eq_refl). split; [lia|]. intros m' [= <-]. lia.
        + specialize (Hcur m eq_refl). split; [lia|]. intros m' [= <-]. lia.
      - specialize (Hcur t0 eq_refl). split; [lia|]. discriminate. }
    destruct Ht0 as [Ht0 Hm]. split; [|split; [constructor; assumption | exact Hm]].
    destruct Hin as [Hin|Heq]; [left; now right|].
    unfold earlier in Heq. injection Heq as Heq. destruct cur as [m|].
    + destruct (t0 <? m); [left; now left | right; now subst].
    + left. now left.
Qed.

(** X6: the [minResetTime] of a row is the earliest reset time among the
    accounts that contribute to it, and [null] exactly when none of them
    has one; [resetIn] is ["-"] in that case and the formatted time
    otherwise. *)
Theorem X6_minResetTime_is_earliest `{Utils} (st : Store)
  (settings : option Settings) (r : QuotaRow) :
  In r (computeQuotaRows st settings) ->
  let ts := reset_times (filters st) (modelId r) (accounts st) in
  match minResetTime r with
  | None => ts = [] /\ resetIn r = "-"
  | Some t => In t ts /\ Forall (fun t' => t <= t') ts /\
              resetIn r = formatTimeUntil t
  end.
Proof.
  intros Hin. apply In_computeQuotaRows in Hin. destruct Hin as (mid & _ & Hrow).
  destruct (row_of_Some _ _ _ _ Hrow) as (Hid & _).
  destruct (row_of_filters _ _ _ _ Hrow) as (_ & _ & _ & _ & Hmin & Hres & _).
  rewrite Hid, Hmin, Hres. simpl. unfold collect.
  rewrite collect_reset. simpl.
  pose proof (fold_earlier (reset_times (filters st) mid (accounts st)) None) as Hf.
  destruct (fold_left earlier _ None) as [t|].
  - destruct Hf as ([Hin|Heq] & Hall & _); [|discriminate]. now repeat split.
  - destruct Hf as [Hnil _]. now split.
Qed.

Lemma X6_minResetTime_is_earliest_witness :
  In row_opus (computeQuotaRows (H := Examples.utils) store_reset None) /\
  In 4000 [9000; 4000] /\ Forall (fun t' => 4000 <= t') [9000; 4000] /\
  resetIn row_opus = "soon".
Proof.
  assert (Hi : In row_opus (computeQuotaRows (H := Examples.utils) store_reset None))
    by (vm_compute; right; left; reflexivity).
  split; [exact Hi|].
  exact (X6_minResetTime_is_earliest (H := Examples.utils) store_reset None row_opus Hi).
Defined.

(** ** The family of a model id *)

Lemma toLowerCase_app (a b : string) :
  JS.toLowerCase (a ++ b)%string = (JS.toLowerCase a ++ JS.toLowerCase b)%string.
Proof. induction a as [|c a IH]; simpl; [reflexivity | now rewrite IH]. Qed.

Lemma prefix_app (b c : string) : String.prefix b (b ++ c)%string = true.
Proof.
  induction b as [|x b IH]; simpl; [now destruct c|].
  destruct (ascii_dec x x); [exact IH | congruence].
Qed.

Lemma includes_app (a b c : string) :
  JS.includes (a ++ b ++ c)%string b = true.
Proof.
  induction a as [|x a IH].
  - change (EmptyString ++ b ++ c)%string with (b ++ c)%string.
    pose proof (prefix_app b c) as Hp.
    destruct (b ++ c)%string; cbn [JS.includes]; now rewrite Hp.
  - change (String x a ++ b ++ c)%string with (String x (a ++ b ++ c)%string).
    cbn [JS.includes]. rewrite IH. apply orb_true_r.
Qed.

(** X7: the family of a model id is one of [claude], [gemini] and
    [other]; an id that contains the word claude in any letter case is of
    family [claude], and one that contains gemini in any letter case, and
    claude in none, is of family [gemini]. *)
Theorem X7_family_by_substring (pre w post : string) :
  (getModelFamily (pre ++ w ++ post)%string = "claude" \/
   getModelFamily (pre ++ w ++ post)%string = "gemini" \/
   getModelFamily (pre ++ w ++ post)%string = "other") /\
  (JS.toLowerCase w = "claude" ->
   getModelFamily (pre ++ w ++ post)%string = "claude") /\
  (JS.toLowerCase w = "gemini" ->
   JS.includes (JS.toLowerCase (pre ++ w ++ post)%string) "claude" = false ->
   getModelFamily (pre ++ w ++ post)%string = "gemini").
Proof.
  split; [|split].
  - unfold getModelFamily.
    destruct (JS.includes _ "claude"); [now left|].
    destruct (JS.includes _ "gemini"); [right; now left | right; now right].
  - intros Hw. unfold getModelFamily.
    rewrite !toLowerCase_app, Hw, includes_app. reflexivity.
  - intros Hw Hno. unfold getModelFamily. rewrite Hno.
    rewrite !toLowerCase_app, Hw, includes_app. reflexivity.
Qed.

Lemma X7_family_by_substring_witness :
  JS.toLowerCase "Claude" = "claude" /\
  getModelFamily "my-Claude-Sonnet" = "claude" /\
  JS.toLowerCase "GEMINI" = "gemini" /\
  getModelFamily "GEMINI-3-pro" = "gemini".
Proof.
  split; [reflexivity|].
  split; [exact (proj1 (proj2 (X7_family_by_substring "my-" "Claude" "-Sonnet")) eq_refl)|].
  split; [reflexivity|].
  exact (proj2 (proj2 (X7_family_by_substring EmptyString "GEMINI" "-3-pro"))
           eq_refl eq_refl).
Defined.

(** ** The table and the global aggregate *)

Lemma pct_collect_unfiltered (st : Store) (mid : string) :
  f_account (filters st) = "all" ->
  map pct (c_quotaInfo (collect st mid))
  = fold_left (unfiltered_step mid) (accounts st) [].
Proof.
  intros Hall. destruct (collect_spec st mid) as (_ & Hp & _).
  rewrite Hp, unfiltered_fold. simpl. clear Hp.
  generalize (accounts st) as accs.
  induction accs as [|acc accs IH]; [reflexivity|].
  cbn [List.filter].
  change (omap (fun a => pct_of <$> limit_of a mid) (acc :: accs))
    with (match pct_of <$> limit_of acc mid with
          | Some y => y :: omap (fun a => pct_of <$> limit_of a mid) accs
          | None => omap (fun a => pct_of <$> limit_of a mid) accs
          end).
  unfold contributes at 1, passes_account_filter. rewrite Hall. simpl.
  destruct (limit_of acc mid) as [l|] eqn:Hl; simpl; [|exact IH].
  rewrite (percentage_pct_of _ _ _ Hl). now rewrite IH.
Qed.

(** X8: with no account, family or search filter, with exhausted rows
    shown and hidden models not shown, the table of [computeQuotaRows] and
    the aggregate of [getUnfilteredQuotaData] hold the same models with
    the same families and percentages; only the order differs. *)
Theorem X8_table_agrees_with_aggregate `{Utils} (st : Store)
  (settings settings' : option Settings) :
  f_account (filters st) = "all" ->
  f_family (filters st) = "all" ->
  f_search (filters st) = EmptyString ->
  default true (settings ≫= showExhausted) = true ->
  default false (settings' ≫= showHiddenModels) = false ->
  Permutation (map row_view (computeQuotaRows st settings))
              (map unfiltered_view (getUnfilteredQuotaData st settings')).
Proof.
  intros Ha Hf Hs He Hh.
  rewrite computeQuotaRows_omap, He.
  eapply perm_trans; [apply Permutation_map, Array_sort_Permutation|].
  unfold getUnfilteredQuotaData, push_unfiltered. rewrite fold_left_push, Hh. simpl.
  assert (Hpt : forall mid,
             row_view <$> row_of st true mid
             = unfiltered_view <$> unfiltered_row_of st false mid).
  { intros mid. unfold row_of, unfiltered_row_of, passes_model_filters.
    rewrite Hf, Hs. simpl.
    destruct (isHidden (config_of st mid) (getModelFamily mid)); [reflexivity|].
    simpl. rewrite <- (pct_collect_unfiltered st mid Ha).
    destruct (c_quotaInfo (collect st mid)); reflexivity. }
  induction (models st) as [|mid mids IH]; [apply perm_nil|].
  change (omap (row_of st true) (mid :: mids))
    with (match row_of st true mid with
          | Some y => y :: omap (row_of st true) mids
          | None => omap (row_of st true) mids
          end).
  change (omap (unfiltered_row_of st false) (mid :: mids))
    with (match unfiltered_row_of st false mid with
          | Some y => y :: omap (unfiltered_row_of st false) mids
          | None => omap (unfiltered_row_of st false) mids
          end).
  specialize (Hpt mid).
  destruct (row_of st true mid) as [r|], (unfiltered_row_of st false mid) as [u|];
    simpl in Hpt; try discriminate; [|exact IH].
  assert (Hv : row_view r = unfiltered_view u) by congruence.
  cbn [map]. rewrite Hv. now apply perm_skip.
Qed.

Lemma X8_table_agrees_with_aggregate_witness :
  f_account (filters store_reset) = "all" /\
  Permutation
    (map row_view (computeQuotaRows (H := Examples.utils) store_reset None))
    (map unfiltered_view (getUnfilteredQuotaData store_reset None)).
Proof.
  split; [reflexivity|].
  exact (X8_table_agrees_with_aggregate (H := Examples.utils) store_reset None None
           eq_refl eq_refl eq_refl eq_refl eq_refl).
Defined.

(** X9: the rows of [getUnfilteredQuotaData] follow the order of the
    model list: their ids form a sub-sequence of it, and every row holds
    at least one percentage. *)
Theorem X9_aggregate_follows_model_order (st : Store) (settings : option Settings) :
  map u_modelId (getUnfilteredQuotaData st settings) `sublist_of` models st /\
  Forall (fun u => u_quotaInfo u <> []) (getUnfilteredQuotaData st settings).
Proof.
  unfold getUnfilteredQuotaData, push_unfiltered. rewrite fold_left_push. simpl.
  generalize (default false (settings ≫= showHiddenModels)) as sh. intros sh.
  assert (Hrow : forall mid u, unfiltered_row_of st sh mid = Some u ->
                               u_modelId u = mid /\ u_quotaInfo u <> []).
  { intros mid u. unfold unfiltered_row_of.
    destruct (_ && _); [discriminate|].
    destruct (fold_left (unfiltered_step mid) (accounts st) []) eqn:Hq;
      [discriminate|].
    simpl. intros [= <-]. simpl. split; [reflexivity | discriminate]. }
  induction (models st) as [|mid mids IH]; [split; constructor|].
  change (omap (unfiltered_row_of st sh) (mid :: mids))
    with (match unfiltered_row_of st sh mid with
          | Some y => y :: omap (unfiltered_row_of st sh) mids
          | None => omap (unfiltered_row_of st sh) mids
          end).
  destruct IH as [IHs IHf].
  destruct (unfiltered_row_of st sh mid) as [u|] eqn:Hu.
  - destruct (Hrow mid u Hu) as [Hid Hne]. split.
    + simpl. rewrite Hid. now apply sublist_skip.
    + now constructor.
  - split; [now apply sublist_cons | exact IHf].
Qed.

(** * Properties of [fetchData] and [updateModelConfig] *)

Import StoreOps CoverOps.

Lemma take_password_keeps (newPassword : option string) (a : App) :
  store (take_password newPassword a) = store a /\
  quotaRows (take_password newPassword a) = quotaRows a /\
  toasts (take_password newPassword a) = toasts a /\
  lastUpdated (take_password newPassword a) = lastUpdated a /\
  connectionStatus (take_password newPassword a) = connectionStatus a.
Proof.
  unfold take_password. destruct newPassword as [p|]; [|now repeat split].
  destruct (JS.truthy_string p); now repeat split.
Qed.

(** X10: when the fetch of the account limits fails (the request rejects,
    the response is not [ok], or its body does not parse), [fetchData]
    leaves accounts, models, configuration, rows and [lastUpdated] as they
    were, sets the status to ["disconnected"], shows exactly one more
    toast, of type ["error"], and ends with [loading] false. *)
Theorem X10_failed_fetch_keeps_the_data `{Utils} `{Translator}
  (settings : option Settings) (timeString : string) (o : LimitsAnswer) (a : App) :
  limits_failed o = true ->
  let a' := fetchData settings timeString o a in
  store a' = store a /\
  quotaRows a' = quotaRows a /\
  lastUpdated a' = lastUpdated a /\
  connectionStatus a' = "disconnected" /\
  toasts a' = toasts a ++ [(translate "connectionLost", "error")] /\
  loading a' = false.
Proof.
  intros Hfail. simpl.
  destruct o as [|np ok body]; simpl in *.
  - now repeat split.
  - destruct (take_password_keeps np a) as (Hs & Hq & Ht & Hl & _).
    destruct ok; simpl in *.
    + destruct body; [discriminate|]. simpl.
      rewrite Hs, Hq, Ht, Hl. now repeat split.
    + rewrite Hs, Hq, Ht, Hl. now repeat split.
Qed.

Lemma X10_failed_fetch_keeps_the_data_witness :
  limits_failed (LimitsResponse None false None) = true /\
  store (fetchData (H := Examples.utils) (H0 := translator) None "10:05"
           (LimitsResponse None false None) app_two) = store app_two /\
  connectionStatus (fetchData (H := Examples.utils) (H0 := translator) None "10:05"
                      (LimitsResponse None false None) app_two) = "disconnected".
Proof.
  split; [reflexivity|].
  destruct (X10_failed_fetch_keeps_the_data (H := Examples.utils) (H0 := translator)
              None "10:05" (LimitsResponse None false None) app_two eq_refl)
    as (Hs & _ & _ & Hc & _).
  split; [exact Hs | exact Hc].
Defined.

(** X11: after a fetch that succeeds, the rows are those of
    [computeQuotaRows] on the new data under the filters kept from before;
    accounts and configuration are replaced by the body's (empty when
    missing), the model list is replaced only by a non-empty list and kept
    otherwise; the status is ["connected"], no toast is added and
    [loading] is false. *)
Theorem X11_successful_fetch_recomputes_rows `{Utils} `{Translator}
  (settings : option Settings) (timeString : string)
  (newPassword : option string) (data : Payload) (a : App) :
  let a' := fetchData settings timeString
              (LimitsResponse newPassword true (Some data)) a in
  quotaRows a' = computeQuotaRows (store a') settings /\
  accounts (store a') = default [] (data_accounts data) /\
  modelConfig (store a') = default ∅ (data_modelConfig data) /\
  models (store a') = (if (length (default [] (data_models data)) =? 0)%nat
                       then models (store a)
                       else default [] (data_models data)) /\
  filters (store a') = filters (store a) /\
  connectionStatus a' = "connected" /\
  lastUpdated a' = timeString /\
  toasts a' = toasts a /\
  loading a' = false.
Proof.
  simpl. destruct (take_password_keeps newPassword a) as (Hs & _ & Ht & _).
  rewrite Hs, Ht. repeat split; try reflexivity.
  destruct (data_models data) as [[|m ms]|]; reflexivity.
Qed.

Section ConfigFacts.
Context `{Utils}.

Lemma apply_config_rows (settings : option Settings) (mid : string)
  (configUpdates : ModelConfig) (a : App) :
  let a' := apply_config settings mid configUpdates a in
  quotaRows a' = computeQuotaRows (store a') settings /\
  config_of (store a') mid = merge_config (modelConfig (store a) !! mid) configUpdates /\
  (forall mid', mid' <> mid -> config_of (store a') mid' = config_of (store a) mid') /\
  accounts (store a') = accounts (store a) /\
  models (store a') = models (store a) /\
  filters (store a') = filters (store a).
Proof.
  simpl. unfold config_of. simpl. repeat split; try reflexivity.
  - now rewrite lookup_insert_eq.
  - intros mid' Hne. now rewrite lookup_insert_ne by congruence.
Qed.

(** A change of configuration that keeps the effective [hidden] flag of
    every model changes no row except in its [pinned] flag. *)
Lemma unpinned_same_visibility (st st' : Store) (e : bool) (mid : string) :
  accounts st' = accounts st -> filters st' = filters st ->
  isHidden (config_of st' mid) (getModelFamily mid)
  = isHidden (config_of st mid) (getModelFamily mid) ->
  unpinned <$> row_of st' e mid = unpinned <$> row_of st e mid.
Proof.
  intros Ha Hf Hh. unfold row_of, collect. cbv zeta. rewrite Ha, Hf, Hh.
  clear Hh.
  destruct (isHidden (config_of st mid) (getModelFamily mid)); [reflexivity|].
  destruct (negb (passes_model_filters _ _ _)); [reflexivity|].
  destruct (length _ =? 0)%nat; [reflexivity|].
  destruct (negb e && _); reflexivity.
Qed.

(** A model whose configuration is untouched keeps its row. *)
Lemma row_of_same_config (st st' : Store) (e : bool) (mid : string) :
  accounts st' = accounts st -> filters st' = filters st ->
  config_of st' mid = config_of st mid ->
  row_of st' e mid = row_of st e mid.
Proof.
  intros Ha Hf Hc. unfold row_of, collect. cbv zeta. now rewrite Ha, Hf, Hc.
Qed.

Lemma omap_view {A B C} (f g : A -> option B) (v : B -> C) (l : list A) :
  (forall x, v <$> f x = v <$> g x) ->
  map v (omap f l) = map v (omap g l).
Proof.
  intros Hfg. induction l as [|x l IH]; [reflexivity|].
  change (omap f (x :: l))
    with (match f x with Some y => y :: omap f l | None => omap f l end).
  change (omap g (x :: l))
    with (match g x with Some y => y :: omap g l | None => omap g l end).
  specialize (Hfg x).
  destruct (f x), (g x); simpl in *; try discriminate; [|exact IH].
  injection Hfg as ->. now rewrite IH.
Qed.

End ConfigFacts.

(** X12: after [updateModelConfig] succeeds with [hidden: true] for a
    model, the recomputed rows hold no row of that model, and the model's
    [pinned] setting is as before. *)
Theorem X12_hiding_removes_the_row `{Utils} (settings : option Settings)
  (mid : string) (configUpdates : ModelConfig) (newPassword : option string)
  (a : App) :
  cfg_hidden configUpdates = Some true ->
  cfg_pinned configUpdates = None ->
  let a' := updateModelConfig settings mid configUpdates
              (ConfigResponse newPassword true) a in
  (forall r, In r (quotaRows a') -> modelId r <> mid) /\
  cfg_pinned (config_of (store a') mid) = cfg_pinned (config_of (store a) mid) /\
  toasts a' = toasts a.
Proof.
  intros Hh Hp a'.
  destruct (take_password_keeps newPassword a) as (Hs & _ & Ht & _).
  pose proof (apply_config_rows settings mid configUpdates
                (take_password newPassword a)) as Hfacts.
  change (apply_config settings mid configUpdates (take_password newPassword a))
    with a' in Hfacts.
  cbv zeta in Hfacts. destruct Hfacts as (Hrows & Hcfg & _).
  rewrite Hs in Hcfg. split; [|split].
  - intros r Hin Hid. rewrite Hrows in Hin.
    apply In_computeQuotaRows in Hin. destruct Hin as (mid' & _ & Hrow).
    apply row_of_Some in Hrow. destruct Hrow as (Hid' & Hhid & _).
    rewrite Hid in Hid'. subst mid'.
    unfold isHidden in Hhid. rewrite Hcfg in Hhid. simpl in Hhid.
    rewrite Hh in Hhid. discriminate.
  - rewrite Hcfg. simpl. rewrite Hp. unfold config_of.
    now destruct (modelConfig (store a) !! mid).
  - exact Ht.
Qed.

Lemma X12_hiding_removes_the_row_witness :
  cfg_hidden hide = Some true /\
  cfg_pinned hide = None /\
  In "claude-sonnet" (map modelId (quotaRows app_two)) /\
  forall r, In r (quotaRows (updateModelConfig (H := Examples.utils) None "claude-sonnet"
                              hide (ConfigResponse None true) app_two)) ->
            modelId r <> "claude-sonnet".
Proof.
  split; [reflexivity|]. split; [reflexivity|].
  split; [vm_compute; right; left; reflexivity|].
  exact (proj1 (X12_hiding_removes_the_row (H := Examples.utils) None "claude-sonnet"
                  hide None app_two eq_refl eq_refl)).
Defined.

(** X13: after [updateModelConfig] succeeds with an update that sets only
    [pinned], the configuration of every other model and the [hidden]
    setting of this one are as before; the recomputed rows are, up to order
    and the [pinned] flag, the rows the old configuration gives: with the
    flag cleared on both sides, every field of every row agrees.  The rows
    of the other models are the old rows, flag included, and every row of
    the model carries the new [pinned] value. *)
Theorem X13_pinning_changes_only_the_flag `{Utils} (settings : option Settings)
  (mid : string) (configUpdates : ModelConfig) (p : bool)
  (newPassword : option string) (a : App) :
  cfg_hidden configUpdates = None ->
  cfg_pinned configUpdates = Some p ->
  let a' := updateModelConfig settings mid configUpdates
              (ConfigResponse newPassword true) a in
  (forall mid', mid' <> mid -> config_of (store a') mid' = config_of (store a) mid') /\
  cfg_hidden (config_of (store a') mid) = cfg_hidden (config_of (store a) mid) /\
  Permutation (map unpinned (quotaRows a'))
              (map unpinned (computeQuotaRows (store a) settings)) /\
  (forall r, In r (quotaRows a') -> modelId r <> mid ->
             In r (computeQuotaRows (store a) settings)) /\
  (forall r, In r (quotaRows a') -> modelId r = mid -> pinned r = p).
Proof.
  intros Hh Hp a'.
  destruct (take_password_keeps newPassword a) as (Hs & _).
  pose proof (apply_config_rows settings mid configUpdates
                (take_password newPassword a)) as Hfacts.
  change (apply_config settings mid configUpdates (take_password newPassword a))
    with a' in Hfacts.
  cbv zeta in Hfacts. destruct Hfacts as (Hrows & Hcfg & Hother & Hacc & Hm & Hfil).
  rewrite Hs in Hcfg, Hother, Hacc, Hm, Hfil.
  assert (Hhid : cfg_hidden (config_of (store a') mid)
                 = cfg_hidden (config_of (store a) mid)).
  { rewrite Hcfg. simpl. rewrite Hh. unfold config_of.
    now destruct (modelConfig (store a) !! mid). }
  split; [exact Hother|]. split; [exact Hhid|]. split; [|split].
  - rewrite Hrows, !computeQuotaRows_omap.
    eapply perm_trans; [apply Permutation_map, Array_sort_Permutation|].
    eapply perm_trans;
      [|apply Permutation_map, Permutation_sym, Array_sort_Permutation].
    rewrite Hm.
    rewrite (omap_view (row_of (store a') (default true (settings ≫= showExhausted)))
                       (row_of (store a) (default true (settings ≫= showExhausted)))
                       unpinned).
    + apply Permutation_refl.
    + intros m. apply unpinned_same_visibility; [exact Hacc | exact Hfil |].
      destruct (decide (m = mid)) as [->|Hne].
      * unfold isHidden. now rewrite Hhid.
      * now rewrite (Hother m Hne).
  - intros r Hin Hid. rewrite Hrows in Hin. apply In_computeQuotaRows in Hin.
    destruct Hin as (mid' & Hmid' & Hrow). apply In_computeQuotaRows.
    exists mid'. rewrite Hm in Hmid'. split; [exact Hmid'|].
    destruct (row_of_Some _ _ _ _ Hrow) as (Hid' & _).
    rewrite <- Hrow. symmetry.
    apply row_of_same_config; [exact Hacc | exact Hfil |].
    apply Hother. congruence.
  - intros r Hin Hid. rewrite Hrows in Hin. apply In_computeQuotaRows in Hin.
    destruct Hin as (mid' & _ & Hrow).
    apply row_of_Some in Hrow. destruct Hrow as (Hid' & _ & _ & _ & _ & _ & Hpin).
    rewrite Hid in Hid'. subst mid'. rewrite Hpin, Hcfg. simpl. now rewrite Hp.
Qed.

(** Pinning [claude-sonnet] moves its row before the row of
    [gemini-pro], whose average is lower; nothing but the flag and the
    order changes. *)
Lemma X13_pinning_changes_only_the_flag_witness :
  cfg_hidden pin = None /\
  cfg_pinned pin = Some true /\
  map (fun r => (modelId r, pinned r, avgQuota r)) (quotaRows app_two)
  = [("gemini-pro", true, 28); ("claude-sonnet", false, 38)] /\
  map (fun r => (modelId r, pinned r, avgQuota r))
      (quotaRows (updateModelConfig (H := Examples.utils) None
                    "claude-sonnet" pin (ConfigResponse None true) app_two))
  = [("claude-sonnet", true, 38); ("gemini-pro", true, 28)] /\
  Permutation
    (map unpinned (quotaRows (updateModelConfig (H := Examples.utils) None
                                "claude-sonnet" pin (ConfigResponse None true) app_two)))
    (map unpinned (computeQuotaRows (H := Examples.utils) (store app_two) None)).
Proof.
  split; [reflexivity|]. split; [reflexivity|].
  split; [vm_compute; reflexivity|]. split; [vm_compute; reflexivity|].
  exact (proj1 (proj2 (proj2
           (X13_pinning_changes_only_the_flag (H := Examples.utils) None "claude-sonnet"
              pin true None app_two eq_refl eq_refl)))).
Defined.

(** X14: when the configuration request fails (it rejects, or the
    response is not [ok]), [updateModelConfig] leaves the configuration
    and the rows as they were and shows exactly one more toast, of type
    ["error"]. *)
Theorem X14_failed_update_changes_nothing `{Utils} (settings : option Settings)
  (mid : string) (configUpdates : ModelConfig) (o : ConfigAnswer) (a : App) :
  config_failed o = true ->
  let a' := updateModelConfig settings mid configUpdates o a in
  store a' = store a /\
  quotaRows a' = quotaRows a /\
  exists message, toasts a' = toasts a ++ [(message, "error")].
Proof.
  intros Hfail. simpl. destruct o as [msg|np ok]; simpl in *.
  - repeat split. eexists. reflexivity.
  - destruct ok; [discriminate|]. simpl.
    destruct (take_password_keeps np a) as (Hs & Hq & Ht & _).
    rewrite Hs, Hq, Ht. repeat split. eexists. reflexivity.
Qed.

Lemma X14_failed_update_changes_nothing_witness :
  config_failed (ConfigResponse None false) = true /\
  store (updateModelConfig (H := Examples.utils) None "claude-sonnet" hide
           (ConfigResponse None false) app_two) = store app_two /\
  quotaRows (updateModelConfig (H := Examples.utils) None "claude-sonnet" hide
               (ConfigResponse None false) app_two) = quotaRows app_two.
Proof.
  split; [reflexivity|].
  destruct (X14_failed_update_changes_nothing (H := Examples.utils) None
              "claude-sonnet" hide (ConfigResponse None false) app_two eq_refl)
    as (Hs & Hq & _).
  split; [exact Hs | exact Hq].
Defined.

(** * Further properties of the dashboard component *)

Import CoverDash.

(** ** Stored preferences *)

(** X15: preferences saved by [savePreferences] come back on the next
    load: a component that starts from the initial state with the stored
    item reads the saved display mode, families and models, and logs
    nothing.  The storage accepts the write and the display mode is not
    the empty string (an empty one is read back as ["model"]). *)
Theorem X15_saved_preferences_are_restored (s : State) :
  storageWritable s = true ->
  displayMode s <> EmptyString ->
  let r := loadPreferences (reloaded (savePreferences s)) in
  displayMode r = displayMode s /\
  selectedFamilies r = selectedFamilies s /\
  selectedModels r = selectedModels s /\
  console r = [].
Proof.
  intros Hw Hd. unfold savePreferences, reloaded. rewrite Hw. simpl.
  unfold loadPreferences. simpl. unfold JS.truthy_string.
  apply String.eqb_neq in Hd. rewrite Hd. simpl. now repeat split.
Qed.

Lemma X15_saved_preferences_are_restored_witness :
  storageWritable Examples.after_deselect = true /\
  displayMode Examples.after_deselect <> EmptyString /\
  selectedModels (loadPreferences (reloaded (savePreferences Examples.after_deselect)))
  = selectedModels Examples.after_deselect.
Proof.
  assert (Hw : storageWritable Examples.after_deselect = true) by reflexivity.
  assert (Hd : displayMode Examples.after_deselect <> EmptyString) by discriminate.
  split; [exact Hw|]. split; [exact Hd|].
  exact (proj1 (proj2 (proj2
           (X15_saved_preferences_are_restored Examples.after_deselect Hw Hd)))).
Defined.

(** ** Toggling *)

Lemma remove_first_In (x y : string) (l : list string) :
  In y (remove_first x l) -> In y l.
Proof.
  induction l as [|z l IH]; simpl; [tauto|].
  destruct (String.eqb z x); [now right|].
  intros [<-|Hin]; [now left | right; now apply IH].
Qed.

Lemma remove_first_other (x y : string) (l : list string) :
  y <> x -> In y l -> In y (remove_first x l).
Proof.
  intros Hne. induction l as [|z l IH]; simpl; [tauto|].
  destruct (String.eqb_spec z x) as [->|Hz].
  - intros [<-|Hin]; [congruence | exact Hin].
  - intros [<-|Hin]; [now left | right; now apply IH].
Qed.

Lemma remove_first_NoDup (x : string) (l : list string) :
  NoDup l -> NoDup (remove_first x l) /\ ~ In x (remove_first x l).
Proof.
  induction 1 as [|z l Hnot Hnd IH]; simpl.
  - split; [constructor | tauto].
  - destruct (String.eqb_spec z x) as [->|Hz].
    + split; [exact Hnd|]. now rewrite <- list_elem_of_In.
    + destruct IH as [IHn IHx]. split.
      * constructor; [|exact IHn]. rewrite list_elem_of_In. intros Hin.
        apply Hnot, list_elem_of_In. eapply remove_first_In, Hin.
      * intros [Heq|Hin]; [congruence | now apply IHx].
Qed.

Lemma toggle_spec (x : string) (l : list string) :
  NoDup l ->
  NoDup (toggle x l) /\
  Array_includes (toggle x l) x = negb (Array_includes l x) /\
  (forall y, y <> x -> Array_includes (toggle x l) y = Array_includes l y).
Proof.
  intros Hnd. unfold toggle.
  destruct (Array_includes l x) eqn:Hinc.
  - destruct (remove_first_NoDup x l Hnd) as [Hn Hx]. split; [exact Hn|]. split.
    + simpl. apply not_true_is_false. now rewrite Array_includes_In.
    + intros y Hy. apply eq_true_iff_eq. rewrite !Array_includes_In. split.
      * apply remove_first_In.
      * now apply remove_first_other.
  - assert (Hx : ~ In x l).
    { rewrite <- Array_includes_In. now rewrite Hinc. }
    split; [|split].
    + apply NoDup_app. split; [exact Hnd|]. split; [|apply NoDup_singleton].
      intros y Hy Hy'. apply list_elem_of_In in Hy'. simpl in Hy'.
      destruct Hy' as [<-|[]]. now apply Hx, list_elem_of_In.
    + simpl. apply Array_includes_In, in_or_app. right. now left.
    + intros y Hy. apply eq_true_iff_eq. rewrite !Array_includes_In, in_app_iff.
      simpl. split; [intros [Hin|[Heq|[]]]; [exact Hin | congruence] | tauto].
Qed.

Lemma toggle_twice (x : string) (l : list string) :
  NoDup l ->
  Permutation (toggle x (toggle x l)) l /\
  (Array_includes l x = false -> toggle x (toggle x l) = l).
Proof.
  intros Hnd.
  destruct (Array_includes l x) eqn:Hinc.
  - assert (Ht : toggle x l = remove_first x l) by (unfold toggle; now rewrite Hinc).
    rewrite Ht. split; [|discriminate].
    destruct (remove_first_NoDup x l Hnd) as [_ Hx].
    unfold toggle. rewrite <- Array_includes_In in Hx.
    apply not_true_is_false in Hx. rewrite Hx.
    apply Array_includes_In in Hinc. clear Hx Hnd Ht.
    induction l as [|z l IH]; [destruct Hinc|]. simpl.
    destruct (String.eqb_spec z x) as [->|Hz].
    + apply Permutation_sym, Permutation_cons_append.
    + destruct Hinc as [Heq|Hin]; [congruence|].
      simpl. apply perm_skip, IH, Hin.
  - assert (Ht : toggle x l = l ++ [x]) by (unfold toggle; now rewrite Hinc).
    rewrite Ht.
    assert (Heq : toggle x (l ++ [x]) = l).
    { unfold toggle.
      assert (Hi : Array_includes (l ++ [x]) x = true).
      { apply Array_includes_In, in_or_app. right. now left. }
      rewrite Hi. clear Hi.
      assert (Hx : ~ In x l) by (rewrite <- Array_includes_In; now rewrite Hinc).
      clear Hinc Hnd Ht. induction l as [|z l IH]; simpl.
      - now rewrite String.eqb_refl.
      - destruct (String.eqb_spec z x) as [->|Hz]; [exfalso; apply Hx; now left|].
        f_equal. apply IH. intros Hin. apply Hx. now right. }
    rewrite Heq. split; [apply Permutation_refl | reflexivity].
Qed.

Lemma savePreferences_fields (s : State) :
  selectedFamilies (savePreferences s) = selectedFamilies s /\
  selectedModels (savePreferences s) = selectedModels s /\
  displayMode (savePreferences s) = displayMode s /\
  modelTree (savePreferences s) = modelTree s /\
  families (savePreferences s) = families s /\
  (storageWritable s = true ->
   localStorage (savePreferences s) = Some (Parsed (prefs_of s)) /\
   console (savePreferences s) = console s).
Proof.
  unfold savePreferences. destruct (storageWritable s); repeat split; discriminate.
Qed.

(** X16: [toggleFamily] flips the selection of its family and of no
    other, touches no model selection, keeps the list of selected families
    free of duplicates, and stores the new selection.  The list holds no
    family twice before the call. *)
Theorem X16_toggleFamily_flips_one_family (family : string) (s : State) :
  NoDup (selectedFamilies s) ->
  let s' := toggleFamily family s in
  isFamilySelected s' family = negb (isFamilySelected s family) /\
  (forall g, g <> family -> isFamilySelected s' g = isFamilySelected s g) /\
  selectedModels s' = selectedModels s /\
  NoDup (selectedFamilies s') /\
  (storageWritable s = true -> localStorage s' = Some (Parsed (prefs_of s'))).
Proof.
  intros Hnd s'.
  destruct (toggle_spec family (selectedFamilies s) Hnd) as (Hn & Hflip & Hother).
  destruct (savePreferences_fields
              (set_selection (toggle family (selectedFamilies s)) (selectedModels s) s))
    as (Hf & Hm & Hd & _ & _ & Hst).
  fold (toggleFamily family s) in Hf, Hm, Hd, Hst. fold s' in Hf, Hm, Hd, Hst.
  simpl in Hf, Hm, Hd, Hst.
  unfold isFamilySelected. rewrite Hf.
  split; [exact Hflip|]. split; [exact Hother|]. split; [exact Hm|].
  split; [exact Hn|].
  intros Hw. destruct (Hst Hw) as [-> _]. unfold prefs_of. now rewrite Hf, Hm, Hd.
Qed.

Lemma X16_toggleFamily_flips_one_family_witness :
  NoDup (selectedFamilies Examples.after_first) /\
  isFamilySelected Examples.after_first "gemini" = true /\
  isFamilySelected (toggleFamily "gemini" Examples.after_first) "gemini" = false.
Proof.
  assert (Hnd : NoDup (selectedFamilies Examples.after_first)).
  { vm_compute. repeat (constructor; [rewrite list_elem_of_In; simpl; intuition discriminate|]).
    constructor. }
  split; [exact Hnd|]. split; [vm_compute; reflexivity|].
  exact (proj1 (X16_toggleFamily_flips_one_family "gemini" Examples.after_first Hnd)).
Defined.

(** X17: [toggleModel] flips the selection of its model within its family
    and of no other model, and leaves the selected families and the models
    of every other family as they were.  The family's list holds no model
    twice before the call. *)
Theorem X17_toggleModel_flips_one_model (family model : string) (s : State) :
  NoDup (default [] (selectedModels s !! family)) ->
  let s' := toggleModel family model s in
  isModelSelected s' family model = negb (isModelSelected s family model) /\
  (forall m, m <> model -> isModelSelected s' family m = isModelSelected s family m) /\
  (forall g, g <> family -> selectedModels s' !! g = selectedModels s !! g) /\
  selectedFamilies s' = selectedFamilies s /\
  NoDup (default [] (selectedModels s' !! family)).
Proof.
  intros Hnd s'.
  set (mods1 := match selectedModels s !! family with
                | Some _ => selectedModels s
                | None => <[family := []]> (selectedModels s)
                end).
  assert (Hs' : s' = savePreferences
                       (set_selection (selectedFamilies s)
                                      (alter (toggle model) family mods1) s))
    by reflexivity.
  destruct (savePreferences_fields
              (set_selection (selectedFamilies s) (alter (toggle model) family mods1) s))
    as (Hf & Hm & _).
  rewrite <- Hs' in Hf, Hm. simpl in Hf, Hm. clearbody s'.
  assert (Hl : mods1 !! family = Some (default [] (selectedModels s !! family))).
  { subst mods1. destruct (selectedModels s !! family) eqn:E; simpl.
    - exact E.
    - apply lookup_insert_eq. }
  assert (Hnew : selectedModels s' !! family
                 = Some (toggle model (default [] (selectedModels s !! family)))).
  { rewrite Hm, lookup_alter_eq, Hl. reflexivity. }
  destruct (toggle_spec model _ Hnd) as (Hn & Hflip & Hother).
  assert (Hsel : forall m, isModelSelected s family m
                           = Array_includes (default [] (selectedModels s !! family)) m).
  { intros m. unfold isModelSelected. now destruct (selectedModels s !! family). }
  unfold isModelSelected at 1 3. rewrite Hnew, !Hsel.
  split; [exact Hflip|]. split; [intros m Hne; rewrite Hsel; now apply Hother|].
  split; [|split; [exact Hf | exact Hn]].
  intros g Hg. rewrite Hm, lookup_alter_ne by congruence.
  subst mods1. destruct (selectedModels s !! family); [reflexivity|].
  apply lookup_insert_ne. congruence.
Qed.

Lemma X17_toggleModel_flips_one_model_witness :
  NoDup (default [] (selectedModels Examples.after_first !! "claude")) /\
  isModelSelected Examples.after_first "claude" "opus" = true /\
  isModelSelected (toggleModel "claude" "opus" Examples.after_first) "claude" "opus"
  = false.
Proof.
  assert (Hnd : NoDup (default [] (selectedModels Examples.after_first !! "claude"))).
  { vm_compute. repeat (constructor; [rewrite list_elem_of_In; simpl; intuition discriminate|]).
    constructor. }
  split; [exact Hnd|]. split; [vm_compute; reflexivity|].
  exact (proj1 (X17_toggleModel_flips_one_model "claude" "opus" Examples.after_first Hnd)).
Defined.

(** A selected name that is toggled twice moves to the end. *)
Lemma toggle_twice_moves (x : string) (l : list string) :
  NoDup l -> Array_includes l x = true ->
  exists l1 l2, l = l1 ++ x :: l2 /\ toggle x (toggle x l) = l1 ++ l2 ++ [x].
Proof.
  intros Hnd Hinc.
  assert (Ht : toggle x l = remove_first x l) by (unfold toggle; now rewrite Hinc).
  rewrite Ht.
  destruct (remove_first_NoDup x l Hnd) as [_ Hx].
  unfold toggle. rewrite <- Array_includes_In in Hx.
  apply not_true_is_false in Hx. rewrite Hx.
  apply Array_includes_In in Hinc. clear Hx Hnd Ht.
  induction l as [|z l IH]; [destruct Hinc|]. cbn [remove_first].
  destruct (String.eqb_spec z x) as [->|Hz].
  - exists [], l. split; reflexivity.
  - destruct Hinc as [Heq|Hin]; [congruence|].
    destruct (IH Hin) as (l1 & l2 & Hl & Hr).
    exists (z :: l1), l2. split; [now rewrite Hl|].
    cbn [app]. now rewrite Hr.
Qed.

(** X18: toggling a family twice gives back the same selected families;
    when the family was not selected the list is exactly as before, when
    it was selected the family has moved to the end and the other families
    keep their order. *)
Theorem X18_toggleFamily_twice (family : string) (s : State) :
  NoDup (selectedFamilies s) ->
  let s2 := toggleFamily family (toggleFamily family s) in
  Permutation (selectedFamilies s2) (selectedFamilies s) /\
  (isFamilySelected s family = false -> selectedFamilies s2 = selectedFamilies s) /\
  (isFamilySelected s family = true ->
   exists before after,
     selectedFamilies s = before ++ family :: after /\
     selectedFamilies s2 = before ++ after ++ [family]) /\
  selectedModels s2 = selectedModels s.
Proof.
  intros Hnd s2.
  destruct (toggle_twice family (selectedFamilies s) Hnd) as [Hperm Heq].
  pose proof (toggle_twice_moves family (selectedFamilies s) Hnd) as Hmove.
  assert (Hf2 : selectedFamilies s2 = toggle family (toggle family (selectedFamilies s))).
  { subst s2. unfold toggleFamily.
    destruct (savePreferences_fields
                (set_selection (toggle family (selectedFamilies s)) (selectedModels s) s))
      as (Hf & Hm & _).
    match goal with
    | |- selectedFamilies (savePreferences ?x) = _ =>
        destruct (savePreferences_fields x) as (-> & _)
    end.
    simpl. now rewrite Hf. }
  assert (Hm2 : selectedModels s2 = selectedModels s).
  { subst s2. unfold toggleFamily.
    match goal with
    | |- selectedModels (savePreferences ?x) = _ =>
        destruct (savePreferences_fields x) as (_ & -> & _)
    end.
    simpl.
    match goal with
    | |- selectedModels (savePreferences ?x) = _ =>
        destruct (savePreferences_fields x) as (_ & -> & _)
    end.
    reflexivity. }
  rewrite Hf2. split; [exact Hperm|]. split; [exact Heq|].
  split; [exact Hmove | exact Hm2].
Qed.

Lemma X18_toggleFamily_twice_witness :
  NoDup (selectedFamilies Examples.after_first) /\
  selectedFamilies Examples.after_first = ["claude"; "gemini"] /\
  selectedFamilies (toggleFamily "claude" (toggleFamily "claude" Examples.after_first))
  = ["gemini"; "claude"] /\
  Permutation
    (selectedFamilies (toggleFamily "claude" (toggleFamily "claude" Examples.after_first)))
    (selectedFamilies Examples.after_first).
Proof.
  assert (Hnd : NoDup (selectedFamilies Examples.after_first)).
  { vm_compute. repeat (constructor; [rewrite list_elem_of_In; simpl; intuition discriminate|]).
    constructor. }
  split; [exact Hnd|]. split; [vm_compute; reflexivity|].
  split; [vm_compute; reflexivity|].
  exact (proj1 (X18_toggleFamily_twice "claude" Examples.after_first Hnd)).
Defined.

(** ** Selecting everything *)

Lemma select_all_models_lookup (fams : list string)
  (tree : gmap string (list string)) (g : string) :
  forall mods,
    select_all_models fams tree mods !! g
    = if Array_includes fams g then Some (default [] (tree !! g)) else mods !! g.
Proof.
  unfold select_all_models.
  induction fams as [|f fams IH]; intros mods; [reflexivity|].
  cbn [fold_left]. rewrite IH. unfold Array_includes. cbn [existsb].
  fold (Array_includes fams g).
  destruct (Array_includes fams g); [now rewrite orb_true_r|].
  rewrite orb_false_r.
  destruct (String.eqb_spec g f) as [->|Hne].
  - now rewrite lookup_insert_eq.
  - now rewrite lookup_insert_ne by congruence.
Qed.

(** X19: after [selectAll] the selected families are the families of the
    feed, each of them has exactly the models of its tree selected, and
    the models stored for a family that is not in the feed stay as they
    were. *)
Theorem X19_selectAll_selects_the_tree (s : State) :
  let s' := selectAll s in
  selectedFamilies s' = families s /\
  (forall f, In f (families s) ->
             selectedModels s' !! f = Some (default [] (modelTree s !! f))) /\
  (forall g, ~ In g (families s) -> selectedModels s' !! g = selectedModels s !! g) /\
  (forall f m, In f (families s) -> In m (default [] (modelTree s !! f)) ->
               isModelSelected s' f m = true).
Proof.
  intros s'.
  destruct (savePreferences_fields
              (set_selection (families s)
                 (select_all_models (families s) (modelTree s) (selectedModels s)) s))
    as (Hf & Hm & _).
  fold (selectAll s) in Hf, Hm. fold s' in Hf, Hm. simpl in Hf, Hm.
  assert (Hin : forall f, In f (families s) ->
                  selectedModels s' !! f = Some (default [] (modelTree s !! f))).
  { intros f Hfam. rewrite Hm, select_all_models_lookup.
    apply Array_includes_In in Hfam. now rewrite Hfam. }
  split; [exact Hf|]. split; [exact Hin|]. split.
  - intros g Hg. rewrite Hm, select_all_models_lookup.
    rewrite <- Array_includes_In in Hg. apply not_true_is_false in Hg.
    now rewrite Hg.
  - intros f m Hfam Hmod. unfold isModelSelected. rewrite (Hin f Hfam).
    now apply Array_includes_In.
Qed.

(** ** The tree built by [processHistory] *)

Lemma autoSelectNew_keeps (s : State) :
  modelTree (autoSelectNew s) = modelTree s /\
  families (autoSelectNew s) = families s /\
  usageStats (autoSelectNew s) = usageStats s /\
  storageWritable (autoSelectNew s) = storageWritable s.
Proof.
  unfold autoSelectNew. destruct (_ && _).
  - unfold savePreferences. simpl.
    destruct (storageWritable s) eqn:E; repeat split; exact E.
  - destruct (fold_left _ _ _). now repeat split.
Qed.

Lemma Set_add_spec (n : string) (l : list string) :
  (forall m, In m (Set_add n l) <-> In m l \/ m = n) /\
  (NoDup l -> NoDup (Set_add n l)).
Proof.
  unfold Set_add. destruct (Array_includes l n) eqn:Hinc.
  - apply Array_includes_In in Hinc. split; [|trivial].
    intros m. split; [tauto|]. intros [Hm| ->]; assumption.
  - split.
    + intros m. rewrite in_app_iff. simpl. split; [|intros [?|?]; auto].
      intros [?|[?|[]]]; auto.
    + intros Hnd. apply NoDup_app. split; [exact Hnd|].
      split; [|apply NoDup_singleton].
      intros y Hy Hy'. apply list_elem_of_In in Hy'. simpl in Hy'.
      destruct Hy' as [<-|[]]. apply list_elem_of_In, Array_includes_In in Hy.
      congruence.
Qed.

Lemma names_fold (key : string) (names : list string) :
  forall (tree : gmap string (list string)) (l0 : list string),
    tree !! key = Some l0 ->
    exists l',
      fold_left (fun t modelName =>
                   if negb (String.eqb modelName "_subtotal")
                   then alter (Set_add modelName) key t else t) names tree !! key
      = Some l' /\
      (forall m, In m l' <-> In m l0 \/ (In m names /\ m <> "_subtotal")) /\
      (NoDup l0 -> NoDup l') /\
      (forall g, g <> key ->
         fold_left (fun t modelName =>
                      if negb (String.eqb modelName "_subtotal")
                      then alter (Set_add modelName) key t else t) names tree !! g
         = tree !! g).
Proof.
  induction names as [|n names IH]; intros tree l0 Hl0; cbn [fold_left].
  - exists l0. split; [exact Hl0|]. split; [|split; [trivial | reflexivity]].
    intros m. simpl. tauto.
  - destruct (String.eqb_spec n "_subtotal") as [->|Hn]; cbn [negb].
    + destruct (IH tree l0 Hl0) as (l' & Hl' & Hmem & Hnd & Hother).
      exists l'. split; [exact Hl'|]. split; [|split; [exact Hnd | exact Hother]].
      intros m. rewrite Hmem. simpl. split; [tauto|].
      intros [?|[[<-|?] ?]]; [tauto | congruence | tauto].
    + destruct (Set_add_spec n l0) as [Hadd Haddnd].
      destruct (IH (alter (Set_add n) key tree) (Set_add n l0))
        as (l' & Hl' & Hmem & Hnd & Hother).
      { rewrite lookup_alter_eq, Hl0. reflexivity. }
      exists l'. split; [exact Hl'|]. split; [|split].
      * intros m. rewrite Hmem, Hadd. simpl. split.
        -- intros [[?| ->]|[? ?]]; [tauto | right; split; [now left | exact Hn] | tauto].
        -- intros [?|[[<-|?] ?]]; tauto.
      * intros H0. apply Hnd, Haddnd, H0.
      * intros g Hg. rewrite (Hother g Hg). apply lookup_alter_ne. congruence.
Qed.

Lemma tree_step_reflects (tree : gmap string (list string))
  (es : list (string * Value)) (kv : string * Value) :
  tree_reflects tree es -> tree_reflects (tree_step tree kv) (es ++ [kv]).
Proof.
  intros (Hkeys & Hmods & Hnd). destruct kv as [key value]. unfold tree_step.
  assert (Hskip : (String.eqb key "_total" || String.eqb key "total" = true \/
                   forall counts, value <> VObj counts) ->
                  tree_reflects tree (es ++ [(key, value)])).
  { intros Hs. split; [|split; [|exact Hnd]].
    - intros g. rewrite Hkeys. split.
      + intros (c & Hin & Hok). exists c. split; [apply in_or_app; now left | exact Hok].
      + intros (c & Hin & H1 & H2). apply in_app_or in Hin.
        destruct Hin as [Hin|[[= <- ->]|[]]]; [now exists c|].
        exfalso. destruct Hs as [Hs|Hs]; [|now apply (Hs c)].
        apply orb_true_iff in Hs.
        destruct Hs as [Hs|Hs]; apply String.eqb_eq in Hs; congruence.
    - intros g m. rewrite Hmods. split.
      + intros (c & Hin & Hok). exists c. split; [apply in_or_app; now left | exact Hok].
      + intros (c & Hin & H1 & H2 & H3). apply in_app_or in Hin.
        destruct Hin as [Hin|[[= <- ->]|[]]]; [now exists c|].
        exfalso. destruct Hs as [Hs|Hs]; [|now apply (Hs c)].
        apply orb_true_iff in Hs.
        destruct Hs as [Hs|Hs]; apply String.eqb_eq in Hs; congruence. }
  destruct (String.eqb key "_total" || String.eqb key "total") eqn:Hmeta;
    [apply Hskip; now left|].
  destruct value as [| |n|counts]; try (apply Hskip; right; discriminate).
  apply orb_false_iff in Hmeta. destruct Hmeta as [Hm1 Hm2].
  apply String.eqb_neq in Hm1, Hm2.
  set (tree1 := match tree !! key with
                | Some _ => tree
                | None => <[key := []]> tree
                end).
  assert (Hl0 : tree1 !! key = Some (default [] (tree !! key))).
  { subst tree1. destruct (tree !! key) eqn:E; [exact E | apply lookup_insert_eq]. }
  assert (Hother1 : forall g, g <> key -> tree1 !! g = tree !! g).
  { intros g Hg. subst tree1. destruct (tree !! key); [reflexivity|].
    apply lookup_insert_ne. congruence. }
  destruct (names_fold key (map fst counts) tree1 _ Hl0)
    as (l' & Hl' & Hmem & Hndl & Hother).
  split; [|split].
  - intros g. destruct (decide (g = key)) as [->|Hg].
    + rewrite Hl'. split; [|intros _; now eexists].
      intros _. exists counts. split; [apply in_or_app; right; now left | now split].
    + rewrite (Hother g Hg), (Hother1 g Hg), Hkeys. split.
      * intros (c & Hin & Hok). exists c. split; [apply in_or_app; now left | exact Hok].
      * intros (c & Hin & Hok). apply in_app_or in Hin.
        destruct Hin as [Hin|[[= <- <-]|[]]]; [now exists c | congruence].
  - intros g m. destruct (decide (g = key)) as [->|Hg].
    + rewrite Hl'. simpl. rewrite Hmem, Hmods. split.
      * intros [(c & Hin & Hok)|[Hin Hsub]].
        -- exists c. split; [apply in_or_app; now left | exact Hok].
        -- exists counts. split; [apply in_or_app; right; now left | now repeat split].
      * intros (c & Hin & H1 & H2 & H3 & H4). apply in_app_or in Hin.
        destruct Hin as [Hin|[[= <-]|[]]]; [left; now exists c | right; now split].
    + rewrite (Hother g Hg), (Hother1 g Hg), Hmods. split.
      * intros (c & Hin & Hok). exists c. split; [apply in_or_app; now left | exact Hok].
      * intros (c & Hin & Hok). apply in_app_or in Hin.
        destruct Hin as [Hin|[[= <- <-]|[]]]; [now exists c | congruence].
  - intros g l. destruct (decide (g = key)) as [->|Hg].
    + rewrite Hl'. intros [= <-]. apply Hndl.
      destruct (tree !! key) as [l0|] eqn:E; simpl; [now apply (Hnd key) | constructor].
    + rewrite (Hother g Hg), (Hother1 g Hg). apply Hnd.
Qed.

Lemma bucket_reflects (hourData : Bucket) :
  forall tree es,
    tree_reflects tree es ->
    tree_reflects (fold_left tree_step hourData tree) (es ++ hourData).
Proof.
  induction hourData as [|kv hd IH]; intros tree es Hinv; cbn [fold_left].
  - now rewrite app_nil_r.
  - replace (es ++ kv :: hd) with ((es ++ [kv]) ++ hd)
      by (now rewrite <- app_assoc).
    apply IH, tree_step_reflects, Hinv.
Qed.

Lemma history_reflects (clock : Clock) (history : History) :
  forall acc es,
    tree_reflects (t_tree acc) es ->
    tree_reflects (t_tree (fold_left (history_step clock) history acc))
                  (es ++ flat_map snd history).
Proof.
  induction history as [|[ts hd] history IH]; intros acc es Hinv; cbn [fold_left].
  - simpl. now rewrite app_nil_r.
  - cbn [flat_map snd]. rewrite app_assoc. apply IH. simpl.
    now apply bucket_reflects.
Qed.

Lemma tree_reflects_empty : tree_reflects ∅ [].
Proof.
  split; [|split].
  - intros g. rewrite lookup_empty. split; [intros [? [=]] | intros (? & [] & _)].
  - intros g m. rewrite lookup_empty. simpl. split; [tauto | intros (? & [] & _)].
  - intros g l. rewrite lookup_empty. discriminate.
Qed.

Lemma processHistory_tree (clock : Clock) (history : History) (s : State) :
  let tree := t_tree (fold_left (history_step clock) history totals_init) in
  modelTree (processHistory clock history s)
  = JS.Array_sort JS.compare_strings <$> tree /\
  families (processHistory clock history s)
  = JS.Array_sort JS.compare_strings
      (map fst (map_to_list (JS.Array_sort JS.compare_strings <$> tree))) /\
  tree_reflects tree (flat_map snd history).
Proof.
  unfold processHistory.
  destruct (autoSelectNew_keeps
              (set_processed
                 {| us_total := t_total (fold_left (history_step clock) history totals_init);
                    us_today := t_today (fold_left (history_step clock) history totals_init);
                    us_thisHour := t_thisHour (fold_left (history_step clock) history totals_init) |}
                 (JS.Array_sort JS.compare_strings
                    <$> t_tree (fold_left (history_step clock) history totals_init))
                 (JS.Array_sort JS.compare_strings
                    (map fst (map_to_list
                       (JS.Array_sort JS.compare_strings
                          <$> t_tree (fold_left (history_step clock) history totals_init)))))
                 s)) as (Ht & Hf & _).
  simpl in *. split; [exact Ht|]. split; [exact Hf|].
  apply (history_reflects clock history totals_init []). apply tree_reflects_empty.
Qed.

Lemma In_sorted_keys (tree : gmap string (list string)) (f : string) :
  In f (JS.Array_sort JS.compare_strings (map fst (map_to_list tree)))
  <-> is_Some (tree !! f).
Proof.
  rewrite Array_sort_In, in_map_iff. split.
  - intros ([g l] & <- & Hin). apply list_elem_of_In, elem_of_map_to_list in Hin.
    now exists l.
  - intros [l Hl]. exists (f, l). split; [reflexivity|].
    now apply list_elem_of_In, elem_of_map_to_list.
Qed.

(** X21: after [processHistory] the families are exactly the keys, other
    than [_total] and [total], under which some bucket stores an object,
    and the tree of a family holds exactly the keys of those objects other
    than [_subtotal]; a number stored under a key (the flat legacy format)
    adds nothing. *)
Theorem X21_tree_holds_what_the_feed_shows (clock : Clock) (history : History)
  (s : State) :
  let s' := processHistory clock history s in
  (forall f, In f (families s') <-> family_seen history f) /\
  (forall f m, In m (default [] (modelTree s' !! f)) <-> discovered history f m).
Proof.
  intros s'. destruct (processHistory_tree clock history s) as (Ht & Hf & Hinv).
  fold s' in Ht, Hf. cbv zeta in Ht, Hf, Hinv.
  destruct Hinv as (Hkeys & Hmods & _).
  assert (Hflat : forall (kv : string * Value),
             In kv (flat_map snd history)
             <-> exists ts hd, In (ts, hd) history /\ In kv hd).
  { intros kv. rewrite in_flat_map. split.
    - intros ([ts hd] & Hin & Hkv). now exists ts, hd.
    - intros (ts & hd & Hin & Hkv). now exists (ts, hd). }
  split.
  - intros f. rewrite Hf, In_sorted_keys, lookup_fmap, fmap_is_Some, Hkeys.
    unfold family_seen. split.
    + intros (c & Hin & Hok). apply Hflat in Hin. destruct Hin as (ts & hd & H1 & H2).
      now exists ts, hd, c.
    + intros (ts & hd & c & H1 & H2 & Hok). exists c. split; [|exact Hok].
      apply Hflat. now exists ts, hd.
  - intros f m. rewrite Ht, lookup_fmap.
    assert (Hsort : In m (default [] (JS.Array_sort JS.compare_strings
                                        <$> t_tree (fold_left (history_step clock)
                                                      history totals_init) !! f))
                    <-> In m (default [] (t_tree (fold_left (history_step clock)
                                                    history totals_init) !! f))).
    { destruct (t_tree _ !! f); simpl; [apply Array_sort_In | tauto]. }
    rewrite Hsort, Hmods. unfold discovered. split.
    + intros (c & Hin & Hok). apply Hflat in Hin. destruct Hin as (ts & hd & H1 & H2).
      now exists ts, hd, c.
    + intros (ts & hd & c & H1 & H2 & Hok). exists c. split; [|exact Hok].
      apply Hflat. now exists ts, hd.
Qed.

(** The order of [sort()] on strings. *)
Lemma compare_strings_total (a b : string) :
  0 < JS.compare_strings a b -> JS.compare_strings b a <= 0.
Proof.
  unfold JS.compare_strings. rewrite (String.compare_antisym b a).
  destruct (String.compare a b); simpl; lia.
Qed.

Lemma compare_strings_trans (a b c : string) :
  JS.compare_strings a b <= 0 -> JS.compare_strings b c <= 0 ->
  JS.compare_strings a c <= 0.
Proof.
  unfold JS.compare_strings.
  destruct (String.compare a b) eqn:Hab; try lia;
    destruct (String.compare b c) eqn:Hbc; try lia; intros _ _.
  - apply String.compare_eq_iff in Hab. subst. now rewrite Hbc.
  - apply String.compare_eq_iff in Hab. subst. now rewrite Hbc.
  - apply String.compare_eq_iff in Hbc. subst. now rewrite Hab.
  - pose proof (@StrictOrder_Transitive _ _ String_as_OT.lt_strorder a b c) as T.
    unfold String_as_OT.lt in T.
    change (String_as_OT.compare a b) with (String.compare a b) in T.
    change (String_as_OT.compare b c) with (String.compare b c) in T.
    change (String_as_OT.compare a c) with (String.compare a c) in T.
    rewrite (T Hab Hbc). lia.
Qed.

Lemma sorted_strings (l : list string) :
  StronglySorted (fun a b => String.leb a b = true)
                 (JS.Array_sort JS.compare_strings l).
Proof.
  pose proof (Array_sort_sorted JS.compare_strings compare_strings_total
                compare_strings_trans l) as Hs.
  induction Hs as [|x k Hs IH Hall]; constructor; [exact IH|].
  eapply Forall_impl; [exact Hall|]. intros y Hy.
  unfold precedes, JS.compare_strings in Hy. unfold String.leb.
  destruct (String.compare x y); [reflexivity | reflexivity | lia].
Qed.

(** X22: after [processHistory] the list of families and the list of
    models of every family are in ascending string order and hold no name
    twice. *)
Theorem X22_families_and_models_are_sorted (clock : Clock) (history : History)
  (s : State) :
  let s' := processHistory clock history s in
  StronglySorted (fun a b => String.leb a b = true) (families s') /\
  NoDup (families s') /\
  (forall f l, modelTree s' !! f = Some l ->
               StronglySorted (fun a b => String.leb a b = true) l /\ NoDup l).
Proof.
  intros s'. destruct (processHistory_tree clock history s) as (Ht & Hf & Hinv).
  fold s' in Ht, Hf. cbv zeta in Ht, Hf, Hinv.
  destruct Hinv as (_ & _ & Hnd).
  split; [rewrite Hf; apply sorted_strings|]. split.
  - rewrite Hf.
    apply (proj2 (NoDup_Permutation_proper _ _
                    (Array_sort_Permutation JS.compare_strings _))).
    apply NoDup_fst_map_to_list.
  - intros f l. rewrite Ht, lookup_fmap.
    destruct (t_tree (fold_left (history_step clock) history totals_init) !! f)
      as [l0|] eqn:Hl0; simpl; [|discriminate].
    intros [= <-]. split; [apply sorted_strings|].
    apply (proj2 (NoDup_Permutation_proper _ _
                    (Array_sort_Permutation JS.compare_strings l0))).
    now apply (Hnd f).
Qed.

Import CoverTop.

(** ** The first refresh *)

Lemma autoSelectNew_first_run (x : State) :
  selectedFamilies x = [] -> selectedModels x = ∅ ->
  selectedFamilies (autoSelectNew x) = families x /\
  selectedModels (autoSelectNew x)
  = select_all_models (families x) (modelTree x) ∅ /\
  displayMode (autoSelectNew x) = displayMode x /\
  (storageWritable x = true ->
   localStorage (autoSelectNew x)
   = Some (Parsed {| p_displayMode := displayMode x;
                     p_selectedFamilies := families x;
                     p_selectedModels :=
                       select_all_models (families x) (modelTree x) ∅ |})).
Proof.
  intros Hf Hm. unfold autoSelectNew. rewrite Hf, Hm. simpl.
  unfold savePreferences. simpl.
  destruct (storageWritable x); repeat split; discriminate.
Qed.

(** X20: the first refresh (nothing selected, nothing stored as selected)
    selects everything: the selected families are the families of the feed
    and the selected models are the whole tree; the selection is stored
    when the storage accepts the write. *)
Theorem X20_first_refresh_selects_everything (clock : Clock) (history : History)
  (s : State) :
  selectedFamilies s = [] ->
  selectedModels s = ∅ ->
  let s' := processHistory clock history s in
  selectedFamilies s' = families s' /\
  selectedModels s' = modelTree s' /\
  (storageWritable s = true -> localStorage s' = Some (Parsed (prefs_of s'))).
Proof.
  intros Hf Hm s'.
  destruct (processHistory_tree clock history s) as (Ht & Hfam & _).
  fold s' in Ht, Hfam. cbv zeta in Ht, Hfam.
  set (tree := JS.Array_sort JS.compare_strings
                 <$> t_tree (fold_left (history_step clock) history totals_init)) in *.
  set (x := set_processed
              {| us_total := t_total (fold_left (history_step clock) history totals_init);
                 us_today := t_today (fold_left (history_step clock) history totals_init);
                 us_thisHour := t_thisHour (fold_left (history_step clock) history totals_init) |}
              tree
              (JS.Array_sort JS.compare_strings (map fst (map_to_list tree))) s).
  assert (Hs' : s' = autoSelectNew x) by reflexivity.
  destruct (autoSelectNew_first_run x Hf Hm) as (Hsf & Hsm & Hd & Hst).
  rewrite <- Hs' in Hsf, Hsm, Hd, Hst. simpl in Hsf, Hsm, Hd, Hst.
  assert (Hall : selectedModels s' = modelTree s').
  { rewrite Hsm, Ht. apply map_eq. intros g.
    rewrite select_all_models_lookup, lookup_empty.
    destruct (Array_includes _ g) eqn:Hinc.
    - apply Array_includes_In, In_sorted_keys in Hinc.
      destruct Hinc as [l Hl]. now rewrite Hl.
    - destruct (tree !! g) as [l|] eqn:Hl; [|reflexivity].
      assert (Hin : In g (JS.Array_sort JS.compare_strings (map fst (map_to_list tree))))
        by (apply In_sorted_keys; now exists l).
      apply Array_includes_In in Hin. congruence. }
  split; [now rewrite Hsf, Hfam|]. split; [exact Hall|].
  intros Hw. rewrite (Hst Hw). unfold prefs_of.
  now rewrite Hd, Hsf, Hsm.
Qed.

Lemma X20_first_refresh_selects_everything_witness :
  selectedFamilies init_state = [] /\
  selectedModels init_state = ∅ /\
  selectedModels (processHistory Examples.clock Examples.history_two init_state)
  = modelTree (processHistory Examples.clock Examples.history_two init_state).
Proof.
  split; [reflexivity|]. split; [reflexivity|].
  exact (proj1 (proj2 (X20_first_refresh_selects_everything Examples.clock
                         Examples.history_two init_state eq_refl eq_refl))).
Defined.

(** ** Today's usage and the current hour *)

Lemma today_fold (clock : Clock) (history : History) :
  totals_are_counts history = true ->
  forall acc a,
    t_today acc = Some a ->
    t_today (fold_left (history_step clock) history acc)
    = Some (a + amounts_where (fun ts => todayStart clock <=? ts) history).
Proof.
  unfold totals_are_counts, amounts_where.
  induction history as [|[ts hd] history IH]; intros Hall acc a Ha.
  - simpl. rewrite Ha. f_equal. lia.
  - cbn [forallb] in Hall. apply andb_true_iff in Hall. destruct Hall as [Hhd Hall].
    apply andb_true_iff in Hhd. destruct Hhd as [H1 H2]. simpl in H1, H2.
    cbn [fold_left List.filter fst].
    destruct (todayStart clock <=? ts) eqn:Hts.
    + rewrite (IH Hall _ (a + amount_added hd)).
      * cbn [map sum_list fold_right snd]. f_equal. unfold sum_list. lia.
      * simpl. rewrite Hts, (hourTotal_amount hd H1 H2), Ha. reflexivity.
    + rewrite (IH Hall _ a); [reflexivity|]. simpl. now rewrite Hts.
Qed.

Lemma last_cons {A} (x : A) (l : list A) (d : A) :
  List.last (x :: l) d = List.last l x.
Proof.
  revert x d. induction l as [|y l IH]; intros x d; [reflexivity|].
  change (List.last (x :: y :: l) d) with (List.last (y :: l) d).
  now rewrite (IH y d), (IH y x).
Qed.

Lemma thisHour_fold (clock : Clock) (history : History) :
  totals_are_counts history = true ->
  forall acc a,
    t_thisHour acc = VNum a ->
    t_thisHour (fold_left (history_step clock) history acc)
    = VNum (List.last (map (fun e => amount_added (snd e))
                           (List.filter (fun e => fst e =? currentHour clock) history))
                      a).
Proof.
  unfold totals_are_counts.
  induction history as [|[ts hd] history IH]; intros Hall acc a Ha.
  - simpl. exact Ha.
  - cbn [forallb] in Hall. apply andb_true_iff in Hall. destruct Hall as [Hhd Hall].
    apply andb_true_iff in Hhd. destruct Hhd as [H1 H2]. simpl in H1, H2.
    cbn [fold_left List.filter fst].
    destruct (ts =? currentHour clock) eqn:Hts.
    + rewrite (IH Hall _ (amount_added hd)).
      * cbn [map snd]. now rewrite last_cons.
      * simpl. rewrite Hts. now apply hourTotal_amount.
    + rewrite (IH Hall _ a); [reflexivity|]. simpl. now rewrite Hts.
Qed.

Lemma amounts_where_le (P : Z -> bool) (history : History) :
  Forall (fun e => 0 <= amount_added (snd e)) history ->
  0 <= amounts_where P history <= sum_list (map (fun e => amount_added (snd e)) history).
Proof.
  unfold amounts_where.
  induction 1 as [|e history He Hall IH]; simpl; [lia|].
  destruct (P (fst e)); simpl; lia.
Qed.

(** X23: on a feed whose [_total] and [total] are counts, [null] or
    absent, [processHistory] leaves in [today] the sum of the amounts of
    the buckets on or after the start of the day, and in [thisHour] the
    amount of the last bucket whose timestamp is the current hour (0 when
    there is none); when no amount is negative, [today] lies between 0 and
    [total]. *)
Theorem X23_today_and_thisHour (clock : Clock) (history : History) (s : State) :
  totals_are_counts history = true ->
  let u := usageStats (processHistory clock history s) in
  us_today u = Some (amounts_where (fun ts => todayStart clock <=? ts) history) /\
  us_thisHour u = VNum (last_amount (fun ts => ts =? currentHour clock) history) /\
  (Forall (fun e => 0 <= amount_added (snd e)) history ->
   exists today total, us_today u = Some today /\ us_total u = Some total /\
                       0 <= today <= total).
Proof.
  intros Hall u.
  assert (Hu : u = {| us_total := t_total (fold_left (history_step clock) history totals_init);
                      us_today := t_today (fold_left (history_step clock) history totals_init);
                      us_thisHour := t_thisHour (fold_left (history_step clock) history totals_init) |}).
  { subst u. unfold processHistory. now rewrite usageStats_autoSelectNew. }
  rewrite Hu. simpl.
  rewrite (today_fold clock history Hall totals_init 0 eq_refl).
  rewrite (thisHour_fold clock history Hall totals_init 0 eq_refl).
  rewrite (total_fold clock history Hall totals_init 0 eq_refl).
  split; [reflexivity|]. split; [reflexivity|].
  intros Hpos. eexists. eexists. split; [reflexivity|]. split; [reflexivity|].
  simpl. apply amounts_where_le, Hpos.
Qed.

Lemma X23_today_and_thisHour_witness :
  totals_are_counts [(-1 * Examples.hour, Examples.bucket_zero_total);
                     (14 * Examples.hour, Examples.bucket_plain)] = true /\
  us_today (usageStats (processHistory Examples.clock
                          [(-1 * Examples.hour, Examples.bucket_zero_total);
                           (14 * Examples.hour, Examples.bucket_plain)] init_state))
  = Some 45 /\
  us_thisHour (usageStats (processHistory Examples.clock
                             [(-1 * Examples.hour, Examples.bucket_zero_total);
                              (14 * Examples.hour, Examples.bucket_plain)] init_state))
  = VNum 45.
Proof.
  assert (Hc : totals_are_counts [(-1 * Examples.hour, Examples.bucket_zero_total);
                                  (14 * Examples.hour, Examples.bucket_plain)] = true)
    by reflexivity.
  split; [exact Hc|].
  destruct (X23_today_and_thisHour Examples.clock _ init_state Hc) as (Ht & Hh & _).
  split; [exact Ht | exact Hh].
Defined.

(** ** The rule for active accounts *)

Lemma existsb_map_to_list {A} (m : gmap string A) (P : string * A -> bool) :
  existsb P (map_to_list m) = true <->
  exists id l, m !! id = Some l /\ P (id, l) = true.
Proof.
  rewrite existsb_exists. split.
  - intros ([id l] & Hin & HP). exists id, l. split; [|exact HP].
    now apply elem_of_map_to_list, list_elem_of_In.
  - intros (id & l & Hl & HP). exists (id, l). split; [|exact HP].
    now apply list_elem_of_In, elem_of_map_to_list.
Qed.

(** The decision of the loop body, in the terms of the code. *)
Lemma hasActiveCore_iff (acc : Account) :
  hasActiveCore acc = true <->
  (exists id l, limits acc !! id = Some l /\ above_threshold l = true /\
                isCore id = true) \/
  ((forall id l, limits acc !! id = Some l -> isCore id = false) /\
   exists id l, limits acc !! id = Some l /\ above_threshold l = true).
Proof.
  unfold hasActiveCore.
  destruct (existsb (fun '(id, l) => above_threshold l && isCore id)
                    (map_to_list (limits acc))) eqn:Hcore; cbn [negb].
  - split; [intros _|reflexivity]. left.
    apply existsb_map_to_list in Hcore. destruct Hcore as (id & l & Hl & HP).
    apply andb_true_iff in HP. exists id, l. tauto.
  - assert (Hno : ~ exists id l, limits acc !! id = Some l /\
                                 above_threshold l = true /\ isCore id = true).
    { intros (id & l & Hl & Ha & Hc).
      assert (existsb (fun '(id, l) => above_threshold l && isCore id)
                      (map_to_list (limits acc)) = true).
      { apply existsb_map_to_list. exists id, l. split; [exact Hl|].
        now rewrite Ha, Hc. }
      congruence. }
    destruct (existsb (fun '(id, _) => isCore id) (map_to_list (limits acc)))
      eqn:Hany; cbn [negb].
    + split; [discriminate|]. intros [Hex|[Hnone _]]; [now destruct Hno|].
      apply existsb_map_to_list in Hany. destruct Hany as (id & l & Hl & Hc).
      rewrite (Hnone id l Hl) in Hc. discriminate.
    + assert (Hnone : forall id l, limits acc !! id = Some l -> isCore id = false).
      { intros id l Hl. apply not_true_is_false. intros Hc.
        assert (existsb (fun '(id, _) => isCore id) (map_to_list (limits acc)) = true).
        { apply existsb_map_to_list. exists id, l. split; [exact Hl | exact Hc]. }
        congruence. }
      rewrite existsb_map_to_list. split.
      * intros (id & l & Hl & Ha). right. split; [exact Hnone|]. now exists id, l.
      * intros [Hex|[_ (id & l & Hl & Ha)]]; [now destruct Hno|]. now exists id, l.
Qed.

(** A substring found by [includes] splits the string around it, and
    the split carries over from the lower-case copy to the string. *)
Lemma prefix_split (sub s : string) :
  String.prefix sub s = true -> exists post, s = (sub ++ post)%string.
Proof.
  revert s. induction sub as [|c sub IH]; intros s Hp.
  - exists s. reflexivity.
  - destruct s as [|d s]; [discriminate|]. simpl in Hp.
    destruct (ascii_dec c d) as [->|]; [|discriminate].
    destruct (IH s Hp) as (post & ->). exists post. reflexivity.
Qed.

Lemma includes_split (s sub : string) :
  JS.includes s sub = true -> exists pre post, s = (pre ++ sub ++ post)%string.
Proof.
  induction s as [|c s IH]; cbn [JS.includes]; intros Hi.
  - rewrite orb_false_r in Hi. destruct (prefix_split _ _ Hi) as (post & Hs).
    exists EmptyString, post. exact Hs.
  - apply orb_true_iff in Hi. destruct Hi as [Hp|Hi].
    + destruct (prefix_split _ _ Hp) as (post & Hs).
      exists EmptyString, post. exact Hs.
    + destruct (IH Hi) as (pre & post & ->).
      exists (String c pre), post. reflexivity.
Qed.

Lemma toLowerCase_split (s a b : string) :
  JS.toLowerCase s = (a ++ b)%string ->
  exists s1 s2, s = (s1 ++ s2)%string /\ JS.toLowerCase s1 = a /\ JS.toLowerCase s2 = b.
Proof.
  revert s. induction a as [|c a IH]; intros s Hs.
  - exists EmptyString, s. split; [reflexivity|]. split; [reflexivity | exact Hs].
  - destruct s as [|d s]; [discriminate|]. simpl in Hs.
    injection Hs as Hc Hs. destruct (IH s Hs) as (s1 & s2 & -> & H1 & H2).
    exists (String d s1), s2. split; [reflexivity|]. split; [|exact H2].
    simpl. now rewrite Hc, H1.
Qed.

Lemma includes_lower_split (id w : string) :
  JS.includes (JS.toLowerCase id) w = true <->
  exists pre v post, id = (pre ++ v ++ post)%string /\ JS.toLowerCase v = w.
Proof.
  split.
  - intros Hi. destruct (includes_split _ _ Hi) as (a & b & Hs).
    destruct (toLowerCase_split _ _ _ Hs) as (s1 & s23 & -> & _ & H23).
    destruct (toLowerCase_split _ _ _ H23) as (s2 & s3 & -> & H2 & _).
    exists s1, s2, s3. split; [reflexivity | exact H2].
  - intros (pre & v & post & -> & <-).
    rewrite !toLowerCase_app. apply includes_app.
Qed.

Lemma isCore_names_core (id : string) : isCore id = true <-> names_core id.
Proof.
  unfold isCore, names_core, core_word. cbv zeta.
  rewrite !orb_true_iff, !includes_lower_split. split.
  - intros [[[H|H]|H]|H]; destruct H as (pre & v & post & Hid & Hv);
      exists pre, v, post; (split; [exact Hid|]); tauto.
  - intros (pre & v & post & Hid & [Hv|[Hv|[Hv|Hv]]]);
      [left; left; left | left; left; right | left; right | right];
      exists pre, v, post; split; assumption.
Qed.

Lemma above_threshold_has_left (l : option Limit) :
  above_threshold l = true <-> has_left l.
Proof.
  unfold above_threshold, has_left.
  change (JS.to_double (5 # 100)) with (3602879701896397 # 72057594037927936).
  split.
  - destruct l as [l'|]; [|discriminate].
    destruct (remainingFraction l') as [rf|] eqn:Hrf; [|discriminate].
    intros Hb. exists l', rf. split; [reflexivity|]. split; [exact Hrf|].
    apply negb_true_iff in Hb. apply Qnot_le_lt. intros Hle.
    apply Qle_bool_iff in Hle. congruence.
  - intros (l' & rf & -> & Hrf & Hlt). rewrite Hrf.
    apply negb_true_iff, not_true_is_false. intros Hle.
    apply Qle_bool_iff in Hle. exact (Qlt_not_le _ _ Hlt Hle).
Qed.

(** X24: [updateStats] counts as active the accounts whose [enabled] is
    not [false] and that the rule accepts, and as limited the other
    accounts whose [enabled] is not [false].  The rule accepts an account
    exactly when its status is ["ok"] and some core model of it (an id
    holding sonnet, opus, pro or flash in any letter case) has more than 5%
    left (a remaining fraction above the double written 0.05), or it has no
    core model at all and some model of it has more than 5% left; so an
    account whose core models are all at 5% or below is limited, whatever
    its other models have left. *)
Theorem X24_active_account_rule (accs : list Account) (s : State) :
  let st := stats (updateStats accs s) in
  (forall acc, counts_active acc = true <-> active_by_rule acc) /\
  active st = count_of (fun acc => bool_decide (enabled acc <> Some false)
                                   && counts_active acc) accs /\
  limited st = count_of (fun acc => bool_decide (enabled acc <> Some false)
                                    && negb (counts_active acc)) accs /\
  (forall acc,
      (exists id l, limits acc !! id = Some l /\ names_core id) ->
      (forall id l, limits acc !! id = Some l -> names_core id -> ~ has_left l) ->
      counts_active acc = false).
Proof.
  assert (Hrule : forall acc, counts_active acc = true <-> active_by_rule acc).
  { intros acc. unfold counts_active, active_by_rule.
    rewrite andb_true_iff, String.eqb_eq, hasActiveCore_iff.
    split; intros [Hok Hact]; (split; [exact Hok|]).
    - destruct Hact as [(id & l & Hl & Ha & Hc)|[Hnone (id & l & Hl & Ha)]].
      + left. exists id, l. split; [exact Hl|].
        split; [now apply isCore_names_core | now apply above_threshold_has_left].
      + right. split.
        * intros id' l' Hl' Hc. apply isCore_names_core in Hc.
          rewrite (Hnone id' l' Hl') in Hc. discriminate.
        * exists id, l. split; [exact Hl | now apply above_threshold_has_left].
    - destruct Hact as [(id & l & Hl & Hc & Ha)|[Hnone (id & l & Hl & Ha)]].
      + left. exists id, l. split; [exact Hl|].
        split; [now apply above_threshold_has_left | now apply isCore_names_core].
      + right. split.
        * intros id' l' Hl'. apply not_true_is_false. intros Hc.
          apply isCore_names_core in Hc. exact (Hnone id' l' Hl' Hc).
        * exists id, l. split; [exact Hl | now apply above_threshold_has_left]. }
  assert (Hext : forall l, List.filter is_enabled l
                 = List.filter (fun acc => bool_decide (enabled acc <> Some false)) l).
  { intros l. apply filter_ext. exact is_enabled_not_false. }
  cbv zeta. split; [exact Hrule|]. split; [|split].
  - unfold updateStats. rewrite count_fold. simpl. unfold count_of.
    now rewrite Hext, filter_filter_andb.
  - unfold updateStats. rewrite count_fold. simpl. unfold count_of.
    now rewrite Hext, filter_filter_andb.
  - intros acc (id & l & Hl & Hc) Hlow. apply not_true_is_false. intros Hact.
    apply Hrule in Hact. destruct Hact as [_ [(id' & l' & Hl' & Hc' & Ha)|[Hnone _]]].
    + exact (Hlow id' l' Hl' Hc' Ha).
    + exact (Hnone id l Hl Hc).
Qed.

(** Five accounts: a core model at 1% next to another model at 90%
    (limited), no core model and a model at 90% (active), a core model at
    the double written 0.05 (limited: not above it), a core model in
    capitals at 6% (active), and a disabled account (not counted). *)
Lemma X24_active_account_rule_witness :
  map counts_active [account_core_low; account_no_core; account_at_threshold;
                     account_above]
  = [false; true; false; true] /\
  (let st := stats (updateStats [account_core_low; account_no_core;
                                 account_at_threshold; account_above;
                                 Examples.disabled_account] init_state) in
   active st = 2 /\ limited st = 2 /\ total st = 4).
Proof.
  split; [vm_compute; reflexivity|].
  destruct (X24_active_account_rule
              [account_core_low; account_no_core; account_at_threshold;
               account_above; Examples.disabled_account] init_state)
    as (_ & Ha & Hl & _).
  cbv zeta. rewrite Ha, Hl. repeat split; vm_compute; reflexivity.
Defined.

(** ** The top-N selection *)

Lemma StronglySorted_firstn {A} (R : A -> A -> Prop) (n : nat) (l : list A) :
  StronglySorted R l -> StronglySorted R (firstn n l).
Proof.
  intros Hs. revert n. induction Hs as [|x l Hs IH Hall]; intros n.
  - destruct n; constructor.
  - destruct n as [|n]; [constructor|]. cbn [firstn]. constructor; [apply IH|].
    apply List.Forall_forall. intros y Hy. rewrite List.Forall_forall in Hall.
    apply Hall. eapply In_firstn, Hy.
Qed.

(** X25: on a feed whose family and model names hold no colon, and with
    no [null] under a family key in the window, [autoSelectTopN] does not
    return: it ends in the exception of its last statement, the call of
    [refreshChart], which the component does not define.  By then the
    selection holds exactly the pairs of [top_pairs] and their families: at
    most [n] pairs (5 by default), in descending order of usage, each with
    the sum of its counts over the buckets on or after [now - 24h]. *)
Theorem X25_topN_selects_the_top_pairs (n : option nat) (clock : Clock) (s : State) :
  let dayAgo := now clock - 24 * 60 * 60 * 1000 in
  let ts := window_counts dayAgo (historyData s) in
  let top := top_pairs (default 5%nat n) ts in
  no_null_family dayAgo (historyData s) = true ->
  names_without_colon ts = true ->
  exists s',
    autoSelectTopN n clock s = Throws s' /\
    (forall f m, isModelSelected s' f m = true <->
                 exists t, In t top /\ c_family t = f /\ c_model t = m) /\
    (forall f, isFamilySelected s' f = true <-> exists t, In t top /\ c_family t = f) /\
    (forall t, In t top -> c_count t = pair_usage (c_family t) (c_model t) ts) /\
    (length top <= default 5%nat n)%nat /\
    StronglySorted (fun a b => c_count b <= c_count a) top.
Proof.
  intros dayAgo ts top Hnull Hcolon.
  destruct (autoSelectTopN_selects_top_pairs n clock s Hnull Hcolon)
    as (s' & Hs' & Hfam & Hmod & _).
  exists s'. split; [exact Hs'|]. split; [exact Hmod|]. split; [exact Hfam|].
  destruct (pair_totals_spec ts) as (_ & _ & Hsum).
  split; [|split].
  - intros t Ht. apply Hsum. apply In_firstn in Ht. now apply Array_sort_In in Ht.
  - apply firstn_le_length.
  - apply StronglySorted_firstn.
    assert (Hs : StronglySorted (precedes (fun a b : Count => c_count b - c_count a))
                   (JS.Array_sort (fun a b => c_count b - c_count a) (pair_totals ts))).
    { apply Array_sort_sorted; intros; lia. }
    induction Hs as [|x l Hs IH Hall]; constructor; [exact IH|].
    eapply Forall_impl; [exact Hall|]. intros y Hy. unfold precedes in Hy. lia.
Qed.

Lemma X25_topN_selects_the_top_pairs_witness :
  no_null_family (now Examples.clock - 24 * 60 * 60 * 1000)
                 (historyData Examples.after_family_off) = true /\
  names_without_colon (window_counts (now Examples.clock - 24 * 60 * 60 * 1000)
                                     (historyData Examples.after_family_off)) = true /\
  exists s', autoSelectTopN (Some 2%nat) Examples.clock Examples.after_family_off
             = Throws s' /\
             isModelSelected s' "claude" "opus" = true /\
             isFamilySelected s' "gemini" = false.
Proof.
  assert (Hn : no_null_family (now Examples.clock - 24 * 60 * 60 * 1000)
                 (historyData Examples.after_family_off) = true)
    by (vm_compute; reflexivity).
  assert (Hc : names_without_colon
                 (window_counts (now Examples.clock - 24 * 60 * 60 * 1000)
                                (historyData Examples.after_family_off)) = true)
    by (vm_compute; reflexivity).
  split; [exact Hn|]. split; [exact Hc|].
  destruct (X25_topN_selects_the_top_pairs (Some 2%nat) Examples.clock
              Examples.after_family_off Hn Hc) as (s' & Hs' & Hmod & Hfam & _).
  exists s'. split; [exact Hs'|]. split.
  - apply Hmod. exists ("claude", "opus", 30). split; [|now split].
    vm_compute. left. reflexivity.
  - apply not_true_is_false. intros Hsel. apply Hfam in Hsel.
    destruct Hsel as (t & Ht & Hf). vm_compute in Ht.
    destruct Ht as [<-|[<-|[]]]; discriminate Hf.
Defined.

Lemma usage_entry_null (hourData : Bucket) (f : string) :
  In (f, VNull) hourData -> f <> "_total" ->
  forall u, fold_left usage_entry hourData u = None.
Proof.
  intros Hin Hf.
  assert (Hnone : forall hd, fold_left usage_entry hd None = None).
  { induction hd as [|[k v] hd IH]; [reflexivity | exact IH]. }
  induction hourData as [|kv hd IH]; [destruct Hin|]. intros u. cbn [fold_left].
  destruct Hin as [->|Hin]; [|now apply IH].
  destruct u as [u|]; [|apply Hnone].
  simpl. apply String.eqb_neq in Hf. rewrite Hf. simpl. apply Hnone.
Qed.

(** X26: when a bucket on or after [now - 24h] holds [null] under a key
    other than [_total], [autoSelectTopN] throws before it assigns
    anything: the exception leaves the call with the state as it was. *)
Theorem X26_topN_throws_on_a_null_family (n : option nat) (clock : Clock) (s : State)
  (ts : Z) (hourData : Bucket) (f : string) :
  In (ts, hourData) (historyData s) ->
  now clock - 24 * 60 * 60 * 1000 <= ts ->
  In (f, VNull) hourData ->
  f <> "_total" ->
  autoSelectTopN n clock s = Throws s.
Proof.
  intros Hin Hts Hnull Hf. unfold autoSelectTopN. cbv zeta.
  assert (Hu : usage_of (now clock - 24 * 60 * 60 * 1000) (historyData s) = None).
  { unfold usage_of.
    assert (Hnone : forall h, fold_left (usage_bucket (now clock - 24 * 60 * 60 * 1000))
                                        h None = None).
    { induction h as [|[t hd] h IH]; [reflexivity|]. cbn [fold_left].
      unfold usage_bucket at 2.
      destruct (t <? _); [exact IH|].
      assert (Hn : fold_left usage_entry hd None = None).
      { clear. induction hd as [|[k v] hd IH]; [reflexivity | exact IH]. }
      rewrite Hn. exact IH. }
    assert (Hall : forall h u, In (ts, hourData) h ->
              fold_left (usage_bucket (now clock - 24 * 60 * 60 * 1000)) h u = None).
    { induction h as [|e h IH]; intros u Hh; [destruct Hh|]. cbn [fold_left].
      destruct Hh as [->|Hh]; [|now apply IH].
      unfold usage_bucket at 2.
      destruct (Z.ltb_spec ts (now clock - 24 * 60 * 60 * 1000)); [lia|].
      rewrite (usage_entry_null hourData f Hnull Hf). apply Hnone. }
    now apply Hall. }
  now rewrite Hu.
Qed.

Lemma X26_topN_throws_on_a_null_family_witness :
  In (14 * Examples.hour, [("gemini", VNull); ("_total", VNum 0)])
     (historyData state_null) /\
  now Examples.clock - 24 * 60 * 60 * 1000 <= 14 * Examples.hour /\
  autoSelectTopN None Examples.clock state_null = Throws state_null.
Proof.
  assert (Hi : In (14 * Examples.hour, [("gemini", VNull); ("_total", VNum 0)])
                  (historyData state_null)) by (right; left; reflexivity).
  assert (Ht : now Examples.clock - 24 * 60 * 60 * 1000 <= 14 * Examples.hour)
    by (vm_compute; discriminate).
  split; [exact Hi|]. split; [exact Ht|].
  apply (X26_topN_throws_on_a_null_family None Examples.clock state_null _ _ "gemini"
           Hi Ht).
  - left. reflexivity.
  - discriminate.
Defined.

(** ** The refresh after the first *)

(** X27: a refresh that finds a selection (some family selected or some
    family stored in the selected models) only appends: the selected
    families and the selected models of every family keep their entries and
    their order, every family of the feed and every model of its tree is
    selected afterwards, and nothing is written to the storage. *)
Theorem X27_refresh_appends_to_the_selection (s : State) :
  (length (selectedFamilies s) =? 0)%nat && (size (selectedModels s) =? 0)%nat = false ->
  let s' := autoSelectNew s in
  (exists e, selectedFamilies s' = selectedFamilies s ++ e) /\
  (forall g l, selectedModels s !! g = Some l ->
               exists e, selectedModels s' !! g = Some (l ++ e)) /\
  (forall f, In f (families s) -> isFamilySelected s' f = true) /\
  (forall f m, In f (families s) -> In m (default [] (modelTree s !! f)) ->
               isModelSelected s' f m = true) /\
  localStorage s' = localStorage s.
Proof.
  intros Hne s'.
  destruct (autoSelectNew_extension s Hne) as ([Hf Hm] & Hfam & Hmod).
  fold s' in Hf, Hm, Hfam, Hmod. simpl in Hf, Hm.
  split; [exact Hf|]. split; [exact Hm|]. split; [exact Hfam|]. split; [exact Hmod|].
  subst s'. unfold autoSelectNew. rewrite Hne. now destruct (fold_left _ _ _).
Qed.

Lemma X27_refresh_appends_to_the_selection_witness :
  (length (selectedFamilies Examples.after_deselect) =? 0)%nat
  && (size (selectedModels Examples.after_deselect) =? 0)%nat = false /\
  (exists e, selectedFamilies (autoSelectNew Examples.after_deselect)
             = selectedFamilies Examples.after_deselect ++ e) /\
  localStorage (autoSelectNew Examples.after_deselect)
  = localStorage Examples.after_deselect.
Proof.
  assert (Hne : (length (selectedFamilies Examples.after_deselect) =? 0)%nat
                && (size (selectedModels Examples.after_deselect) =? 0)%nat = false)
    by (vm_compute; reflexivity).
  split; [exact Hne|].
  destruct (X27_refresh_appends_to_the_selection Examples.after_deselect Hne)
    as (Hf & _ & _ & _ & Hst).
  split; [exact Hf | exact Hst].
Defined.

(** * Properties of the charts *)

Import Charts CoverCharts.

(** ** Series keyed by name *)

Section Series.
Context {K : Type} (key : K -> string).

Lemma push_point_lookup (d : gmap string (list Z)) (k : string) (v : Z) (k' : string) :
  push_point d k v !! k'
  = if String.eqb k k' then (fun l => l ++ [v]) <$> d !! k' else d !! k'.
Proof.
  unfold push_point. destruct (String.eqb_spec k k') as [->|Hne].
  - apply lookup_alter_eq.
  - now apply lookup_alter_ne.
Qed.

Lemma push_other (val : K -> Z) (k : string) (xs : list K) :
  (forall x, In x xs -> key x <> k) ->
  forall d, fold_left (fun d x => push_point d (key x) (val x)) xs d !! k = d !! k.
Proof.
  induction xs as [|x xs IH]; intros Hne d; [reflexivity|]. cbn [fold_left].
  rewrite IH by (intros y Hy; apply Hne; now right).
  rewrite push_point_lookup.
  destruct (String.eqb_spec (key x) k) as [He|_]; [|reflexivity].
  exfalso. apply (Hne x); [now left | exact He].
Qed.

Lemma push_once (val : K -> Z) (xs : list K) (x : K) :
  NoDup (map key xs) -> In x xs ->
  forall d, fold_left (fun d x => push_point d (key x) (val x)) xs d !! key x
            = (fun l => l ++ [val x]) <$> d !! key x.
Proof.
  induction xs as [|y xs IH]; intros Hnd Hin d; [destruct Hin|].
  cbn [map] in Hnd. apply NoDup_cons in Hnd. destruct Hnd as [Hnot Hnd].
  cbn [fold_left]. destruct Hin as [->|Hin].
  - rewrite push_other.
    + rewrite push_point_lookup. now rewrite String.eqb_refl.
    + intros z Hz He. apply Hnot. rewrite <- He. apply list_elem_of_In.
      now apply in_map.
  - rewrite IH by assumption. rewrite push_point_lookup.
    destruct (String.eqb_spec (key y) (key x)) as [He|_]; [|reflexivity].
    exfalso. apply Hnot. rewrite He. apply list_elem_of_In. now apply in_map.
Qed.

Lemma init_lookup (xs : list K) (x : K) :
  In x xs ->
  forall d, fold_left (fun d x => init_series d (key x)) xs d !! key x = Some [].
Proof.
  intros Hin. apply (in_map key) in Hin. revert Hin. generalize (key x) as k. clear x.
  assert (Hkeep : forall k l d', ~ In k (map key l) ->
            fold_left (fun d x => init_series d (key x)) l d' !! k = d' !! k).
  { intros k. induction l as [|z l IH]; intros d' Hn'; [reflexivity|]. cbn [fold_left].
    rewrite IH by (intros Hc; apply Hn'; now right).
    unfold init_series. apply lookup_insert_ne. intros He. apply Hn'. now left. }
  induction xs as [|y xs IH]; intros k Hin d; [destruct Hin|]. cbn [fold_left].
  destruct (in_dec string_dec k (map key xs)) as [Hi|Hn]; [now apply IH|].
  destruct Hin as [<-|Hin]; [|contradiction].
  rewrite Hkeep by exact Hn. unfold init_series. apply lookup_insert_eq.
Qed.

Lemma series_of {E : Type} (val : E -> K -> Z) (xs : list K) (x : K) (h : list E) :
  NoDup (map key xs) -> In x xs ->
  forall d,
    fold_left (fun d e => fold_left (fun d x => push_point d (key x) (val e x)) xs d)
              h d !! key x
    = (fun l => l ++ map (fun e => val e x) h) <$> d !! key x.
Proof.
  intros Hnd Hin. induction h as [|e h IH]; intros d; cbn [fold_left map].
  - destruct (d !! key x); simpl; [now rewrite app_nil_r | reflexivity].
  - rewrite IH, (push_once (val e) xs x Hnd Hin).
    destruct (d !! key x); simpl; [now rewrite <- app_assoc | reflexivity].
Qed.

End Series.

Lemma fold_left_snoc {A B} (f : A -> B) (l : list A) (acc : list B) :
  fold_left (fun out x => out ++ [f x]) l acc = acc ++ map f l.
Proof.
  revert acc. induction l as [|x l IH]; intros acc; simpl.
  - now rewrite app_nil_r.
  - rewrite IH. now rewrite <- app_assoc.
Qed.

Lemma fold_left_nested {A B C} (g : C -> A -> B -> C) (inner : A -> list B)
  (l : list A) (c : C) :
  fold_left (fun c a => fold_left (fun c b => g c a b) (inner a) c) l c
  = fold_left (fun c p => g c (fst p) (snd p))
              (flat_map (fun a => map (fun b => (a, b)) (inner a)) l) c.
Proof.
  revert c. induction l as [|a l IH]; intros c; [reflexivity|].
  cbn [fold_left flat_map]. rewrite fold_left_app, IH. f_equal.
  generalize (inner a) as bs. clear. intros bs. revert c.
  induction bs as [|b bs IH]; intros c; [reflexivity|]. cbn [fold_left map]. apply IH.
Qed.

Lemma map_ext_In_eq {A B} (f g : A -> B) (l : list A) :
  (forall x, In x l -> f x = g x) -> map f l = map g l.
Proof.
  induction l as [|x l IH]; intros H; [reflexivity|]. cbn [map].
  rewrite (H x) by now left. f_equal. apply IH. intros y Hy. apply H. now right.
Qed.



(** A family stored twice in the selection gets two points per bucket in
    both of its series, against one label. *)
Example family_selected_twice :
  trend_data twice = [[40; 40]; [40; 40]] /\ length (trend_labels twice) = 1%nat.
Proof. split; vm_compute; reflexivity. Qed.

Lemma model_count_count_in (hourData : Bucket) (family model : string) :
  model_count hourData family model = count_in hourData family model.
Proof.
  unfold model_count, count_in, prop.
  destruct (field hourData family) as [[| |n|counts]|]; try reflexivity.
Qed.

(** X29: in model mode, when no two drawn pairs share a key
    [family:model], the trend chart gets one series per selected model of
    each family of [families], in that order, and the series of a pair
    holds one point per bucket of the history: the model's count under its
    family in that bucket, or 0 where the bucket has none.  Every series
    is as long as the list of labels. *)
Theorem X29_model_series_follow_the_history (s : State) :
  displayMode s <> "family" ->
  NoDup (map (fun p => series_key (fst p) (snd p)) (chart_pairs s)) ->
  trend_data s
  = map (fun p => map (fun e => count_in (snd e) (fst p) (snd p)) (historyData s))
        (chart_pairs s) /\
  Forall (fun data => length data = length (trend_labels s)) (trend_data s).
Proof.
  intros Hmode Hnd.
  assert (Heq : trend_data s
                = map (fun p => map (fun e => count_in (snd e) (fst p) (snd p))
                                    (historyData s))
                      (chart_pairs s)).
  { unfold trend_data. apply String.eqb_neq in Hmode. rewrite Hmode.
    rewrite (fold_left_nested
               (fun datasets family model =>
                  datasets ++ [default [] (dataByModel s !! series_key family model)])
               (selected_of s) (families s) []).
    fold (chart_pairs s).
    rewrite (fold_left_snoc
               (fun p => default [] (dataByModel s !! series_key (fst p) (snd p)))).
    cbn [app]. apply map_ext_In_eq. intros p Hp.
    unfold dataByModel.
    assert (Hb : forall h d,
               fold_left (model_bucket s) h d
               = fold_left
                   (fun d e =>
                      fold_left (fun d p =>
                                   push_point d (series_key (fst p) (snd p))
                                              (model_count (snd e) (fst p) (snd p)))
                                (chart_pairs s) d) h d).
    { induction h as [|e h IH]; intros d; [reflexivity|]. cbn [fold_left].
      rewrite IH. f_equal. unfold model_bucket.
      apply (fold_left_nested
               (fun d family model =>
                  push_point d (series_key family model)
                             (model_count (snd e) family model))). }
    rewrite Hb.
    rewrite (fold_left_nested
               (fun d family model => init_series d (series_key family model))
               (selected_of s) (families s) ∅).
    fold (chart_pairs s).
    rewrite (series_of (fun p => series_key (fst p) (snd p))
               (fun e p => model_count (snd e) (fst p) (snd p))
               (chart_pairs s) p (historyData s) Hnd Hp).
    rewrite (init_lookup (fun p => series_key (fst p) (snd p)) (chart_pairs s) p Hp).
    cbn [fmap option_fmap option_map default app]. apply map_ext.
    intros e. apply model_count_count_in. }
  split; [exact Heq|]. rewrite Heq. apply List.Forall_forall.
  intros data Hd. apply in_map_iff in Hd. destruct Hd as (p & <- & _).
  unfold trend_labels. now rewrite !length_map.
Qed.

(** Two buckets, the second with [null] under [gemini] and nothing
    under [claude]: the three selected models get their counts of the first
    bucket and 0 for the second. *)
Lemma X29_model_series_follow_the_history_witness :
  displayMode state_null <> "family" /\
  NoDup (map (fun p => series_key (fst p) (snd p)) (chart_pairs state_null)) /\
  chart_pairs state_null = [("claude", "opus"); ("claude", "sonnet"); ("gemini", "flash")] /\
  trend_data state_null = [[30; 0]; [10; 0]; [5; 0]] /\
  length (trend_labels state_null) = 2%nat.
Proof.
  assert (Hm : displayMode state_null <> "family") by (vm_compute; discriminate).
  assert (Hnd : NoDup (map (fun p => series_key (fst p) (snd p))
                           (chart_pairs state_null))).
  { vm_compute. repeat (constructor; [rewrite list_elem_of_In; simpl; intuition discriminate|]).
    constructor. }
  split; [exact Hm|]. split; [exact Hnd|]. split; [vm_compute; reflexivity|].
  split; [|reflexivity].
  rewrite (proj1 (X29_model_series_follow_the_history state_null Hm Hnd)).
  vm_compute. reflexivity.
Defined.

(** ** The health figure *)

Lemma add_info_ok (fam : string) (pct : Z) (fs : Obj FamilyStat) :
  0 <= pct <= 100 ->
  Forall (fun e => 0 <= fs_used (snd e) <= fs_total (snd e)) fs ->
  Forall (fun e => 0 <= fs_used (snd e) <= fs_total (snd e)) (add_info fam pct fs).
Proof.
  intros Hp Hok. induction Hok as [|[k st] fs Hst Hok IH]; [constructor|].
  cbn [add_info]. destruct (String.eqb k fam).
  - constructor; [|exact Hok]. simpl in *. lia.
  - constructor; [exact Hst | exact IH].
Qed.

Lemma stats_row_ok (fs : Obj FamilyStat) (row : UnfilteredRow) :
  (forall p, In p (u_quotaInfo row) -> 0 <= p <= 100) ->
  Forall (fun e => 0 <= fs_used (snd e) <= fs_total (snd e)) fs ->
  Forall (fun e => 0 <= fs_used (snd e) <= fs_total (snd e)) (stats_row fs row).
Proof.
  intros Hp Hok. unfold stats_row.
  assert (He : Forall (fun e => 0 <= fs_used (snd e) <= fs_total (snd e))
                      (ensure_family fs (u_family row))).
  { unfold ensure_family. destruct (field fs (u_family row)); [exact Hok|].
    apply Forall_app. split; [exact Hok|]. constructor; [simpl; lia | constructor]. }
  revert He. generalize (ensure_family fs (u_family row)) as fs'.
  induction (u_quotaInfo row) as [|p ps IH]; intros fs' He; [exact He|].
  cbn [fold_left]. apply IH.
  - intros q Hq. apply Hp. now right.
  - apply add_info_ok; [apply Hp; now left | exact He].
Qed.

Lemma familyStats_ok (rows : list UnfilteredRow) :
  (forall row p, In row rows -> In p (u_quotaInfo row) -> 0 <= p <= 100) ->
  Forall (fun e => 0 <= fs_used (snd e) <= fs_total (snd e)) (familyStats_of rows).
Proof.
  intros Hp. unfold familyStats_of.
  assert (H0 : Forall (fun e : string * FamilyStat =>
                         0 <= fs_used (snd e) <= fs_total (snd e)) []) by constructor.
  revert H0. generalize (@nil (string * FamilyStat)) as fs.
  induction rows as [|row rows IH]; intros fs Hok; [exact Hok|].
  cbn [fold_left]. apply IH.
  - intros r p Hr. apply Hp. now right.
  - apply stats_row_ok; [|exact Hok]. intros p. apply Hp. now left.
Qed.

Lemma global_sums (fs : Obj FamilyStat) :
  Forall (fun e => 0 <= fs_used (snd e) <= fs_total (snd e)) fs ->
  0 <= globalUsed fs <= globalTotal fs.
Proof.
  intros Hok. unfold globalUsed, globalTotal.
  assert (Hall : forall u t, 0 <= u <= t ->
            0 <= fold_left (fun sum f => sum + fs_used (snd f)) fs u
              <= fold_left (fun sum f => sum + fs_total (snd f)) fs t).
  { induction Hok as [|e fs He Hok IH]; intros u t Hut; [exact Hut|].
    cbn [fold_left]. apply IH. lia. }
  apply Hall. lia.
Qed.

Lemma unfiltered_pcts_in_range (st : Store) (settings : option Settings)
  (row : UnfilteredRow) (p : Z) :
  accounts_in_range (accounts st) = true ->
  In row (getUnfilteredQuotaData st settings) ->
  In p (u_quotaInfo row) ->
  0 <= p <= 100.
Proof.
  intros Hr Hrow Hp. apply In_getUnfilteredQuotaData in Hrow.
  destruct Hrow as (mid & _ & Hrow). unfold unfiltered_row_of in Hrow.
  cbv zeta in Hrow.
  destruct (isHidden _ _ && negb _); [discriminate|].
  destruct (length _ =? 0)%nat; [discriminate|].
  injection Hrow as <-. cbn [u_quotaInfo] in Hp.
  rewrite unfiltered_fold in Hp. cbn [app] in Hp.
  apply In_omap in Hp. destruct Hp as (acc & Hacc & Hl).
  destruct (limit_of acc mid) as [l|] eqn:El; [|discriminate].
  injection Hl as <-. apply pct_of_range.
  apply (limit_of_in_range acc mid l); [|exact El].
  unfold accounts_in_range in Hr. rewrite forallb_forall in Hr. now apply Hr.
Qed.

Lemma health_of_range (fs : Obj FamilyStat) :
  Forall (fun e => 0 <= fs_used (snd e) <= fs_total (snd e)) fs ->
  0 <= health_of fs <= 100.
Proof.
  intros Hok. pose proof (global_sums fs Hok) as Hs. unfold health_of.
  destruct (Z.gtb_spec (globalTotal fs) 0) as [Hpos|_]; [|lia].
  assert (Ht : (0 < inject_Z (globalTotal fs))%Q).
  { change 0%Q with (inject_Z 0). rewrite <- Zlt_Qlt. lia. }
  assert (Hq : (inject_Z 0 <= JS.div (inject_Z (globalUsed fs))
                                     (inject_Z (globalTotal fs)))%Q /\
               (JS.div (inject_Z (globalUsed fs)) (inject_Z (globalTotal fs))
                <= inject_Z 1)%Q).
  { apply to_double_bounds; [lia | discriminate | |].
    - apply Qle_shift_div_l; [exact Ht|].
      rewrite <- inject_Z_mult, <- Zle_Qle. lia.
    - apply Qle_shift_div_r; [exact Ht|].
      rewrite <- inject_Z_mult, <- Zle_Qle. lia. }
  destruct Hq as [Hq0 Hq1].
  set (q := JS.div (inject_Z (globalUsed fs)) (inject_Z (globalTotal fs))) in *.
  unfold inject_Z in Hq0, Hq1.
  apply round_mul_bounds; [lia | discriminate | |]; unfold inject_Z; lra.
Qed.

(** X30: [updateCharts] keeps the health figure a percentage.  When
    every remaining fraction of the store lies between 0 and 1, the stored
    [overallHealth] lies between 0 and 100 after the call, whether or not
    the chart could be drawn, given that it did before. *)
Theorem X30_overallHealth_is_a_percentage (canDraw : bool) (st : Store)
  (settings : option Settings) (s : State) :
  accounts_in_range (accounts st) = true ->
  0 <= overallHealth (stats s) <= 100 ->
  0 <= overallHealth (stats (updateCharts canDraw st settings s)) <= 100.
Proof.
  intros Hr Hs. unfold updateCharts. destruct canDraw; cbn [negb]; [|exact Hs].
  cbv zeta. cbn [set_stats stats overallHealth].
  apply health_of_range, familyStats_ok.
  intros row p. now apply unfiltered_pcts_in_range.
Qed.

Lemma X30_overallHealth_is_a_percentage_witness :
  accounts_in_range (accounts Examples.store_two) = true /\
  (0 <= overallHealth (stats init_state) <= 100) /\
  (0 <= overallHealth (stats (updateCharts true Examples.store_two None init_state))
   <= 100).
Proof.
  assert (Hr : accounts_in_range (accounts Examples.store_two) = true)
    by (vm_compute; reflexivity).
  assert (Hs : 0 <= overallHealth (stats init_state) <= 100) by (simpl; lia).
  split; [exact Hr|]. split; [exact Hs|].
  exact (X30_overallHealth_is_a_percentage true Examples.store_two None init_state Hr Hs).
Defined.
